(** * Pool Service Platform: token service and record store

    A shallow embedding of the server's token helpers ([base64urlEncode],
    [base64urlDecode], [generateToken], [verifyToken]), of the JSON file
    stores ([getServices]/[saveServices], [getUsers]/[saveUsers]) and of
    the request handlers that register users and create or update service
    records, together with the part of the Node.js platform they call:
    strings, [Buffer] base64 conversion, HMAC-SHA256, [JSON.stringify] and
    [JSON.parse], property access, truthiness and comparison.

    Conventions of the model.
    - A JavaScript string is a [string] holding the UTF-8 bytes of its text,
      so [Buffer.from(str)] is the string's own bytes.  The model is exact
      for ASCII text, which is all a token is made of.
    - A JavaScript number is an exact decimal, [JNum z] for an integer and
      [JDec m e] for [m / 10^e], or one of NaN and the two infinities.  The
      decimals agree with IEEE doubles on integers up to 2^53 and on
      literals of at most 15 significant digits within the range of the
      doubles; a literal beyond that is kept as written, where the
      platform rounds it.
    - A function that may throw returns a [completion]; [try]/[catch] is
      [try_catch]. *)

From Stdlib Require Import ZArith NArith Lia Bool List.
From Stdlib Require Import Ascii String.
Import ListNotations.

Local Open Scope string_scope.
Local Open Scope Z_scope.

(** ** Strings *)

Module Text.

Definition dot : ascii := "."%char.

(** [s.split(sep)] for a one-character separator. *)
Fixpoint split (sep : ascii) (s : string) : list string :=
  match s with
  | EmptyString => [EmptyString]
  | String c s' =>
      if Ascii.eqb c sep then EmptyString :: split sep s'
      else match split sep s' with
           | hd :: tl => String c hd :: tl
           | [] => [String c EmptyString]
           end
  end.

(** [s.replace(/c/g, '')]. *)
Fixpoint remove_all (c : ascii) (s : string) : string :=
  match s with
  | EmptyString => EmptyString
  | String x s' =>
      if Ascii.eqb x c then remove_all c s' else String x (remove_all c s')
  end.

(** The character [b] for [a], every other character for itself. *)
Definition swap (a b x : ascii) : ascii := if Ascii.eqb x a then b else x.

(** [s.replace(/a/g, 'b')]. *)
Fixpoint replace_all (a b : ascii) (s : string) : string :=
  match s with
  | EmptyString => EmptyString
  | String x s' => String (swap a b x) (replace_all a b s')
  end.

(** Whether the character [c] occurs in [s]. *)
Fixpoint mem (c : ascii) (s : string) : bool :=
  match s with
  | EmptyString => false
  | String x s' => Ascii.eqb x c || mem c s'
  end.

(** The string with the character at index [i] replaced by [c]. *)
Fixpoint set_char (i : nat) (c : ascii) (s : string) : string :=
  match s, i with
  | EmptyString, _ => EmptyString
  | String _ s', O => String c s'
  | String x s', S i' => String x (set_char i' c s')
  end.

Fixpoint repeat_char (c : ascii) (n : nat) : string :=
  match n with
  | O => EmptyString
  | S n' => String c (repeat_char c n')
  end.

(** The bytes of a string, [Buffer.from(str)], and back. *)
Fixpoint bytes_of (s : string) : list N :=
  match s with
  | EmptyString => []
  | String c s' => N_of_ascii c :: bytes_of s'
  end.

Fixpoint of_bytes (l : list N) : string :=
  match l with
  | [] => EmptyString
  | b :: l' => String (ascii_of_N b) (of_bytes l')
  end.

(** Whether every character of [s] satisfies [p]. *)
Fixpoint all_chars (p : ascii -> bool) (s : string) : bool :=
  match s with
  | EmptyString => true
  | String c r => p c && all_chars p r
  end.

End Text.

(** ** SHA-256 and HMAC (FIPS 180-4, RFC 2104), on 32-bit words held in [N] *)

Module Sha256.

Local Open Scope N_scope.

Definition mask32 : N := 0xffffffff.

Definition add32 (a b : N) : N := N.land (a + b) mask32.

Definition rotr (n x : N) : N :=
  N.lor (N.shiftr x n) (N.land (N.shiftl x (32 - n)) mask32).

Definition Ch (x y z : N) : N :=
  N.lxor (N.land x y) (N.land (N.lxor x mask32) z).

Definition Maj (x y z : N) : N :=
  N.lxor (N.lxor (N.land x y) (N.land x z)) (N.land y z).

Definition Sigma0 (x : N) : N := N.lxor (N.lxor (rotr 2 x) (rotr 13 x)) (rotr 22 x).
Definition Sigma1 (x : N) : N := N.lxor (N.lxor (rotr 6 x) (rotr 11 x)) (rotr 25 x).
Definition sigma0 (x : N) : N := N.lxor (N.lxor (rotr 7 x) (rotr 18 x)) (N.shiftr x 3).
Definition sigma1 (x : N) : N := N.lxor (N.lxor (rotr 17 x) (rotr 19 x)) (N.shiftr x 10).

(** The first primes, in ascending order. *)
Definition is_prime (p : nat) : bool :=
  forallb (fun d => negb (p mod d =? 0)%nat) (seq 2 (p - 2)).

Definition primes : list N := map N.of_nat (filter is_prime (seq 2 310)).

(** The integer cube root: the bits of the root are fixed from the top. *)
Fixpoint cube_root_bits (bit : nat) (x n : N) : N :=
  match bit with
  | O => x
  | S bit' =>
      let y := x + N.shiftl 1 (N.of_nat bit') in
      cube_root_bits bit' (if y * y * y <=? n then y else x) n
  end.

(** The first 32 bits of the fractional part of a cube root and of a
    square root. *)
Definition frac_cube_root (p : N) : N :=
  N.land (cube_root_bits 36 0 (N.shiftl p 96)) mask32.

Definition frac_square_root (p : N) : N :=
  N.land (N.sqrt (N.shiftl p 64)) mask32.

(** The round constants come from the cube roots of the first 64 primes
    and the initial hash value from the square roots of the first 8. *)
Definition K : list N := Eval vm_compute in map frac_cube_root primes.

Definition H0 : list N :=
  Eval vm_compute in map frac_square_root (firstn 8 primes).

(** Big-endian bytes of a number, [len] of them. *)
Fixpoint be_bytes (len : nat) (x : N) : list N :=
  match len with
  | O => []
  | S len' => N.land (N.shiftr x (8 * N.of_nat len')) 0xff :: be_bytes len' x
  end.

(** The message followed by 0x80, zeros up to 56 mod 64, and its bit
    length on eight bytes. *)
Definition pad (msg : list N) : list N :=
  let len := N.of_nat (List.length msg) in
  let zeros := N.to_nat ((119 - len mod 64) mod 64) in
  (msg ++ 0x80 :: List.repeat 0 zeros ++ be_bytes 8 (8 * len))%list.

Fixpoint words_of (fuel : nat) (bs : list N) : list N :=
  match fuel, bs with
  | S fuel', b0 :: b1 :: b2 :: b3 :: rest =>
      (N.shiftl b0 24 + N.shiftl b1 16 + N.shiftl b2 8 + b3) :: words_of fuel' rest
  | _, _ => []
  end.

(** Extends the 16 words of a block to the 64 of the message schedule;
    [w] holds the words so far, newest first. *)
Fixpoint extend (n : nat) (w : list N) : list N :=
  match n with
  | O => w
  | S n' =>
      let x := add32 (add32 (sigma1 (nth 1 w 0)) (nth 6 w 0))
                     (add32 (sigma0 (nth 14 w 0)) (nth 15 w 0)) in
      extend n' (x :: w)
  end.

Definition schedule (block : list N) : list N :=
  rev (extend 48 (rev block)).

Record regs := Regs { ra : N; rb : N; rc : N; rd : N; re : N; rf : N; rg : N; rh : N }.

Definition round (s : regs) (kw : N * N) : regs :=
  let (k, w) := kw in
  let t1 := add32 (add32 (add32 (rh s) (Sigma1 (re s))) (add32 (Ch (re s) (rf s) (rg s)) k)) w in
  let t2 := add32 (Sigma0 (ra s)) (Maj (ra s) (rb s) (rc s)) in
  Regs (add32 t1 t2) (ra s) (rb s) (rc s) (add32 (rd s) t1) (re s) (rf s) (rg s).

Definition regs_of (h : list N) : regs :=
  Regs (nth 0 h 0) (nth 1 h 0) (nth 2 h 0) (nth 3 h 0)
       (nth 4 h 0) (nth 5 h 0) (nth 6 h 0) (nth 7 h 0).

Definition compress (h : list N) (block : list N) : list N :=
  let s := fold_left round (combine K (schedule block)) (regs_of h) in
  [ add32 (nth 0 h 0) (ra s); add32 (nth 1 h 0) (rb s);
    add32 (nth 2 h 0) (rc s); add32 (nth 3 h 0) (rd s);
    add32 (nth 4 h 0) (re s); add32 (nth 5 h 0) (rf s);
    add32 (nth 6 h 0) (rg s); add32 (nth 7 h 0) (rh s) ].

Fixpoint blocks (fuel : nat) (h : list N) (ws : list N) : list N :=
  match fuel, ws with
  | S fuel', _ :: _ => blocks fuel' (compress h (firstn 16 ws)) (skipn 16 ws)
  | _, _ => h
  end.

(** The 32 bytes of the digest. *)
Definition sha256 (msg : list N) : list N :=
  let p := pad msg in
  let ws := words_of (List.length p) p in
  flat_map (be_bytes 4) (blocks (List.length ws) H0 ws).

Definition block_size : nat := 64.

(** [crypto.createHmac('sha256', key).update(data).digest()]. *)
Definition hmac (key data : list N) : list N :=
  let k0 := if Nat.ltb block_size (List.length key) then sha256 key else key in
  let k := (k0 ++ List.repeat 0 (block_size - List.length k0))%list in
  let ipad := map (N.lxor 0x36) k in
  let opad := map (N.lxor 0x5c) k in
  sha256 (opad ++ sha256 (ipad ++ data))%list.

Definition hex_digit (n : N) : ascii :=
  ascii_of_N (if n <? 10 then 48 + n else 87 + n).

Fixpoint hex (bs : list N) : string :=
  match bs with
  | [] => EmptyString
  | b :: bs' => String (hex_digit (N.shiftr b 4)) (String (hex_digit (N.land b 0xf)) (hex bs'))
  end.

(** A digit or a letter from [a] to [f]. *)
Definition is_hex (c : ascii) : bool :=
  let n := N_of_ascii c in
  ((48 <=? n) && (n <=? 57)) || ((97 <=? n) && (n <=? 102)).

End Sha256.

(** ** Base64 as [Buffer] converts it

    [encode] is [buf.toString('base64')] and [decode] is
    [Buffer.from(str, 'base64')], on strings that hold the bytes.  A byte
    is an [ascii], least significant bit first, so the regrouping of
    three bytes into four six-bit values is a permutation of bits. *)

Module Base64.

Definition alphabet : string :=
  "ABCDEFGHIJKLMNOPQRSTUVWXYZabcdefghijklmnopqrstuvwxyz0123456789+/".

Definition pad_char : ascii := "="%char.

(** The character that stands for a six-bit value. *)
Definition b64_char (v : ascii) : ascii :=
  match String.get (nat_of_ascii v) alphabet with
  | Some c => c
  | None => pad_char
  end.

(** The six-bit value of a character; Node's table reads the URL-safe
    characters [-] and [_] as well as [+] and [/]. *)
Definition unbase64 (c : ascii) : option ascii :=
  let n := N_of_ascii c in
  if (65 <=? n)%N && (n <=? 90)%N then Some (ascii_of_N (n - 65))
  else if (97 <=? n)%N && (n <=? 122)%N then Some (ascii_of_N (n - 71))
  else if (48 <=? n)%N && (n <=? 57)%N then Some (ascii_of_N (n + 4))
  else if (n =? 43)%N || (n =? 45)%N then Some (ascii_of_N 62)
  else if (n =? 47)%N || (n =? 95)%N then Some (ascii_of_N 63)
  else None.

(** [a >> 2], [(a & 3) << 4 | b >> 4], [(b & 15) << 2 | c >> 6], [c & 63]. *)
Definition group3 (a b c : ascii) : list ascii :=
  match a, b, c with
  | Ascii a0 a1 a2 a3 a4 a5 a6 a7,
    Ascii b0 b1 b2 b3 b4 b5 b6 b7,
    Ascii c0 c1 c2 c3 c4 c5 c6 c7 =>
      [ Ascii a2 a3 a4 a5 a6 a7 false false;
        Ascii b4 b5 b6 b7 a0 a1 false false;
        Ascii c6 c7 b0 b1 b2 b3 false false;
        Ascii c0 c1 c2 c3 c4 c5 false false ]
  end.

(** The six-bit values of a byte string: four for every three bytes, two
    for one byte left over and three for two. *)
Fixpoint sextets_of (s : string) : list ascii :=
  match s with
  | EmptyString => []
  | String a EmptyString => firstn 2 (group3 a zero zero)
  | String a (String b EmptyString) => firstn 3 (group3 a b zero)
  | String a (String b (String c rest)) => (group3 a b c ++ sextets_of rest)%list
  end.

Fixpoint chars_of (vs : list ascii) : string :=
  match vs with
  | [] => EmptyString
  | v :: vs' => String (b64_char v) (chars_of vs')
  end.

Definition padding (s : string) : string :=
  Text.repeat_char pad_char ((3 - String.length s mod 3) mod 3).

Definition encode (s : string) : string :=
  chars_of (sextets_of s) ++ padding s.

(** The decoder skips every character outside its table and stops at the
    first [=]. *)
Fixpoint sextets (s : string) : list ascii :=
  match s with
  | EmptyString => []
  | String c s' =>
      if Ascii.eqb c pad_char then []
      else match unbase64 c with
           | Some v => v :: sextets s'
           | None => sextets s'
           end
  end.

(** [s0 << 2 | s1 >> 4]. *)
Definition byte0 (s0 s1 : ascii) : ascii :=
  match s0, s1 with
  | Ascii x0 x1 x2 x3 x4 x5 _ _, Ascii _ _ _ _ y4 y5 _ _ =>
      Ascii y4 y5 x0 x1 x2 x3 x4 x5
  end.

(** [(s1 & 15) << 4 | s2 >> 2]. *)
Definition byte1 (s1 s2 : ascii) : ascii :=
  match s1, s2 with
  | Ascii y0 y1 y2 y3 _ _ _ _, Ascii _ _ z2 z3 z4 z5 _ _ =>
      Ascii z2 z3 z4 z5 y0 y1 y2 y3
  end.

(** [(s2 & 3) << 6 | s3]. *)
Definition byte2 (s2 s3 : ascii) : ascii :=
  match s2, s3 with
  | Ascii z0 z1 _ _ _ _ _ _, Ascii w0 w1 w2 w3 w4 w5 _ _ =>
      Ascii w0 w1 w2 w3 w4 w5 z0 z1
  end.

(** Three bytes for every four values; two values left over give one
    byte, three give two, and a single one gives none. *)
Fixpoint bytes_of_sextets (vs : list ascii) : string :=
  match vs with
  | s0 :: s1 :: s2 :: s3 :: rest =>
      String (byte0 s0 s1) (String (byte1 s1 s2) (String (byte2 s2 s3)
        (bytes_of_sextets rest)))
  | [s0; s1; s2] => String (byte0 s0 s1) (String (byte1 s1 s2) EmptyString)
  | [s0; s1] => String (byte0 s0 s1) EmptyString
  | _ => EmptyString
  end.

Definition decode (s : string) : string := bytes_of_sextets (sextets s).

(** A six-bit value: the two top bits are clear. *)
Definition is_sextet (v : ascii) : bool :=
  match v with
  | Ascii _ _ _ _ _ _ false false => true
  | _ => false
  end.

End Base64.

(** [crypto.createHmac('sha256', key).update(data).digest('base64')]. *)
Definition hmac_sha256_base64 (key data : string) : string :=
  Base64.encode
    (Text.of_bytes (Sha256.hmac (Text.bytes_of key) (Text.bytes_of data))).

(** [crypto.createHash('sha256').update(data).digest('hex')]. *)
Definition sha256_hex (data : string) : string :=
  Sha256.hex (Sha256.sha256 (Text.bytes_of data)).

(** ** JavaScript values *)

Set Warnings "-register-all".

Module JS.

(** What a [throw] carries. *)
Inductive error : Type :=
| TypeError
| SyntaxError
| SystemError.

(** The outcome of evaluating code that may throw. *)
Inductive completion (A : Type) : Type :=
| Return (a : A)
| Throw (e : error).

Arguments Return {A} a.
Arguments Throw {A} e.

Definition bind {A B : Type} (c : completion A) (k : A -> completion B)
  : completion B :=
  match c with
  | Return a => k a
  | Throw e => Throw e
  end.

(** [try { body } catch (err) { handler }]. *)
Definition try_catch {A : Type} (body : completion A)
  (handler : error -> completion A) : completion A :=
  match body with
  | Return a => Return a
  | Throw e => handler e
  end.

(** The numbers that are no decimal. *)
Inductive nonfinite : Type :=
| NaN
| PosInfinity
| NegInfinity.

(** The values the program handles: those that [JSON.parse] produces and
    the numbers that no JSON text denotes.  [JNum z] is the integer [z]
    and [JDec m k], with [m] not a multiple of ten, is [m / 10^k].  An
    object lists its own properties in enumeration order.  [undefined] is
    the [None] of an [option value]. *)
Inductive value : Type :=
| JNull
| JBool (b : bool)
| JNum (z : Z)
| JDec (m : Z) (k : positive)
| JStr (s : string)
| JArr (l : list value)
| JObj (o : list (string * value))
| JNonFinite (x : nonfinite).

(** The result of [ToNumber]. *)
Inductive number : Type :=
| NFin (m : Z) (e : Z)   (* m * 10^e *)
| NNaN
| NPosInf
| NNegInf.

(** *** Decimal digits *)

Definition digit_char (d : Z) : ascii := ascii_of_N (Z.to_N (48 + d)).

Definition is_digit (c : ascii) : bool :=
  let n := N_of_ascii c in (48 <=? n)%N && (n <=? 57)%N.

Definition digit_val (c : ascii) : Z := Z.of_N (N_of_ascii c) - 48.

(** The digits of [n], most significant first, in front of [acc]. *)
Fixpoint digits_aux (fuel : nat) (n : Z) (acc : string) : string :=
  match fuel with
  | O => acc
  | S fuel' =>
      let acc' := String (digit_char (n mod 10)) acc in
      if n <? 10 then acc' else digits_aux fuel' (n / 10) acc'
  end.

Definition digits (n : Z) : string :=
  digits_aux (S (Z.to_nat (Z.log2 n))) n EmptyString.

(** Reads digits in front of [s] into [acc]: the number read and the
    rest of the string. *)
Fixpoint read_digits (acc : Z) (s : string) : Z * string :=
  match s with
  | String c s' =>
      if is_digit c then read_digits (acc * 10 + digit_val c) s' else (acc, s)
  | EmptyString => (acc, s)
  end.

(** The digits in front of [s], as text, and the rest. *)
Fixpoint span_digits (s : string) : string * string :=
  match s with
  | String c s' =>
      if is_digit c
      then let (d, r) := span_digits s' in (String c d, r)
      else (EmptyString, s)
  | EmptyString => (EmptyString, s)
  end.

(** Whether [s] is made of digits. *)
Fixpoint all_digits (s : string) : bool :=
  match s with
  | EmptyString => true
  | String c r => is_digit c && all_digits r
  end.

Fixpoint strip_zeros_rev (s : string) : string :=
  match s with
  | String "0" s' => strip_zeros_rev s'
  | _ => s
  end.

Fixpoint rev_string (s acc : string) : string :=
  match s with
  | EmptyString => acc
  | String c s' => rev_string s' (String c acc)
  end.

Definition strip_trailing_zeros (s : string) : string :=
  rev_string (strip_zeros_rev (rev_string s EmptyString)) EmptyString.

(** *** [Number::toString]

    [s] holds the significant digits and the value is [0.s * 10^n]. *)
Definition exponent_form (s : string) (n : Z) : string :=
  let e := n - 1 in
  let mantissa :=
    match s with
    | String d EmptyString => s
    | String d r => String d ("." ++ r)
    | EmptyString => s
    end in
  mantissa ++ "e" ++ (if e <? 0 then "-" else "+") ++ digits (Z.abs e).

Definition decimal_form (s : string) (n : Z) : string :=
  let k := Z.of_nat (String.length s) in
  if (k <=? n) && (n <=? 21) then s ++ Text.repeat_char "0" (Z.to_nat (n - k))
  else if (0 <? n) && (n <=? 21)
  then substring 0 (Z.to_nat n) s ++ "." ++ substring (Z.to_nat n) (Z.to_nat (k - n)) s
  else if (-6 <? n) && (n <=? 0)
  then "0." ++ Text.repeat_char "0" (Z.to_nat (- n)) ++ s
  else exponent_form s n.

Definition sign_prefix (z : Z) : string := if z <? 0 then "-" else "".

(** The text of an integer: its digits when there are at most 21, the
    exponent form beyond. *)
Definition int_to_string (z : Z) : string :=
  let d := digits (Z.abs z) in
  sign_prefix z ++
  (if Nat.leb (String.length d) 21 then d
   else exponent_form (strip_trailing_zeros d) (Z.of_nat (String.length d))).

Definition dec_to_string (m : Z) (k : positive) : string :=
  let d := digits (Z.abs m) in
  sign_prefix m ++ decimal_form d (Z.of_nat (String.length d) - Z.pos k).

(** Strips the factors of ten that [m] and [10^k] share. *)
Fixpoint normalize (fuel : nat) (m k : Z) : Z * Z :=
  match fuel with
  | O => (m, k)
  | S fuel' =>
      if (0 <? k) && (m mod 10 =? 0) then normalize fuel' (m / 10) (k - 1)
      else (m, k)
  end.

(** The value that is [m / 10^k] for any integer [k]. *)
Definition make_number (m k : Z) : value :=
  if m =? 0 then JNum 0
  else if k <=? 0 then JNum (m * 10 ^ (- k))
  else match normalize (Z.to_nat k) m k with
       | (m', Zpos k') => JDec m' k'
       | (m', _) => JNum m'
       end.

(** *** Numbers and their comparison *)

Definition scale (m e low : Z) : Z := m * 10 ^ (e - low).

(** [Number::lessThan]: [None] is the [undefined] that a NaN gives. *)
Definition less_than (x y : number) : option bool :=
  match x, y with
  | NNaN, _ | _, NNaN => None
  | NPosInf, _ => Some false
  | _, NPosInf => Some true
  | _, NNegInf => Some false
  | NNegInf, _ => Some true
  | NFin m1 e1, NFin m2 e2 =>
      let low := Z.min e1 e2 in
      Some (scale m1 e1 low <? scale m2 e2 low)
  end.

(** [Number::equal]. *)
Definition number_eqb (x y : number) : bool :=
  match x, y with
  | NFin m1 e1, NFin m2 e2 =>
      let low := Z.min e1 e2 in
      scale m1 e1 low =? scale m2 e2 low
  | NPosInf, NPosInf | NNegInf, NNegInf => true
  | _, _ => false
  end.

(** The value that holds a number. *)
Definition value_of_number (n : number) : value :=
  match n with
  | NFin m e => make_number m (- e)
  | NNaN => JNonFinite NaN
  | NPosInf => JNonFinite PosInfinity
  | NNegInf => JNonFinite NegInfinity
  end.

(** *** Objects *)

Definition object : Type := list (string * value).

(** The array index that a property name spells, if any: the canonical
    decimal text of an integer below 2^32 - 1. *)
Definition array_index (k : string) : option Z :=
  let (n, rest) := read_digits 0 k in
  if String.eqb rest "" && String.eqb (digits n) k && (n <? 4294967295)
  then Some n else None.

Fixpoint obj_get (k : string) (o : object) : option value :=
  match o with
  | [] => None
  | (k', v) :: o' => if String.eqb k' k then Some v else obj_get k o'
  end.

Definition obj_has (k : string) (o : object) : bool :=
  match obj_get k o with
  | Some _ => true
  | None => false
  end.

Fixpoint obj_replace (k : string) (v : value) (o : object) : object :=
  match o with
  | [] => []
  | (k', v') :: o' =>
      if String.eqb k' k then (k', v) :: o' else (k', v') :: obj_replace k v o'
  end.

(** A new index property goes after the smaller indices and before
    everything else. *)
Fixpoint obj_insert_index (n : Z) (k : string) (v : value) (o : object)
  : object :=
  match o with
  | [] => [(k, v)]
  | (k', v') :: o' =>
      match array_index k' with
      | Some n' =>
          if n' <? n then (k', v') :: obj_insert_index n k v o'
          else (k, v) :: o
      | None => (k, v) :: o
      end
  end.

(** [o[k] = v] on an ordinary object: an existing property keeps its
    place; a new one is enumerated after the existing ones, except that
    array indices come first, in ascending order. *)
Definition obj_set (k : string) (v : value) (o : object) : object :=
  if obj_has k o then obj_replace k v o
  else match array_index k with
       | Some n => obj_insert_index n k v o
       | None => (o ++ [(k, v)])%list
       end.

(** The object that results from defining the properties of [l] one after
    the other, as an object literal or [JSON.parse] does. *)
Definition obj_of_list (l : list (string * value)) : object :=
  fold_left (fun o kv => obj_set (fst kv) (snd kv) o) l [].

(** Names that are no array index and do not repeat. *)
Fixpoint names_ok (ks : list string) : bool :=
  match ks with
  | [] => true
  | k :: r =>
      match array_index k with
      | None => negb (existsb (String.eqb k) r) && names_ok r
      | Some _ => false
      end
  end.

(** Array indices above [low] in ascending order, then such names. *)
Fixpoint keys_ok (low : Z) (ks : list string) : bool :=
  match ks with
  | [] => true
  | k :: r =>
      match array_index k with
      | Some n => (low <? n) && keys_ok n r
      | None => names_ok ks
      end
  end.

(** Whether a list of properties is in the order in which an object
    enumerates them, each name once. *)
Definition ordered (o : object) : bool := keys_ok (-1) (map fst o).

(** *** Truthiness, property access, equality *)

Definition truthy (v : option value) : bool :=
  match v with
  | None => false
  | Some JNull => false
  | Some (JBool b) => b
  | Some (JNum z) => negb (z =? 0)
  | Some (JDec _ _) => true
  | Some (JStr s) => negb (String.eqb s "")
  | Some (JArr _) => true
  | Some (JObj _) => true
  | Some (JNonFinite NaN) => false
  | Some (JNonFinite _) => true
  end.

(** [v.k] for a name [k] that no prototype defines and that is neither
    [length] nor an index, which covers the names this program reads
    ([exp], [id], [username], [password], [passwordHash]): an object gives
    its own property, [null] throws, every other value gives [undefined]. *)
Definition get_prop (v : value) (k : string) : completion (option value) :=
  match v with
  | JNull => Throw TypeError
  | JObj o => Return (obj_get k o)
  | _ => Return None
  end.

(** [v.k = x] in sloppy mode, for such a name: an object gets the
    property, [null] throws, the assignment to a primitive is dropped,
    and an array gets a property that is no element, which neither
    [JSON.stringify] nor the program reads again. *)
Definition set_prop (v : value) (k : string) (x : value) : completion value :=
  match v with
  | JNull => Throw TypeError
  | JObj o => Return (JObj (obj_set k x o))
  | _ => Return v
  end.

Definition number_of_nonfinite (x : nonfinite) : number :=
  match x with
  | NaN => NNaN
  | PosInfinity => NPosInf
  | NegInfinity => NNegInf
  end.

Definition number_of_value (v : value) : option number :=
  match v with
  | JNum z => Some (NFin z 0)
  | JDec m k => Some (NFin m (- Z.pos k))
  | JNonFinite x => Some (number_of_nonfinite x)
  | _ => None
  end.

(** [a === b] between two values that were parsed separately: primitives
    are compared by value, and an array or object is identical to itself
    only, so never to a value from another [JSON.parse]. *)
Definition strict_eq (a b : option value) : bool :=
  match a, b with
  | None, None => true
  | Some JNull, Some JNull => true
  | Some (JBool x), Some (JBool y) => Bool.eqb x y
  | Some (JStr x), Some (JStr y) => String.eqb x y
  | Some x, Some y =>
      match number_of_value x, number_of_value y with
      | Some n, Some m => number_eqb n m
      | _, _ => false
      end
  | _, _ => false
  end.

(** [v === n] for a number [n]. *)
Definition strict_eq_number (v : option value) (n : number) : bool :=
  match v with
  | Some x =>
      match number_of_value x with
      | Some m => number_eqb m n
      | None => false
      end
  | None => false
  end.

(** *** [ToString], [ToNumber]

    [ToString] of an array joins its elements with commas, [null] giving
    the empty text.  An ordinary object gives ["[object Object]"] unless
    it has an own [toString] property: that one is no function, and nor
    does [valueOf] yield a primitive, so the conversion throws. *)
Fixpoint to_string (v : value) : completion string :=
  match v with
  | JNull => Return "null"
  | JBool b => Return (if b then "true" else "false")
  | JNum z => Return (int_to_string z)
  | JDec m k => Return (dec_to_string m k)
  | JStr s => Return s
  | JArr l =>
      let fix join (l : list value) : completion string :=
        match l with
        | [] => Return ""
        | x :: r =>
            bind (match x with JNull => Return "" | _ => to_string x end)
              (fun sx =>
                 match r with
                 | [] => Return sx
                 | _ => bind (join r) (fun sr => Return (sx ++ "," ++ sr))
                 end)
        end in
      join l
  | JObj o =>
      if obj_has "toString" o then Throw TypeError
      else Return "[object Object]"
  | JNonFinite NaN => Return "NaN"
  | JNonFinite PosInfinity => Return "Infinity"
  | JNonFinite NegInfinity => Return "-Infinity"
  end.

Definition is_space (c : ascii) : bool :=
  let n := N_of_ascii c in
  ((9 <=? n)%N && (n <=? 13)%N) || (n =? 32)%N.

Fixpoint trim_left (s : string) : string :=
  match s with
  | String c s' => if is_space c then trim_left s' else s
  | EmptyString => s
  end.

Definition trim (s : string) : string :=
  rev_string (trim_left (rev_string (trim_left s) "")) "".

Definition radix_digit (radix : Z) (c : ascii) : option Z :=
  let n := Z.of_N (N_of_ascii c) in
  let d := if (48 <=? n) && (n <=? 57) then n - 48
           else if (97 <=? n) && (n <=? 102) then n - 87
           else if (65 <=? n) && (n <=? 70) then n - 55
           else 16 in
  if d <? radix then Some d else None.

(** The digits of [s] in the given radix, all of [s]; [None] when a
    character is no digit. *)
Fixpoint read_radix (radix acc : Z) (s : string) : option Z :=
  match s with
  | EmptyString => Some acc
  | String c s' =>
      match radix_digit radix c with
      | Some d => read_radix radix (acc * radix + d) s'
      | None => None
      end
  end.

Definition radix_literal (radix : Z) (s : string) : number :=
  match s with
  | EmptyString => NNaN
  | _ => match read_radix radix 0 s with
         | Some n => NFin n 0
         | None => NNaN
         end
  end.

(** An optional exponent part, [e] or [E], a sign and digits, that must
    end the text. *)
Definition read_exponent (s : string) : option Z :=
  match s with
  | EmptyString => Some 0
  | String c r =>
      if Ascii.eqb c "e" || Ascii.eqb c "E" then
        let (neg, r1) :=
          match r with
          | String "-" r' => (true, r')
          | String "+" r' => (false, r')
          | _ => (false, r)
          end in
        match span_digits r1 with
        | (String d ds, EmptyString) =>
            let e := fst (read_digits 0 (String d ds)) in
            Some (if neg then - e else e)
        | _ => None
        end
      else None
  end.

(** [StrUnsignedDecimalLiteral]. *)
Definition unsigned_decimal (s : string) : number :=
  if String.eqb s "Infinity" then NPosInf
  else
    let (ip, r1) := span_digits s in
    let (fp, r2) :=
      match r1 with
      | String "." r => span_digits r
      | _ => (EmptyString, r1)
      end in
    match (ip ++ fp)%string with
    | EmptyString => NNaN
    | _ =>
        match read_exponent r2 with
        | Some e =>
            NFin (fst (read_digits 0 (ip ++ fp))) (e - Z.of_nat (String.length fp))
        | None => NNaN
        end
    end.

Definition negate (n : number) : number :=
  match n with
  | NFin m e => NFin (- m) e
  | NPosInf => NNegInf
  | NNegInf => NPosInf
  | NNaN => NNaN
  end.

(** [StringToNumber]; of the white space it trims, the model knows the
    ASCII characters. *)
Definition string_to_number (s : string) : number :=
  match trim s with
  | EmptyString => NFin 0 0
  | String "0" (String "x" r) | String "0" (String "X" r) => radix_literal 16 r
  | String "0" (String "o" r) | String "0" (String "O" r) => radix_literal 8 r
  | String "0" (String "b" r) | String "0" (String "B" r) => radix_literal 2 r
  | String "-" r => negate (unsigned_decimal r)
  | String "+" r => unsigned_decimal r
  | t => unsigned_decimal t
  end.

(** [ToNumber]. *)
Definition to_number (v : option value) : completion number :=
  match v with
  | None => Return NNaN
  | Some JNull => Return (NFin 0 0)
  | Some (JBool b) => Return (NFin (if b then 1 else 0) 0)
  | Some (JNum z) => Return (NFin z 0)
  | Some (JDec m k) => Return (NFin m (- Z.pos k))
  | Some (JNonFinite x) => Return (number_of_nonfinite x)
  | Some (JStr s) => Return (string_to_number s)
  | Some x => bind (to_string x) (fun s => Return (string_to_number s))
  end.

(** [n > v] for a number [n]: the operand [v] is converted with
    [ToNumber], and a comparison with NaN is false. *)
Definition number_gt (n : Z) (v : option value) : completion bool :=
  bind (to_number v) (fun x =>
    Return (match less_than x (NFin n 0) with
            | Some b => b
            | None => false
            end)).

End JS.

(** ** UTF-8: [Buffer.from(str)] and [buf.toString()]

    [encode] gives the bytes of a code point.  [decode] is the decoder of
    the Encoding Standard: a well-formed sequence is passed on as it is,
    and every maximal ill-formed part is replaced by U+FFFD. *)

Module Utf8.

Definition encode (cp : N) : string :=
  let byte (n : N) := ascii_of_N n in
  let cont (n : N) := byte (128 + n mod 64)%N in
  if (cp <? 128)%N then String (byte cp) ""
  else if (cp <? 2048)%N then String (byte (192 + cp / 64)%N) (String (cont cp) "")
  else if (cp <? 65536)%N
  then String (byte (224 + cp / 4096)%N)
         (String (cont (cp / 64)%N) (String (cont cp) ""))
  else String (byte (240 + cp / 262144)%N)
         (String (cont (cp / 4096)%N) (String (cont (cp / 64)%N) (String (cont cp) ""))).

Definition replacement : string := encode 65533.

Inductive state : Type :=
| Start
| Cont (needed : nat) (lower upper : N) (pending : string).

Definition in_range (lo hi : N) (b : ascii) : bool :=
  let n := N_of_ascii b in (lo <=? n)%N && (n <=? hi)%N.

(** A byte met at the start of a sequence: what is written and the
    state that follows. *)
Definition start (b : ascii) : string * state :=
  let n := N_of_ascii b in
  if (n <? 128)%N then (String b "", Start)
  else if in_range 194 223 b then ("", Cont 1 128 191 (String b ""))
  else if in_range 224 239 b
  then ("", Cont 2 (if (n =? 224)%N then 160 else 128)%N
                   (if (n =? 237)%N then 159 else 191)%N (String b ""))
  else if in_range 240 244 b
  then ("", Cont 3 (if (n =? 240)%N then 144 else 128)%N
                   (if (n =? 244)%N then 143 else 191)%N (String b ""))
  else (replacement, Start).

Definition step (st : state) (b : ascii) : string * state :=
  match st with
  | Start => start b
  | Cont needed lower upper pending =>
      if in_range lower upper b then
        match needed with
        | S (S n) => ("", Cont (S n) 128 191 (pending ++ String b ""))
        | _ => (pending ++ String b "", Start)
        end
      else let (out, st') := start b in (replacement ++ out, st')
  end.

Fixpoint run (st : state) (s : string) : string :=
  match s with
  | EmptyString =>
      match st with
      | Start => ""
      | Cont _ _ _ _ => replacement
      end
  | String b s' => let (out, st') := step st b in out ++ run st' s'
  end.

Definition decode (bytes : string) : string := run Start bytes.

(** Whether the byte continues or starts a sequence without error. *)
Definition clean (st : state) (b : ascii) : bool :=
  match st with
  | Start => (N_of_ascii b <? 128)%N || in_range 194 244 b
  | Cont _ lower upper _ => in_range lower upper b
  end.

(** The state after [s], when no byte of [s] is in error. *)
Fixpoint final (st : state) (s : string) : option state :=
  match s with
  | EmptyString => Some st
  | String b s' => if clean st b then final (snd (step st b)) s' else None
  end.

(** Well-formed UTF-8: no error and no sequence left open. *)
Definition well_formed (s : string) : bool :=
  match final Start s with
  | Some Start => true
  | _ => false
  end.

(** The bytes of a sequence read so far. *)
Definition held (st : state) : string :=
  match st with
  | Start => ""
  | Cont _ _ _ pending => pending
  end.

(** Every state that a step leads to expects a continuation byte. *)
Definition sane (st : state) : Prop :=
  match st with
  | Start => True
  | Cont _ lower _ _ => (128 <= lower)%N
  end.

(** Text that can stand anywhere between two sequences. *)
Definition transparent (a : string) : Prop :=
  forall t, final Start (a ++ t) = final Start t.

Fixpoint all_ascii (s : string) : bool :=
  match s with
  | EmptyString => true
  | String c s' => (N_of_ascii c <? 128)%N && all_ascii s'
  end.

End Utf8.

(** ** JSON text: [JSON.stringify] and [JSON.parse] *)

Module Json.

Import JS.

(** The double quote, character 34. *)
Definition dquote : ascii := Ascii false true false false false true false false.

Definition hex_char (n : N) : ascii :=
  ascii_of_N (if (n <? 10)%N then (48 + n)%N else (87 + n)%N).

(** [QuoteJSONString], one character at a time. *)
Definition escape_char (c : ascii) : string :=
  let n := N_of_ascii c in
  if (n =? 34)%N then String "\" (String dquote "")
  else if (n =? 92)%N then "\\"
  else if (n =? 8)%N then "\b"
  else if (n =? 9)%N then "\t"
  else if (n =? 10)%N then "\n"
  else if (n =? 12)%N then "\f"
  else if (n =? 13)%N then "\r"
  else if (n <? 32)%N
  then "\u00" ++ String (hex_char (n / 16)%N) (String (hex_char (n mod 16)%N) "")
  else String c "".

Fixpoint escape (s : string) : string :=
  match s with
  | EmptyString => EmptyString
  | String c s' => escape_char c ++ escape s'
  end.

Definition quote (s : string) : string :=
  String dquote (escape s ++ String dquote "").

Fixpoint join (sep : string) (l : list string) : string :=
  match l with
  | [] => ""
  | [x] => x
  | x :: r => x ++ sep ++ join sep r
  end.

Definition newline : string := String (ascii_of_N 10) "".

(** The line break and indentation that precede an item; nothing when
    there is no gap. *)
Definition break (gap indent : string) : string :=
  match gap with
  | EmptyString => ""
  | _ => newline ++ indent
  end.

(** The text of an array or object from the texts of its items. *)
Definition wrap (opening closing gap indent : string) (partial : list string)
  : string :=
  match partial with
  | [] => opening ++ closing
  | _ =>
      let inner := indent ++ gap in
      opening ++ break gap inner
        ++ join ("," ++ break gap inner) partial
        ++ break gap indent ++ closing
  end.

(** The colon of a member, followed by a space when there is a gap. *)
Definition colon (gap : string) : string :=
  String ":" match gap with
             | EmptyString => ""
             | _ => " "
             end.

(** [SerializeJSONProperty] with the given gap at the given indentation;
    a number that is not finite is written as [null]. *)
Fixpoint serialize (gap indent : string) (v : value) {struct v} : string :=
  match v with
  | JNull => "null"
  | JBool b => if b then "true" else "false"
  | JNum z => int_to_string z
  | JDec m k => dec_to_string m k
  | JStr s => quote s
  | JArr l =>
      let fix items (l : list value) : list string :=
        match l with
        | [] => []
        | x :: r => serialize gap (indent ++ gap) x :: items r
        end in
      wrap "[" "]" gap indent (items l)
  | JObj o =>
      let fix members (o : list (string * value)) : list string :=
        match o with
        | [] => []
        | (k, x) :: r =>
            (quote k ++ colon gap ++ serialize gap (indent ++ gap) x)
              :: members r
        end in
      wrap "{" "}" gap indent (members o)
  | JNonFinite _ => "null"
  end.

(** [JSON.stringify(v)]. *)
Definition stringify (v : value) : string := serialize "" "" v.

(** [JSON.stringify(v, null, 2)]. *)
Definition stringify_indented (v : value) : string := serialize "  " "" v.

(** *** Parsing *)

Definition is_ws (c : ascii) : bool :=
  let n := N_of_ascii c in
  (n =? 32)%N || (n =? 9)%N || (n =? 10)%N || (n =? 13)%N.

Fixpoint skip_ws (s : string) : string :=
  match s with
  | String c s' => if is_ws c then skip_ws s' else s
  | EmptyString => s
  end.

Fixpoint strip_prefix (p s : string) : option string :=
  match p, s with
  | EmptyString, _ => Some s
  | String a p', String b s' => if Ascii.eqb a b then strip_prefix p' s' else None
  | String _ _, EmptyString => None
  end.

Definition is_high_surrogate (cu : N) : bool := (55296 <=? cu)%N && (cu <=? 56319)%N.
Definition is_low_surrogate (cu : N) : bool := (56320 <=? cu)%N && (cu <=? 57343)%N.

Definition hex_val (c : ascii) : option N :=
  match radix_digit 16 c with
  | Some d => Some (Z.to_N d)
  | None => None
  end.

(** Where the scanner of a string literal stands: in plain text, after a
    backslash, or inside a [\u] escape with [togo] digits to read. *)
Inductive scan : Type :=
| Plain
| Escaped
| Unicode (togo : nat) (acc : N).

(** A high surrogate that waits for its low half; alone it denotes no
    text and is read as U+FFFD. *)
Definition flush (pending : option N) : string :=
  match pending with
  | Some _ => Utf8.replacement
  | None => ""
  end.

Definition emit (prefix : string) (r : option (string * string))
  : option (string * string) :=
  match r with
  | Some (str, rest) => Some (prefix ++ str, rest)
  | None => None
  end.

Definition simple_escape (c : ascii) : option ascii :=
  let n := N_of_ascii c in
  if (n =? 34)%N || (n =? 92)%N || (n =? 47)%N then Some c
  else if (n =? 98)%N then Some (ascii_of_N 8)
  else if (n =? 102)%N then Some (ascii_of_N 12)
  else if (n =? 110)%N then Some (ascii_of_N 10)
  else if (n =? 114)%N then Some (ascii_of_N 13)
  else if (n =? 116)%N then Some (ascii_of_N 9)
  else None.

(** Reads a string literal after its opening quote: the text it denotes
    and what follows the closing quote. *)
Fixpoint parse_string (st : scan) (pending : option N) (s : string)
  : option (string * string) :=
  match s with
  | EmptyString => None
  | String c s' =>
      match st with
      | Plain =>
          if Ascii.eqb c dquote then Some (flush pending, s')
          else if Ascii.eqb c "\" then parse_string Escaped pending s'
          else if (N_of_ascii c <? 32)%N then None
          else emit (flush pending ++ String c "") (parse_string Plain None s')
      | Escaped =>
          if Ascii.eqb c "u" then parse_string (Unicode 4 0) pending s'
          else match simple_escape c with
               | Some x => emit (flush pending ++ String x "") (parse_string Plain None s')
               | None => None
               end
      | Unicode togo acc =>
          match hex_val c with
          | None => None
          | Some d =>
              let cu := (acc * 16 + d)%N in
              match togo with
              | S (S togo') => parse_string (Unicode (S togo') cu) pending s'
              | _ =>
                  if is_high_surrogate cu
                  then emit (flush pending) (parse_string Plain (Some cu) s')
                  else if is_low_surrogate cu
                  then match pending with
                       | Some hi =>
                           emit (Utf8.encode (65536 + (hi - 55296) * 1024 + (cu - 56320)))
                                (parse_string Plain None s')
                       | None => emit Utf8.replacement (parse_string Plain None s')
                       end
                  else emit (flush pending ++ Utf8.encode cu) (parse_string Plain None s')
              end
          end
      end
  end.

(** The rest of [s] after the character [c], when [s] starts with it. *)
Definition head_is (c : ascii) (s : string) : option string :=
  match s with
  | String d r => if Ascii.eqb d c then Some r else None
  | EmptyString => None
  end.

(** Whether a number literal ends where [rest] starts. *)
Definition number_end (rest : string) : bool :=
  match rest with
  | EmptyString => true
  | String c _ =>
      negb (is_digit c || Ascii.eqb c "." || Ascii.eqb c "e" || Ascii.eqb c "E")
  end.

(** [rest] does not go on with a digit. *)
Definition stops (rest : string) : Prop :=
  forall c r, rest = String c r -> is_digit c = false.

(** The integer part of a number literal, which has no leading zero. *)
Definition int_part (s : string) : option (Z * string) :=
  match s with
  | String c r =>
      if Ascii.eqb c "0" then Some (0, r)
      else if is_digit c then Some (read_digits 0 s)
      else None
  | EmptyString => None
  end.

(** The digits of an optional fraction part. *)
Definition frac_part (s : string) : option (string * string) :=
  match head_is "." s with
  | Some r =>
      match span_digits r with
      | (EmptyString, _) => None
      | (fd, r2) => Some (fd, r2)
      end
  | None => Some (EmptyString, s)
  end.

(** The value of an optional exponent part. *)
Definition exp_part (s : string) : option (Z * string) :=
  match s with
  | String c r =>
      if Ascii.eqb c "e" || Ascii.eqb c "E" then
        let (eneg, r') :=
          match r with
          | String "-" x => (true, x)
          | String "+" x => (false, x)
          | _ => (false, r)
          end in
        match span_digits r' with
        | (EmptyString, _) => None
        | (ed, r3) =>
            let e := fst (read_digits 0 ed) in
            Some (if eneg then - e else e, r3)
        end
      else Some (0, s)
  | EmptyString => Some (0, s)
  end.

(** A number literal: the value and the rest. *)
Definition parse_number (s : string) : option (value * string) :=
  let (neg, s1) :=
    match head_is "-" s with
    | Some r => (true, r)
    | None => (false, s)
    end in
  match int_part s1 with
  | None => None
  | Some (i, r1) =>
      match frac_part r1 with
      | None => None
      | Some (fd, r2) =>
          match exp_part r2 with
          | None => None
          | Some (e, r3) =>
              let m := fst (read_digits i fd) in
              Some (make_number (if neg then - m else m)
                                (Z.of_nat (String.length fd) - e), r3)
          end
      end
  end.

Definition literal (word : string) (v : value) (s : string)
  : option (value * string) :=
  match strip_prefix word s with
  | Some r => Some (v, r)
  | None => None
  end.

(** A value, the elements of an array after the first bracket, and the
    members of an object after the first brace; [fuel] bounds the number
    of nested calls, which never exceeds the length of the text. *)
Fixpoint parse_value (fuel : nat) (s : string) {struct fuel}
  : option (value * string) :=
  match fuel with
  | O => None
  | S fuel' =>
      match skip_ws s with
      | EmptyString => None
      | String c r =>
          if Ascii.eqb c "n" then literal "ull" JNull r
          else if Ascii.eqb c "t" then literal "rue" (JBool true) r
          else if Ascii.eqb c "f" then literal "alse" (JBool false) r
          else if Ascii.eqb c dquote then
            match parse_string Plain None r with
            | Some (str, r') => Some (JStr str, r')
            | None => None
            end
          else if Ascii.eqb c "[" then
            match head_is "]" (skip_ws r) with
            | Some r' => Some (JArr [], r')
            | None =>
                match parse_elements fuel' r with
                | Some (l, r') => Some (JArr l, r')
                | None => None
                end
            end
          else if Ascii.eqb c "{" then
            match head_is "}" (skip_ws r) with
            | Some r' => Some (JObj [], r')
            | None =>
                match parse_members fuel' r with
                | Some (l, r') => Some (JObj (obj_of_list l), r')
                | None => None
                end
            end
          else parse_number (String c r)
      end
  end
with parse_elements (fuel : nat) (s : string) {struct fuel}
  : option (list value * string) :=
  match fuel with
  | O => None
  | S fuel' =>
      match parse_value fuel' s with
      | None => None
      | Some (v, r) =>
          match skip_ws r with
          | String "," r' =>
              match parse_elements fuel' r' with
              | Some (l, r'') => Some (v :: l, r'')
              | None => None
              end
          | String "]" r' => Some ([v], r')
          | _ => None
          end
      end
  end
with parse_members (fuel : nat) (s : string) {struct fuel}
  : option (list (string * value) * string) :=
  match fuel with
  | O => None
  | S fuel' =>
      match skip_ws s with
      | String (Ascii false true false false false true false false) r =>
          match parse_string Plain None r with
          | None => None
          | Some (k, r1) =>
              match skip_ws r1 with
              | String ":" r2 =>
                  match parse_value fuel' r2 with
                  | None => None
                  | Some (v, r3) =>
                      match skip_ws r3 with
                      | String "," r4 =>
                          match parse_members fuel' r4 with
                          | Some (l, r5) => Some ((k, v) :: l, r5)
                          | None => None
                          end
                      | String "}" r4 => Some ([(k, v)], r4)
                      | _ => None
                      end
                  end
              | _ => None
              end
          end
      | _ => None
      end
  end.

(** [JSON.parse(text)]: one value with white space around it, or a
    [SyntaxError]. *)
Definition parse (text : string) : completion value :=
  match parse_value (S (String.length text)) text with
  | Some (v, rest) =>
      match skip_ws rest with
      | EmptyString => Return v
      | _ => Throw SyntaxError
      end
  | None => Throw SyntaxError
  end.

Fixpoint all_ws (s : string) : bool :=
  match s with
  | EmptyString => true
  | String c s' => is_ws c && all_ws s'
  end.

(** The number of nested calls that parsing the text of a value takes. *)
Fixpoint size (v : value) : nat :=
  match v with
  | JArr l =>
      S ((fix sum (l : list value) : nat :=
            match l with
            | [] => O
            | x :: r => (S (size x) + sum r)%nat
            end) l)
  | JObj o =>
      S ((fix sum (o : list (string * value)) : nat :=
            match o with
            | [] => O
            | (_, x) :: r => (S (size x) + sum r)%nat
            end) o)
  | _ => 1%nat
  end.

(** The values that [JSON.parse] can produce: a number is finite, a
    decimal [JDec m k] has no factor of ten left in [m], text is
    well-formed, and the properties of an object are in enumeration
    order. *)
Fixpoint serializable (v : value) : bool :=
  match v with
  | JNull | JBool _ => true
  | JNum _ => true
  | JDec m _ => negb (m mod 10 =? 0)
  | JStr s => Utf8.well_formed s
  | JArr l =>
      (fix all (l : list value) : bool :=
         match l with
         | [] => true
         | x :: r => serializable x && all r
         end) l
  | JObj o =>
      ordered o
      && (fix all (o : list (string * value)) : bool :=
            match o with
            | [] => true
            | (k, x) :: r => Utf8.well_formed k && serializable x && all r
            end) o
  | JNonFinite _ => false
  end.

(** The largest double, [(2^53 - 1) * 2^971]. *)
Definition max_double : Z := (2 ^ 53 - 1) * 2 ^ 971.

(** Whether every number of [v] lies within the range of the doubles, so
    that the platform, too, reads its text as a finite number. *)
Fixpoint in_range (v : value) : bool :=
  match v with
  | JNum z => Z.abs z <=? max_double
  | JDec m k => Z.abs m <=? max_double * 10 ^ Z.pos k
  | JArr l =>
      (fix all (l : list value) : bool :=
         match l with
         | [] => true
         | x :: r => in_range x && all r
         end) l
  | JObj o =>
      (fix all (o : list (string * value)) : bool :=
         match o with
         | [] => true
         | (_, x) :: r => in_range x && all r
         end) o
  | JNonFinite _ => false
  | _ => true
  end.

(** The values that a JSON text denotes on the platform. *)
Definition denotable (v : value) : bool := serializable v && in_range v.

(** The text of a member of an object. *)
Definition member_text (gap inner : string) (kv : string * value) : string :=
  quote (fst kv) ++ colon gap ++ serialize gap inner (snd kv).

Fixpoint sizes (l : list value) : nat :=
  match l with
  | [] => O
  | x :: r => (S (size x) + sizes r)%nat
  end.

(** The text of [v] with the given gap is parsed back wherever it
    stands, given fuel for its size. *)
Definition parses (gap : string) (v : value) : Prop :=
  serializable v = true ->
  forall (indent rest : string) (fuel : nat),
    all_ws indent = true -> (size v <= fuel)%nat -> number_end rest = true ->
    parse_value fuel (serialize gap indent v ++ rest) = Some (v, rest).

(** The first character of the text of a value. *)
Definition value_start (c : ascii) : bool :=
  is_digit c || Ascii.eqb c "-" || Ascii.eqb c "n" || Ascii.eqb c "t"
  || Ascii.eqb c "f" || Ascii.eqb c dquote || Ascii.eqb c "[" || Ascii.eqb c "{".

End Json.

(** ** The token helpers of the server *)

Module Token.

Import JS.

(** [Buffer.from(str).toString('base64').replace(/=/g, '')
      .replace(/\+/g, '-').replace(/\//g, '_')]. *)
Definition base64urlEncode (str : string) : string :=
  Text.replace_all "/" "_"
    (Text.replace_all "+" "-" (Text.remove_all "=" (Base64.encode str))).

(** [while (str.length % 4) str += '=']; the loop body runs three times
    at most. *)
Fixpoint pad_loop (fuel : nat) (str : string) : string :=
  match fuel with
  | O => str
  | S fuel' =>
      if (String.length str mod 4 =? 0)%nat then str
      else pad_loop fuel' (str ++ "=")
  end.

Definition base64urlDecode (str : string) : string :=
  let str := Text.replace_all "_" "/" (Text.replace_all "-" "+" str) in
  let str := pad_loop 3 str in
  Utf8.decode (Base64.decode str).

(** [digest('base64')] made URL-safe, as both functions do in line. *)
Definition sign (secret data : string) : string :=
  let signature := hmac_sha256_base64 secret data in
  Text.replace_all "/" "_"
    (Text.replace_all "+" "-" (Text.remove_all "=" signature)).

Definition header : value :=
  JObj (obj_of_list [("alg", JStr "HS256"); ("typ", JStr "JWT")]).

Fixpoint indexed {A : Type} (mk : A -> value) (i : Z) (l : list A)
  : list (string * value) :=
  match l with
  | [] => []
  | x :: r => (int_to_string i, mk x) :: indexed mk (i + 1) r
  end.

(** [{ ...v }]: the own enumerable properties of [v], which an array or
    a string has one of per index. *)
Definition spread (v : value) : object :=
  match v with
  | JObj o => obj_of_list o
  | JArr l => obj_of_list (indexed (fun x => x) 0 l)
  | JStr s =>
      obj_of_list (indexed (fun c => JStr (String c "")) 0 (list_ascii_of_string s))
  | _ => []
  end.

(** [Math.floor(Date.now() / 1000)], from the clock in milliseconds. *)
Definition seconds (now_ms : Z) : Z := now_ms / 1000.

(** [payload.exp || issuedAt + 60 * 60]. *)
Definition expiry_of (exp : option value) (issuedAt : Z) : value :=
  match exp with
  | Some e => if truthy exp then e else JNum (issuedAt + 60 * 60)
  | None => JNum (issuedAt + 60 * 60)
  end.

(** [{ ...payload, iat: issuedAt, exp: expiry }]. *)
Definition token_payload (payload : value) (issuedAt : Z) (expiry : value)
  : value :=
  JObj (obj_set "exp" expiry (obj_set "iat" (JNum issuedAt) (spread payload))).

Definition generateToken (JWT_SECRET : string) (now_ms : Z) (payload : value)
  : completion string :=
  let issuedAt := seconds now_ms in
  bind (get_prop payload "exp") (fun exp =>
  let expiry := expiry_of exp issuedAt in
  let tokenPayload := token_payload payload issuedAt expiry in
  let headerEncoded := base64urlEncode (Json.stringify header) in
  let payloadEncoded := base64urlEncode (Json.stringify tokenPayload) in
  let data := headerEncoded ++ "." ++ payloadEncoded in
  let signatureEncoded := sign JWT_SECRET data in
  Return (data ++ "." ++ signatureEncoded)).

(** [payload.exp && now > payload.exp]. *)
Definition expired (now : Z) (exp : option value) : completion bool :=
  if truthy exp then number_gt now exp else Return false.

(** The body of the [try] block of [verifyToken]. *)
Definition decode_payload (now_ms : Z) (payloadEncoded : string)
  : completion value :=
  let payloadJson := base64urlDecode payloadEncoded in
  bind (Json.parse payloadJson) (fun payload =>
  let now := seconds now_ms in
  bind (get_prop payload "exp") (fun exp =>
  bind (expired now exp) (fun late =>
  if late then Return JNull else Return payload))).

(** [null] is the one result for every token that is not accepted. *)
Definition verifyToken (JWT_SECRET : string) (now_ms : Z) (token : string)
  : completion value :=
  match Text.split "." token with
  | [headerEncoded; payloadEncoded; signature] =>
      let data := headerEncoded ++ "." ++ payloadEncoded in
      let expectedEncoded := sign JWT_SECRET data in
      if negb (String.eqb expectedEncoded signature) then Return JNull
      else try_catch (decode_payload now_ms payloadEncoded)
                     (fun _ => Return JNull)
  | _ => Return JNull
  end.

(** A character that a URL takes as it is: a letter, a digit, [-] or
    [_]. *)
Definition url_safe (c : ascii) : bool :=
  let n := N_of_ascii c in
  ((65 <=? n)%N && (n <=? 90)%N) || ((97 <=? n)%N && (n <=? 122)%N)
  || ((48 <=? n)%N && (n <=? 57)%N) || Ascii.eqb c "-" || Ascii.eqb c "_".

End Token.

(** ** The file system and the JSON stores *)

Module Store.

Import JS.

(** What a path names: nothing, something that can be neither read nor
    written (a directory, a file without permission), or a file. *)
Inductive node : Type :=
| Missing
| Locked
| Regular (data : string).

Definition fs : Type := string -> node.

(** Code that reads and writes files and may throw. *)
Definition io (A : Type) : Type := fs -> completion A * fs.

Definition ret {A : Type} (a : A) : io A := fun st => (Return a, st).

Definition throw {A : Type} (e : error) : io A := fun st => (Throw e, st).

Definition lift {A : Type} (c : completion A) : io A := fun st => (c, st).

Definition bind_io {A B : Type} (m : io A) (k : A -> io B) : io B :=
  fun st =>
    match m st with
    | (Return a, st') => k a st'
    | (Throw e, st') => (Throw e, st')
    end.

(** [try { body } catch (err) { handler }]. *)
Definition try_io {A : Type} (body : io A) (handler : error -> io A) : io A :=
  fun st =>
    match body st with
    | (Return a, st') => (Return a, st')
    | (Throw e, st') => handler e st'
    end.

Notation "x <- m ;; k" := (bind_io m (fun x => k))
  (at level 61, m at next level, right associativity).

Definition write (path data : string) (st : fs) : fs :=
  fun p => if String.eqb p path then Regular data else st p.

(** [fs.readFileSync(path, 'utf8')]: the bytes of the file, decoded. *)
Definition readFileSync (path : string) : io string :=
  fun st =>
    match st path with
    | Regular data => (Return (Utf8.decode data), st)
    | _ => (Throw SystemError, st)
    end.

(** [fs.writeFileSync(path, data)]: the file is created or overwritten
    in full. *)
Definition writeFileSync (path data : string) : io unit :=
  fun st =>
    match st path with
    | Locked => (Throw SystemError, st)
    | _ => (Return tt, write path data st)
    end.

Definition servicesFile : string := "services.json".
Definition usersFile : string := "users.json".

Definition getServices : io value :=
  try_io (data <- readFileSync servicesFile ;; lift (Json.parse data))
         (fun _ => ret (JArr [])).

Definition saveServices (services : value) : io unit :=
  writeFileSync servicesFile (Json.stringify_indented services).

Definition getUsers : io value :=
  try_io (data <- readFileSync usersFile ;; lift (Json.parse data))
         (fun _ => ret (JArr [])).

Definition saveUsers (users : value) : io unit :=
  writeFileSync usersFile (Json.stringify_indented users).

(** The backing file is missing, cannot be read, or holds text that is
    not JSON. *)
Definition unusable (path : string) (st : fs) : Prop :=
  st path = Missing
  \/ st path = Locked
  \/ exists data e,
       st path = Regular data /\ Json.parse (Utf8.decode data) = Throw e.

(** The files of [st'] are those of [st], except for the [paths]. *)
Definition same_except (paths : list string) (st st' : fs) : Prop :=
  forall p, ~ In p paths -> st' p = st p.

(** The code writes no file but the [paths], whether it returns or
    throws. *)
Definition writes_only {A : Type} (paths : list string) (m : io A) : Prop :=
  forall st, same_except paths st (snd (m st)).

End Store.

(** ** The request handlers *)

Module Server.

Import JS Store.

Record response : Type := Response {
  status : Z;
  content_type : option string;
  body : string
}.

(** [res.writeHead(status, { 'Content-Type': 'application/json' });
    res.end(JSON.stringify(v))]. *)
Definition respond (status : Z) (v : value) : response :=
  Response status (Some "application/json") (Json.stringify v).

Definition error_body (message : string) : value :=
  JObj (obj_of_list [("error", JStr message)]).

Definition message_body (message : string) : value :=
  JObj (obj_of_list [("message", JStr message)]).

(** [arr.some(pred)] and [arr.findIndex(pred)]; a value that is no array
    has no such method and the call throws. *)
Fixpoint some_of (pred : value -> completion bool) (l : list value)
  : completion bool :=
  match l with
  | [] => Return false
  | x :: r => bind (pred x) (fun b => if b then Return true else some_of pred r)
  end.

Definition array_some (pred : value -> completion bool) (arr : value)
  : completion bool :=
  match arr with
  | JArr l => some_of pred l
  | _ => Throw TypeError
  end.

Fixpoint find_index (pred : value -> completion bool) (i : nat) (l : list value)
  : completion (option nat) :=
  match l with
  | [] => Return None
  | x :: r =>
      bind (pred x) (fun b => if b then Return (Some i) else find_index pred (S i) r)
  end.

Definition array_find_index (pred : value -> completion bool) (arr : value)
  : completion (option nat) :=
  match arr with
  | JArr l => find_index pred 0 l
  | _ => Throw TypeError
  end.

(** [arr.push(x)]. *)
Definition array_push (arr x : value) : completion value :=
  match arr with
  | JArr l => Return (JArr (l ++ [x]))
  | _ => Throw TypeError
  end.

Fixpoint list_set {A : Type} (i : nat) (x : A) (l : list A) : list A :=
  match l, i with
  | [], _ => []
  | _ :: r, O => x :: r
  | y :: r, S i' => y :: list_set i' x r
  end.

(** [arr[index] = x] for an index within the array. *)
Definition array_set (arr : value) (index : nat) (x : value) : value :=
  match arr with
  | JArr l => JArr (list_set index x l)
  | _ => arr
  end.

(** [crypto.createHash('sha256').update(password).digest('hex')]; [update]
    takes a string and throws on any other value of the model. *)
Definition hash_password (password : option value) : completion string :=
  match password with
  | Some (JStr s) => Return (sha256_hex s)
  | _ => Throw TypeError
  end.

(** A record of a collection is an object. *)
Definition is_record (v : value) : Prop := exists o, v = JObj o.

Definition or_null (v : option value) : value :=
  match v with
  | Some x => x
  | None => JNull
  end.

(** [POST /register], the handler of the request's [end] event. *)
Definition register (body : string) : io response :=
  try_io
    (parsed <- lift (Json.parse body) ;;
     username <- lift (get_prop parsed "username") ;;
     password <- lift (get_prop parsed "password") ;;
     if negb (truthy username) || negb (truthy password)
     then ret (respond 400 (error_body "Username and password are required"))
     else
       users <- getUsers ;;
       taken <- lift (array_some
                        (fun u => bind (get_prop u "username")
                                       (fun x => Return (strict_eq x username)))
                        users) ;;
       if taken
       then ret (respond 409 (error_body "User already exists"))
       else
         passwordHash <- lift (hash_password password) ;;
         users' <- lift (array_push users
                           (JObj (obj_of_list
                              [("username", or_null username);
                               ("passwordHash", JStr passwordHash)]))) ;;
         _ <- saveUsers users' ;;
         ret (respond 201 (message_body "User registered")))
    (fun _ => ret (respond 400 (error_body "Invalid JSON"))).

(** The bearer token of the [Authorization] header, verified: [req.user]. *)
Definition req_user (JWT_SECRET : string) (now_ms : Z)
  (authHeader : option string) : completion (option value) :=
  match authHeader with
  | Some h =>
      match Json.strip_prefix "Bearer " h with
      | Some token =>
          bind (Token.verifyToken JWT_SECRET now_ms token) (fun authPayload =>
          Return (if truthy (Some authPayload) then Some authPayload else None))
      | None => Return None
      end
  | None => Return None
  end.

Definition unauthorized : response := respond 401 (error_body "Unauthorized").

(** [POST /services]; [now_ms] is what [Date.now()] returns. *)
Definition create_service (user : option value) (now_ms : Z) (body : string)
  : io response :=
  if negb (truthy user) then ret unauthorized
  else
    try_io
      (newService <- lift (Json.parse body) ;;
       newService <- lift (set_prop newService "id" (JNum now_ms)) ;;
       services <- getServices ;;
       services <- lift (array_push services newService) ;;
       _ <- saveServices services ;;
       ret (respond 201 newService))
      (fun _ => ret (respond 400 (error_body "Invalid JSON"))).

(** [Number(pathname.split('/')[2])]. *)
Definition path_id (pathname : string) : number :=
  match nth_error (Text.split "/" pathname) 2 with
  | Some idStr => string_to_number idStr
  | None => NNaN
  end.

(** [PUT /services/:id]. *)
Definition update_service (user : option value) (pathname body : string)
  : io response :=
  if negb (truthy user) then ret unauthorized
  else
    let id := path_id pathname in
    try_io
      (updatedService <- lift (Json.parse body) ;;
       services <- getServices ;;
       index <- lift (array_find_index
                        (fun s => bind (get_prop s "id")
                                       (fun x => Return (strict_eq_number x id)))
                        services) ;;
       match index with
       | None => ret (respond 404 (error_body "Service not found"))
       | Some index =>
           updatedService <- lift (set_prop updatedService "id"
                                            (value_of_number id)) ;;
           _ <- saveServices (array_set services index updatedService) ;;
           ret (respond 200 updatedService)
       end)
      (fun _ => ret (respond 400 (error_body "Invalid JSON"))).

(** [arr.find(pred)]. *)
Fixpoint find_first (pred : value -> completion bool) (l : list value)
  : completion (option value) :=
  match l with
  | [] => Return None
  | x :: r =>
      bind (pred x) (fun b => if b then Return (Some x) else find_first pred r)
  end.

Definition array_find (pred : value -> completion bool) (arr : value)
  : completion (option value) :=
  match arr with
  | JArr l => find_first pred l
  | _ => Throw TypeError
  end.

Fixpoint remove_at {A : Type} (i : nat) (l : list A) : list A :=
  match l, i with
  | [], _ => []
  | _ :: r, O => r
  | x :: r, S i' => x :: remove_at i' r
  end.

(** [arr.splice(index, 1)] for an index within the array. *)
Definition array_splice (arr : value) (index : nat) : value :=
  match arr with
  | JArr l => JArr (remove_at index l)
  | _ => arr
  end.

(** [res.writeHead(204); res.end()]. *)
Definition no_content : response := Response 204 None "".

(** [res.writeHead(status, { 'Content-Type': 'text/plain' }); res.end(text)]. *)
Definition plain (status : Z) (text : string) : response :=
  Response status (Some "text/plain") text.

(** [u => u.username === username] and [s => s.id === id]. *)
Definition has_username (username : option value) (u : value)
  : completion bool :=
  bind (get_prop u "username") (fun x => Return (strict_eq x username)).

Definition has_id (id : number) (s : value) : completion bool :=
  bind (get_prop s "id") (fun x => Return (strict_eq_number x id)).

(** [POST /login], the handler of the request's [end] event; [now_ms] is
    what [Date.now()] returns in [generateToken]. *)
Definition login (JWT_SECRET : string) (now_ms : Z) (body : string)
  : io response :=
  try_io
    (parsed <- lift (Json.parse body) ;;
     username <- lift (get_prop parsed "username") ;;
     password <- lift (get_prop parsed "password") ;;
     if negb (truthy username) || negb (truthy password)
     then ret (respond 400 (error_body "Username and password are required"))
     else
       users <- getUsers ;;
       user <- lift (array_find (has_username username) users) ;;
       if negb (truthy user)
       then ret (respond 401 (error_body "Invalid credentials"))
       else
         passwordHash <- lift (hash_password password) ;;
         stored <- lift (get_prop (or_null user) "passwordHash") ;;
         if strict_eq stored (Some (JStr passwordHash))
         then
           token <- lift (Token.generateToken JWT_SECRET now_ms
                            (JObj (obj_of_list [("username", or_null username)]))) ;;
           ret (respond 200
                  (JObj (obj_of_list [("message", JStr "Login successful");
                                      ("token", JStr token)])))
         else ret (respond 401 (error_body "Invalid credentials")))
    (fun _ => ret (respond 400 (error_body "Invalid JSON"))).

(** [GET /services/:id]; no [try] surrounds it. *)
Definition get_service (user : option value) (pathname : string)
  : io response :=
  if negb (truthy user) then ret unauthorized
  else
    let id := path_id pathname in
    services <- getServices ;;
    svc <- lift (array_find (has_id id) services) ;;
    if truthy svc then ret (respond 200 (or_null svc))
    else ret (respond 404 (error_body "Service not found")).

(** [GET /services]. *)
Definition list_services (user : option value) : io response :=
  if negb (truthy user) then ret unauthorized
  else
    services <- getServices ;;
    ret (respond 200 services).

(** [DELETE /services/:id]; no [try] surrounds it. *)
Definition delete_service (user : option value) (pathname : string)
  : io response :=
  if negb (truthy user) then ret unauthorized
  else
    let id := path_id pathname in
    services <- getServices ;;
    index <- lift (array_find_index (has_id id) services) ;;
    match index with
    | None => ret (respond 404 (error_body "Service not found"))
    | Some index =>
        _ <- saveServices (array_splice services index) ;;
        ret no_content
    end.

(** [GET /]: the page of the front end, or a greeting when it cannot be
    read. *)
Definition indexPath : string := "../frontend/index.html".

Definition root_page : io response :=
  fun st =>
    match st indexPath with
    | Regular data => (Return (Response 200 (Some "text/html") data), st)
    | _ => (Return (plain 200 "Welcome to the Pool Service Platform!"), st)
    end.

(** The headers that [setCorsHeaders] sets on every response. *)
Definition setCorsHeaders : list (string * string) :=
  [("Access-Control-Allow-Origin", "*");
   ("Access-Control-Allow-Methods", "GET,POST,PUT,DELETE,OPTIONS");
   ("Access-Control-Allow-Headers", "Content-Type, Authorization")].

(** A request: its method, its URL as received, the [pathname] that
    [url.parse] finds in the URL, the [Authorization] header and the body
    that the [data] events deliver. *)
Record request : Type := Request {
  method : string;
  url : string;
  pathname : string;
  authorization : option string;
  content : string
}.

Definition logFile : string := "server.log".

(** [fs.appendFile(path, data, callback)]: the file grows by [data], or is
    created; a failure is handed to the callback. *)
Definition appendFile (path data : string) (st : fs) : fs :=
  match st path with
  | Regular old => write path (old ++ data) st
  | Missing => write path data st
  | Locked => st
  end.

(** [logRequest(req)]; [stamp] is what [new Date().toISOString()]
    returns.  A failure is printed and otherwise ignored. *)
Definition logRequest (stamp : string) (req : request) (st : fs) : fs :=
  appendFile logFile
    (stamp ++ " " ++ method req ++ " " ++ url req ++ Json.newline) st.

Definition starts_with (prefix s : string) : bool :=
  match Json.strip_prefix prefix s with
  | Some _ => true
  | None => false
  end.

(** The routes of the request listener, in the order in which it tries
    them, after the bearer token was looked at. *)
Definition route (JWT_SECRET : string) (now_ms : Z) (user : option value)
  (req : request) : io response :=
  let exactly (m p : string) :=
    String.eqb (method req) m && String.eqb (pathname req) p in
  let under (m p : string) :=
    String.eqb (method req) m && starts_with p (pathname req) in
  if exactly "POST" "/register" then register (content req)
  else if exactly "POST" "/login" then login JWT_SECRET now_ms (content req)
  else if exactly "GET" "/" then root_page
  else if exactly "GET" "/status"
  then ret (respond 200 (JObj (obj_of_list [("status", JStr "ok")])))
  else if under "GET" "/services/" then get_service user (pathname req)
  else if exactly "GET" "/services" then list_services user
  else if exactly "POST" "/services" then create_service user now_ms (content req)
  else if under "PUT" "/services/"
  then update_service user (pathname req) (content req)
  else if under "DELETE" "/services/" then delete_service user (pathname req)
  else ret (plain 404 "Not Found").

(** The request listener.  [now_auth] is the clock when the token is
    verified and [now_end] the clock when the body has arrived.  The
    response carries the headers of [setCorsHeaders] besides. *)
Definition handle (JWT_SECRET stamp : string) (now_auth now_end : Z)
  (req : request) : io response :=
  fun st =>
    let st := logRequest stamp req st in
    if String.eqb (method req) "OPTIONS" then (Return no_content, st)
    else
      (user <- lift (req_user JWT_SECRET now_auth (authorization req)) ;;
       route JWT_SECRET now_end user req) st.

(** The body of a request carries a user name and a password, both text
    that is not empty. *)
Definition credentials (body : string) (name pw : string) : Prop :=
  exists parsed,
    Json.parse body = Return parsed
    /\ get_prop parsed "username" = Return (Some (JStr name)) /\ name <> ""
    /\ get_prop parsed "password" = Return (Some (JStr pw)) /\ pw <> "".

(** The record that [register] stores for a user. *)
Definition user_record (name pw : string) : value :=
  JObj [("username", JStr name); ("passwordHash", JStr (sha256_hex pw))].

(** The claims of the token that [login] issues at [now_ms]. *)
Definition login_claims (name : string) (now_ms : Z) : value :=
  JObj [("username", JStr name); ("iat", JNum (Token.seconds now_ms));
        ("exp", JNum (Token.seconds now_ms + 3600))].

Definition invalid_credentials : response :=
  respond 401 (error_body "Invalid credentials").

Definition not_found : response := respond 404 (error_body "Service not found").

(** The routes under [/services]. *)
Definition services_route (req : request) : bool :=
  let p := pathname req in
  let m := method req in
  (String.eqb m "GET" && (starts_with "/services/" p || String.eqb p "/services"))
  || (String.eqb m "POST" && String.eqb p "/services")
  || ((String.eqb m "PUT" || String.eqb m "DELETE") && starts_with "/services/" p).

(** The request carries no bearer token that [verifyToken] accepts as a
    user: no [Authorization] header, one that does not start with
    [Bearer ], or a token for which [verifyToken] returns a falsy
    value. *)
Definition unauthenticated (JWT_SECRET : string) (now_ms : Z) (req : request)
  : Prop :=
  authorization req = None
  \/ (exists h, authorization req = Some h /\ starts_with "Bearer " h = false)
  \/ (exists token v,
        authorization req = Some ("Bearer " ++ token)
        /\ Token.verifyToken JWT_SECRET now_ms token = Return v
        /\ truthy (Some v) = false).

(** The line that [logRequest] writes. *)
Definition log_line (stamp : string) (req : request) : string :=
  stamp ++ " " ++ method req ++ " " ++ url req ++ Json.newline.

End Server.

(** ** Configuration: the [.env] file and the environment *)

Module Env.

Import Store.

(** The code points that [String.prototype.trim] takes away: the white
    space and the line terminators of ECMAScript. *)
Definition white_space : list N :=
  [9; 10; 11; 12; 13; 32; 160; 5760; 8192; 8193; 8194; 8195; 8196; 8197;
   8198; 8199; 8200; 8201; 8202; 8232; 8233; 8239; 8287; 12288; 65279]%N.

Definition reverse (s : string) : string := JS.rev_string s "".

(** The rest of [s] after the first of the [prefixes] that it starts
    with. *)
Fixpoint strip_any (prefixes : list string) (s : string) : option string :=
  match prefixes with
  | [] => None
  | p :: ps =>
      match Json.strip_prefix p s with
      | Some r => Some r
      | None => strip_any ps s
      end
  end.

Fixpoint strip_all (prefixes : list string) (fuel : nat) (s : string) : string :=
  match fuel with
  | O => s
  | S fuel' =>
      match strip_any prefixes s with
      | Some r => strip_all prefixes fuel' r
      | None => s
      end
  end.

Definition trim_start (s : string) : string :=
  strip_all (map Utf8.encode white_space) (String.length s) s.

Definition trim_end (s : string) : string :=
  reverse (strip_all (map (fun cp => reverse (Utf8.encode cp)) white_space)
             (String.length s) (reverse s)).

(** [s.trim()] on the UTF-8 bytes of the text. *)
Definition trim (s : string) : string := trim_end (trim_start s).

Definition cr : ascii := ascii_of_N 13.
Definition lf : ascii := ascii_of_N 10.

(** [s.split(/\r?\n/)]. *)
Fixpoint split_lines (s : string) : list string :=
  match s with
  | EmptyString => [EmptyString]
  | String c r =>
      if Ascii.eqb c lf then EmptyString :: split_lines r
      else
        let keep :=
          match split_lines r with
          | hd :: tl => String c hd :: tl
          | [] => [String c EmptyString]
          end in
        match r with
        | String d r' =>
            if Ascii.eqb c cr && Ascii.eqb d lf
            then EmptyString :: split_lines r'
            else keep
        | EmptyString => keep
        end
  end.

(** [process.env]: the variables by name. *)
Definition env : Type := string -> option string.

(** The names that [process.env] inherits from [Object.prototype]; a
    look-up of one that is no variable finds the inherited property. *)
Definition inherited : list string :=
  ["constructor"; "__defineGetter__"; "__defineSetter__"; "hasOwnProperty";
   "__lookupGetter__"; "__lookupSetter__"; "isPrototypeOf";
   "propertyIsEnumerable"; "toString"; "valueOf"; "__proto__";
   "toLocaleString"].

(** [process.env[key]] as a condition: a variable that is not empty, or
    an inherited property. *)
Definition defined (key : string) (e : env) : bool :=
  match e key with
  | Some v => negb (String.eqb v "")
  | None => existsb (String.eqb key) inherited
  end.

(** [process.env[key] = value]. *)
Definition set (key value : string) (e : env) : env :=
  fun k => if String.eqb k key then Some value else e k.

(** The callback of [lines.forEach]. *)
Definition load_line (e : env) (line : string) : env :=
  let trimmed := trim line in
  if String.eqb trimmed "" || Server.starts_with "#" trimmed then e
  else
    match Text.split "=" trimmed with
    | key :: vals =>
        if String.eqb key "" then e
        else
          let value := Json.join "=" vals in
          if negb (defined key e) then set key value e else e
    | [] => e
    end.

Definition envPath : string := "../.env".

(** The loading of the [.env] file when the server starts: a file that
    does not exist is passed over, and so is one that cannot be read,
    with a message. *)
Definition load_env (st : fs) (e : env) : env :=
  match st envPath with
  | Regular data => fold_left load_line (split_lines (Utf8.decode data)) e
  | _ => e
  end.

(** [process.env.JWT_SECRET || 'change_this_secret']. *)
Definition JWT_SECRET (e : env) : string :=
  match e "JWT_SECRET" with
  | Some v => if String.eqb v "" then "change_this_secret" else v
  | None => "change_this_secret"
  end.

(** [process.env.PORT || 3000]. *)
Definition port (e : env) : JS.value :=
  match e "PORT" with
  | Some v => if String.eqb v "" then JS.JNum 3000 else JS.JStr v
  | None => JS.JNum 3000
  end.

(** The variables that the lines of a file define, in the words of the
    file format: a line [KEY=value], with blank lines and lines that
    start with [#] left out. *)
Definition entry (line : string) : option (string * string) :=
  let trimmed := trim line in
  match Text.split "=" trimmed with
  | key :: vals =>
      if String.eqb trimmed "" || Server.starts_with "#" trimmed
         || String.eqb key ""
      then None
      else Some (key, Json.join "=" vals)
  | [] => None
  end.

(** The entries of the lines of a file, in their order. *)
Fixpoint entries (lines : list string) : list (string * string) :=
  match lines with
  | [] => []
  | line :: rest =>
      match entry line with
      | Some kv => kv :: entries rest
      | None => entries rest
      end
  end.

(** The value that a file gives a variable: the first one that is not
    empty among its entries for the name, the empty text when all are
    empty, none when there is no entry. *)
Fixpoint value_of (key : string) (l : list (string * string)) : option string :=
  match l with
  | [] => None
  | (k, v) :: r =>
      if String.eqb k key then
        if String.eqb v "" then
          match value_of key r with
          | Some v' => Some v'
          | None => Some ""
          end
        else Some v
      else value_of key r
  end.

(** The entries of the [.env] file, none when the file cannot be read. *)
Definition file_entries (st : fs) : list (string * string) :=
  match st envPath with
  | Regular data => entries (split_lines (Utf8.decode data))
  | _ => []
  end.

(** A character that [trim] leaves alone wherever it stands: ASCII,
    printed, and no space. *)
Definition visible (c : ascii) : bool :=
  let n := N_of_ascii c in (32 <? n)%N && (n <? 127)%N.

End Env.

(** ** The acceptance condition in the words of the specification *)

Module Spec.

Import JS.

(** "returns the decoded claim map only if (a) the string splits into
    exactly three dot-separated segments, (b) recomputing the HMAC-SHA256
    over header and payload with the secret and re-encoding it URL-safely
    yields a byte-for-byte match with the third segment, (c) the middle
    segment decodes to valid JSON, and (d) either no [exp] claim is
    present or current time <= [exp]." *)
Definition accepts (secret : string) (now_ms : Z) (token : string)
  (claims : value) : Prop :=
  exists h p s,
    Text.split "." token = [h; p; s]
    /\ Token.sign secret (h ++ "." ++ p) = s
    /\ Json.parse (Token.base64urlDecode p) = Return claims
    /\ (get_prop claims "exp" = Return None
        \/ exists e, get_prop claims "exp" = Return (Some (JNum e))
                     /\ Token.seconds now_ms <= e).

End Spec.

(** ** Sample data *)

Module Samples.

Import JS.

Definition secret : string := "change_this_secret".

Definition header64 : string := "eyJhbGciOiJIUzI1NiIsInR5cCI6IkpXVCJ9".

(** The token of [{"username":"alice","iat":1700000000,"exp":1700003600}]. *)
Definition alice_payload64 : string :=
  "eyJ1c2VybmFtZSI6ImFsaWNlIiwiaWF0IjoxNzAwMDAwMDAwLCJleHAiOjE3MDAwMDM2MDB9".
Definition alice_signature : string :=
  "AOkamPALicy7UYg1qr_kP2XvSWuCeEhzttxYLpqQyAk".
Definition alice_token : string :=
  header64 ++ "." ++ alice_payload64 ++ "." ++ alice_signature.
Definition alice_claims : value :=
  JObj [("username", JStr "alice"); ("iat", JNum 1700000000);
        ("exp", JNum 1700003600)].

(** The same token with the last character of its signature altered. *)
Definition damaged_signature : string :=
  "AOkamPALicy7UYg1qr_kP2XvSWuCeEhzttxYLpqQyAA".
Definition damaged_token : string :=
  header64 ++ "." ++ alice_payload64 ++ "." ++ damaged_signature.

(** The token of [{"exp":0}], correctly signed. *)
Definition exp0_payload64 : string := "eyJleHAiOjB9".
Definition exp0_signature : string :=
  "l6fgUpm_eftxqh7QW55wMC9gFtgm1H3C682k77bHJrk".
Definition exp0_token : string :=
  header64 ++ "." ++ exp0_payload64 ++ "." ++ exp0_signature.

(** The token that [generateToken] issues for [{"exp":0}] at
    1700000000123 ms. *)
Definition issued_for_exp0 : string :=
  header64 ++ "."
    ++ "eyJleHAiOjE3MDAwMDM2MDAsImlhdCI6MTcwMDAwMDAwMH0" ++ "."
    ++ "KjhERc_dGqWd1L1k7_2A3JhB8yu1M4-SorqLHMsVT2w".

(** A users file with one user, and a request to register the same
    name again. *)
Definition alice_record : value :=
  JObj [("username", JStr "alice"); ("passwordHash", JStr (sha256_hex "pw1"))].

Definition users_file : string := Json.stringify_indented (JArr [alice_record]).

Definition register_again : string :=
  Json.stringify (JObj [("username", JStr "alice"); ("password", JStr "pw2")]).

Definition disk_with_alice : Store.fs :=
  fun path =>
    if String.eqb path Store.usersFile then Store.Regular users_file
    else Store.Missing.

(** A services file with one record, a request body to create another
    and one to update it; both bodies carry an [id] of their own. *)
Definition clean_record : value :=
  JObj [("service", JStr "Clean"); ("date", JStr "2024-01-01");
        ("id", JNum 1704067200000)].

Definition services_file : string := Json.stringify_indented (JArr [clean_record]).

Definition disk_with_service : Store.fs :=
  fun path =>
    if String.eqb path Store.servicesFile then Store.Regular services_file
    else Store.Missing.

Definition create_fields : JS.object :=
  [("service", JStr "Vacuum"); ("id", JNum 7)].

Definition update_fields : JS.object :=
  [("service", JStr "Brush"); ("id", JNum 5)].

(** A record with a price that is not finite, which is what the
    platform's [JSON.parse] makes of the literal [1e400] in a request
    body, the disk after the record was stored, and the record as it is
    read back. *)
Definition unbounded_record : value :=
  JObj [("service", JStr "Clean"); ("price", JNonFinite PosInfinity)].

Definition disk_with_unbounded : Store.fs :=
  Store.write Store.servicesFile
    (Json.stringify_indented (JArr [unbounded_record])) (fun _ => Store.Missing).

Definition unbounded_restored : value :=
  JObj [("service", JStr "Clean"); ("price", JNull)].

(** A [.env] file that starts with a byte order mark and has a comment,
    Windows line ends and a blank line, and an environment that sets
    [HOME]. *)
Definition env_file : string :=
  Utf8.encode 65279 ++ "# secrets" ++ String Env.cr (String Env.lf "")
    ++ "JWT_SECRET=s3=cr=et" ++ String Env.cr (String Env.lf "")
    ++ String Env.lf ""
    ++ "HOME=/tmp" ++ String Env.lf ""
    ++ "JWT_SECRET=later" ++ String Env.lf "".

Definition disk_with_env : Store.fs :=
  fun path =>
    if String.eqb path Env.envPath then Store.Regular env_file
    else Store.Missing.

Definition environment : Env.env :=
  fun key => if String.eqb key "HOME" then Some "/root" else None.

End Samples.

(** * Properties *)

Import JS.

Arguments hmac_sha256_base64 : simpl never.
Arguments Token.sign : simpl never.
Arguments Token.base64urlDecode : simpl never.
Arguments Json.parse : simpl never.

Ltac by_computation := vm_compute; reflexivity.

(** ** The model evaluated

    Values that Node.js computes, computed by the model. *)

Example sha256_abc :
  sha256_hex "abc"
  = "ba7816bf8f01cfea414140de5dae2223b00361a396177a9cb410ff61f20015ad".
Proof. by_computation. Qed.

Example sha256_password :
  Server.hash_password (Some (JStr "pw1"))
  = Return "c592df4a86933b92addc9842402ddf198c638ea9be58916ee6e3734e1e3152f8".
Proof. by_computation. Qed.

Example hmac_sample :
  hmac_sha256_base64 "Jefe" "what do ya want for nothing?"
  = "W9zBRr9gdU5qBCQmCJV1x1oAPwidJzmDnexYuWTsOEM=".
Proof. by_computation. Qed.

Example base64_encoded : Base64.encode "hello world!?" = "aGVsbG8gd29ybGQhPw==".
Proof. by_computation. Qed.

(** [Buffer.from(s, 'base64')] passes over a space and needs no padding. *)
Example base64_decoded : Base64.decode "aGVs bG8gd29ybGQhP" = "hello world!".
Proof. by_computation. Qed.

Example header_encoded :
  Token.base64urlEncode (Json.stringify Token.header) = Samples.header64.
Proof. by_computation. Qed.

Example token_issued :
  Token.generateToken Samples.secret 1700000000123
    (JObj [("username", JStr "alice")])
  = Return Samples.alice_token.
Proof. by_computation. Qed.

Example integers_printed :
  map int_to_string
    [0; -42; 1516239022; 100000000000000000000; 1000000000000000000000;
     1234500000000000000000000]
  = ["0"; "-42"; "1516239022"; "100000000000000000000"; "1e+21"; "1.2345e+24"].
Proof. by_computation. Qed.

Example decimals_printed :
  [dec_to_string 15 1; dec_to_string (-5) 1; dec_to_string 1 6;
   dec_to_string 1 7; dec_to_string 12345 2; dec_to_string 123 9]
  = ["1.5"; "-0.5"; "0.000001"; "1e-7"; "123.45"; "1.23e-7"].
Proof. by_computation. Qed.

Example texts_parsed :
  map Json.parse
    ["1.50"; "-0.5e1"; "1E+2"; "01"; "1."; ".5"; "-"; "1e-7";
     " [1, 2.5 ,true] "; "[1,]"; "nul"]
  = [Return (JDec 15 1); Return (JNum (-5)); Return (JNum 100);
     Throw SyntaxError; Throw SyntaxError; Throw SyntaxError;
     Throw SyntaxError; Return (JDec 1 7);
     Return (JArr [JNum 1; JDec 25 1; JBool true]);
     Throw SyntaxError; Throw SyntaxError].
Proof. by_computation. Qed.

(** The text that [saveServices] writes for one record, in base64. *)
Example records_printed :
  Base64.encode
    (Json.stringify_indented
       (JArr [JObj [("service", JStr "Clean"); ("date", JStr "2024-01-01");
                    ("id", JNum 1704067200000); ("price", JDec 125 1)]]))
  = "WwogIHsKICAgICJzZXJ2aWNlIjogIkNsZWFuIiwKICAgICJkYXRlIjogIjIwMjQtMDEtMDEiLAogICAgImlkIjogMTcwNDA2NzIwMDAwMCwKICAgICJwcmljZSI6IDEyLjUKICB9Cl0=".
Proof. by_computation. Qed.

(** ** Strings *)

Lemma append_assoc (a b c : string) : (a ++ b) ++ c = a ++ (b ++ c).
Proof. induction a as [|x a IH]; simpl; [reflexivity | rewrite IH; reflexivity]. Qed.

Lemma append_nil_r (a : string) : a ++ "" = a.
Proof. induction a as [|x a IH]; simpl; [reflexivity | rewrite IH; reflexivity]. Qed.

Lemma length_append (a b : string) :
  String.length (a ++ b) = (String.length a + String.length b)%nat.
Proof. induction a as [|x a IH]; simpl; [reflexivity | rewrite IH; reflexivity]. Qed.

(** ** Splitting at a separator *)

Section Split.

Variable sep : ascii.

Lemma split_not_nil (s : string) : Text.split sep s <> [].
Proof.
  destruct s as [|c s]; simpl; [discriminate|].
  destruct (Ascii.eqb c sep); [discriminate|].
  destruct (Text.split sep s); discriminate.
Qed.

Lemma split_no_sep (x : string) :
  Text.mem sep x = false -> Text.split sep x = [x].
Proof.
  induction x as [|c x IH]; simpl; intros H; [reflexivity|].
  apply orb_false_iff in H as [Hc Hx].
  rewrite Hc, (IH Hx). reflexivity.
Qed.

Lemma split_app (x rest : string) :
  Text.mem sep x = false ->
  Text.split sep (x ++ String sep rest) = x :: Text.split sep rest.
Proof.
  induction x as [|c x IH]; simpl; intros H.
  - rewrite Ascii.eqb_refl. reflexivity.
  - apply orb_false_iff in H as [Hc Hx].
    rewrite Hc, (IH Hx). reflexivity.
Qed.

Lemma split_three (a b c : string) :
  Text.mem sep a = false -> Text.mem sep b = false -> Text.mem sep c = false ->
  Text.split sep (a ++ String sep (b ++ String sep c)) = [a; b; c].
Proof.
  intros Ha Hb Hc.
  rewrite (split_app a _ Ha), (split_app b _ Hb), (split_no_sep c Hc).
  reflexivity.
Qed.

(** A string with the separator in one of the three parts splits into
    more than three. *)
Lemma split_mem (x : string) :
  Text.mem sep x = true -> exists a b l, Text.split sep x = a :: b :: l.
Proof.
  induction x as [|c x IH]; simpl; intros H; [discriminate|].
  destruct (Ascii.eqb c sep) eqn:Hc.
  - destruct (Text.split sep x) as [|a l] eqn:E.
    + exfalso. exact (split_not_nil x E).
    + eauto.
  - simpl in H. destruct (IH H) as (a & b & l & E). rewrite E. eauto.
Qed.

Lemma split_length_app (x rest : string) :
  List.length (Text.split sep (x ++ String sep rest))
  = (List.length (Text.split sep x) + List.length (Text.split sep rest))%nat.
Proof.
  induction x as [|c x IH]; simpl.
  - rewrite Ascii.eqb_refl. reflexivity.
  - destruct (Ascii.eqb c sep); simpl.
    + rewrite IH. reflexivity.
    + destruct (Text.split sep (x ++ String sep rest)) as [|a l] eqn:E;
        [exfalso; exact (split_not_nil _ E)|].
      destruct (Text.split sep x) as [|a' l'] eqn:E';
        [exfalso; exact (split_not_nil _ E')|].
      simpl in *. exact IH.
Qed.


End Split.

(** ** Token verification *)

(** What the [try] block of [verifyToken] yields, with its [catch]. *)
Lemma decode_payload_cases (now : Z) (p : string) :
  let r := try_catch (Token.decode_payload now p) (fun _ => Return JNull) in
  r = Return JNull
  \/ exists v e,
       r = Return v
       /\ Json.parse (Token.base64urlDecode p) = Return v
       /\ get_prop v "exp" = Return e
       /\ Token.expired (Token.seconds now) e = Return false.
Proof.
  unfold Token.decode_payload.
  destruct (Json.parse (Token.base64urlDecode p)) as [v|err] eqn:Hparse;
    simpl; [|auto].
  destruct (get_prop v "exp") as [e|err] eqn:Hexp; simpl; [|auto].
  destruct (Token.expired (Token.seconds now) e) as [[|]|err] eqn:Hlate;
    simpl; auto.
  right. exists v, e. auto.
Qed.

(** [verifyToken] is total on the completions: it returns a value. *)
Lemma verifyToken_total (secret : string) (now : Z) (token : string) :
  exists v, Token.verifyToken secret now token = Return v.
Proof.
  unfold Token.verifyToken.
  destruct (Text.split "." token) as [|h [|p [|s [|x l]]]];
    try (exists JNull; reflexivity).
  destruct (negb (Token.sign secret (h ++ "." ++ p) =? s)%string);
    [exists JNull; reflexivity|].
  destruct (decode_payload_cases now p) as [H | (v & e & H & _)];
    cbv zeta in H; rewrite H; eauto.
Qed.

(** C3: for every input string, token verification returns normally: no
    exception escapes, whatever the base64 text of the payload segment
    decodes to and whether or not that is JSON.  The value returned is
    either the invalid result [null] or the claims decoded from the
    payload segment. *)
Theorem verifyToken_never_throws (secret : string) (now : Z) (token : string) :
  exists v,
    Token.verifyToken secret now token = Return v
    /\ (v = JNull
        \/ exists h p s,
             Text.split "." token = [h; p; s]
             /\ Json.parse (Token.base64urlDecode p) = Return v).
Proof.
  unfold Token.verifyToken.
  destruct (Text.split "." token) as [|h [|p [|s [|x l]]]] eqn:Hsplit;
    try (exists JNull; split; [reflexivity | left; reflexivity]).
  destruct (negb (Token.sign secret (h ++ "." ++ p) =? s)%string);
    [exists JNull; auto|].
  destruct (decode_payload_cases now p) as [H | (v & e & H & Hp & _)];
    cbv zeta in H; rewrite H.
  - exists JNull. auto.
  - exists v. split; [reflexivity|]. right. exists h, p, s. auto.
Qed.

(** The exact condition under which a token is accepted. *)
Lemma verifyToken_accepts (secret : string) (now : Z) (token : string) (v : value) :
  Token.verifyToken secret now token = Return v /\ v <> JNull
  <->
  exists h p s e,
    Text.split "." token = [h; p; s]
    /\ Token.sign secret (h ++ "." ++ p) = s
    /\ Json.parse (Token.base64urlDecode p) = Return v
    /\ get_prop v "exp" = Return e
    /\ (truthy e = false
        \/ number_gt (Token.seconds now) e = Return false).
Proof.
  unfold Token.verifyToken. split.
  - intros [H Hv].
    assert (Hnull : Return JNull = Return v -> False)
      by (intros E; inversion E; congruence).
    destruct (Text.split "." token) as [|h [|p [|s [|x l]]]] eqn:Hsplit;
      try (exfalso; exact (Hnull H)).
    destruct (Token.sign secret (h ++ "." ++ p) =? s)%string eqn:Hsig;
      simpl in H; [|exfalso; exact (Hnull H)].
    apply String.eqb_eq in Hsig.
    destruct (decode_payload_cases now p) as [H' | (v' & e & H' & Hp & He & Hl)];
      cbv zeta in H'; rewrite H' in H; [exfalso; exact (Hnull H)|].
    inversion H; subst.
    exists h, p, (Token.sign secret (h ++ "." ++ p)), e. repeat split; auto.
    unfold Token.expired in Hl. destruct (truthy e); auto.
  - intros (h & p & s & e & Hsplit & Hsig & Hp & He & Hl).
    rewrite Hsplit. apply String.eqb_eq in Hsig. rewrite Hsig. simpl.
    unfold Token.decode_payload. rewrite Hp. simpl. rewrite He. simpl.
    assert (Hlate : Token.expired (Token.seconds now) e = Return false).
    { unfold Token.expired. destruct (truthy e); [|reflexivity].
      destruct Hl; [discriminate | assumption]. }
    rewrite Hlate. simpl. split; [reflexivity|].
    intros ->. discriminate.
Qed.

(** C10: the expiry check is skipped when the payload's [exp] is falsy; a
    correctly signed token whose payload has [exp] equal to 0, null,
    false or the empty string is accepted at every time. *)
Theorem falsy_exp_never_expires
  (secret token h p s : string) (o : object) (e : value) :
  Text.split "." token = [h; p; s] ->
  s = Token.sign secret (h ++ "." ++ p) ->
  Json.parse (Token.base64urlDecode p) = Return (JObj o) ->
  obj_get "exp" o = Some e ->
  In e [JNum 0; JNull; JBool false; JStr ""] ->
  forall now : Z,
    Token.expired (Token.seconds now) (Some e) = Return false
    /\ Token.verifyToken secret now token = Return (JObj o).
Proof.
  intros Hsplit Hsig Hparse Hexp He now.
  assert (Hfalsy : truthy (Some e) = false).
  { simpl in He. decompose [or] He; subst; try reflexivity. contradiction. }
  split.
  - unfold Token.expired. rewrite Hfalsy. reflexivity.
  - apply (verifyToken_accepts secret now token (JObj o)).
    exists h, p, s, (Some e). subst s. repeat split; auto.
    simpl. rewrite Hexp. reflexivity.
Qed.

Lemma falsy_exp_never_expires_witness :
  Token.verifyToken Samples.secret 4102444800000 Samples.exp0_token
  = Return (JObj [("exp", JNum 0)]).
Proof.
  apply (falsy_exp_never_expires Samples.secret Samples.exp0_token
           Samples.header64 Samples.exp0_payload64 Samples.exp0_signature
           [("exp", JNum 0)] (JNum 0)).
  - by_computation.
  - by_computation.
  - by_computation.
  - reflexivity.
  - simpl. auto.
Defined.

(** C2: the code departs from the claim at a token whose payload has
    [exp] 0.  The token of [{"exp":0}], correctly signed, is returned as
    valid in 2023, although it has an [exp] claim and the time is past
    it, so that the conditions the claim gives for acceptance do not
    hold of it. *)
Lemma verifyToken_not_spec_accepts :
  Token.verifyToken Samples.secret 1700000000000 Samples.exp0_token
  = Return (JObj [("exp", JNum 0)])
  /\ ~ Spec.accepts Samples.secret 1700000000000 Samples.exp0_token
         (JObj [("exp", JNum 0)]).
Proof.
  split; [by_computation|].
  intros (h & p & s & _ & _ & _ & [H | (e & H & Hle)]).
  - discriminate H.
  - inversion H; subst e. vm_compute in Hle. apply Hle. reflexivity.
Qed.

(** ** Objects *)

Lemma obj_get_replace (k : string) (v : value) (o : object) :
  obj_has k o = true -> obj_get k (obj_replace k v o) = Some v.
Proof.
  unfold obj_has. induction o as [|[k' v'] o IH]; simpl; [discriminate|].
  destruct (String.eqb k' k) eqn:E; simpl; rewrite E; auto.
Qed.

Lemma obj_get_replace_other (k k' : string) (v : value) (o : object) :
  k' <> k -> obj_get k' (obj_replace k v o) = obj_get k' o.
Proof.
  intros Hne. induction o as [|[k0 v0] o IH]; simpl; [reflexivity|].
  destruct (String.eqb k0 k) eqn:E; simpl.
  - apply String.eqb_eq in E. subst k0.
    destruct (String.eqb k k') eqn:E'; [|reflexivity].
    apply String.eqb_eq in E'. congruence.
  - rewrite IH. reflexivity.
Qed.

Lemma obj_get_insert_index (n : Z) (k k' : string) (v : value) (o : object) :
  obj_get k o = None ->
  obj_get k' (obj_insert_index n k v o)
  = if String.eqb k k' then Some v else obj_get k' o.
Proof.
  induction o as [|[k0 v0] o IH]; simpl; intros Hk; [reflexivity|].
  destruct (String.eqb k0 k) eqn:E0; [discriminate|].
  destruct (array_index k0) as [n0|]; [destruct (n0 <? n)|]; simpl;
    try reflexivity.
  rewrite (IH Hk).
  destruct (String.eqb k k') eqn:E; [|reflexivity].
  apply String.eqb_eq in E. subst k'. rewrite E0. reflexivity.
Qed.

Lemma obj_get_app (k : string) (o o' : object) :
  obj_get k (o ++ o')%list
  = match obj_get k o with
    | Some x => Some x
    | None => obj_get k o'
    end.
Proof.
  induction o as [|[k0 v0] o IH]; simpl; [reflexivity|].
  destruct (String.eqb k0 k); auto.
Qed.

(** Reading a property just written gives the value written, and every
    other property is as before. *)
Lemma obj_get_set (k : string) (v : value) (o : object) :
  obj_get k (obj_set k v o) = Some v.
Proof.
  unfold obj_set. destruct (obj_has k o) eqn:H.
  - apply obj_get_replace, H.
  - unfold obj_has in H. destruct (obj_get k o) eqn:G; [discriminate|].
    destruct (array_index k).
    + rewrite (obj_get_insert_index _ _ _ _ _ G), String.eqb_refl. reflexivity.
    + rewrite obj_get_app, G. simpl. rewrite String.eqb_refl. reflexivity.
Qed.

Lemma obj_get_set_other (k k' : string) (v : value) (o : object) :
  k' <> k -> obj_get k' (obj_set k v o) = obj_get k' o.
Proof.
  intros Hne. unfold obj_set. destruct (obj_has k o) eqn:H.
  - apply obj_get_replace_other, Hne.
  - assert (E : String.eqb k k' = false)
      by (apply String.eqb_neq; congruence).
    unfold obj_has in H. destruct (obj_get k o) eqn:G; [discriminate|].
    destruct (array_index k).
    + rewrite (obj_get_insert_index _ _ _ _ _ G), E. reflexivity.
    + rewrite obj_get_app. simpl. rewrite E.
      destruct (obj_get k' o); reflexivity.
Qed.

(** ** Token issuance *)

(** What [generateToken] puts into the payload: [iat], and as [exp] the
    [exp] of the input when that is truthy, else the issuance time in
    seconds plus 3600. *)
Lemma generateToken_claims
  (secret : string) (now : Z) (payload : value) (exp : option value) :
  get_prop payload "exp" = Return exp ->
  exists claims : object,
    Token.generateToken secret now payload
    = Return (let data :=
                Token.base64urlEncode (Json.stringify Token.header) ++ "."
                  ++ Token.base64urlEncode (Json.stringify (JObj claims)) in
              data ++ "." ++ Token.sign secret data)
    /\ obj_get "iat" claims = Some (JNum (Token.seconds now))
    /\ (truthy exp = true -> obj_get "exp" claims = exp)
    /\ (truthy exp = false ->
        obj_get "exp" claims = Some (JNum (Token.seconds now + 3600))).
Proof.
  intros Hexp.
  exists (obj_set "exp" (Token.expiry_of exp (Token.seconds now))
            (obj_set "iat" (JNum (Token.seconds now)) (Token.spread payload))).
  unfold Token.generateToken. rewrite Hexp. simpl.
  split; [reflexivity|]. split.
  - rewrite obj_get_set_other by discriminate. apply obj_get_set.
  - rewrite obj_get_set. unfold Token.expiry_of.
    split; intros H; destruct exp as [e|]; rewrite ?H; try reflexivity.
    discriminate H.
Qed.

(** C4: the code departs from the claim at a claim map whose [exp] is
    0.  The input [{"exp":0}] has an [exp] claim, and the token issued for
    it carries [exp] = issuance time + 3600 and not 0. *)
Lemma exp_zero_is_not_kept :
  Token.generateToken Samples.secret 1700000000123 (JObj [("exp", JNum 0)])
  = Return Samples.issued_for_exp0
  /\ Token.verifyToken Samples.secret 1700000000123 Samples.issued_for_exp0
     = Return (JObj [("exp", JNum 1700003600); ("iat", JNum 1700000000)])
  /\ JNum 1700003600 <> JNum 0.
Proof.
  split; [by_computation|]. split; [by_computation|]. discriminate.
Qed.

(** ** Altered tokens *)

Lemma split_length_pos (sep : ascii) (s : string) :
  (1 <= List.length (Text.split sep s))%nat.
Proof.
  destruct (Text.split sep s) eqn:E; [exfalso; exact (split_not_nil sep s E)|].
  simpl. lia.
Qed.

Lemma split_length_mem (sep : ascii) (x : string) :
  Text.mem sep x = true -> (2 <= List.length (Text.split sep x))%nat.
Proof.
  intros H. destruct (split_mem sep x H) as (a & b & l & ->). simpl. lia.
Qed.

Lemma verifyToken_parts (secret : string) (now : Z) (t : string) :
  List.length (Text.split "." t) <> 3%nat ->
  Token.verifyToken secret now t = Return JNull.
Proof.
  unfold Token.verifyToken.
  destruct (Text.split "." t) as [|h [|p [|s [|x l]]]];
    simpl List.length; intros H; try (exfalso; apply H; reflexivity);
    reflexivity.
Qed.



Lemma set_char_changes (c : ascii) (x : string) (i : nat) :
  (i < String.length x)%nat -> String.get i x <> Some c ->
  Text.set_char i c x <> x.
Proof.
  revert i. induction x as [|a x IH]; simpl; intros i Hi Hget; [lia|].
  destruct i as [|i]; simpl.
  - intros E. inversion E. congruence.
  - intros E. inversion E as [E']. revert E'. apply IH; [lia | exact Hget].
Qed.

Lemma append_inj_l (a b r : string) : a ++ r = b ++ r -> a = b.
Proof.
  revert b. induction a as [|x a IH]; intros [|y b] H; simpl in *.
  - reflexivity.
  - exfalso. apply (f_equal String.length) in H. simpl in H.
    rewrite length_append in H. lia.
  - exfalso. apply (f_equal String.length) in H. simpl in H.
    rewrite length_append in H. lia.
  - inversion H. f_equal. auto.
Qed.

Lemma token_parts_length (h p s : string) :
  List.length (Text.split "." (h ++ "." ++ p ++ "." ++ s))
  = (List.length (Text.split "." h) + List.length (Text.split "." p)
     + List.length (Text.split "." s))%nat.
Proof.
  change (h ++ "." ++ p ++ "." ++ s)
    with (h ++ String "."%char (p ++ String "."%char s)).
  rewrite !split_length_app. lia.
Qed.

Lemma append_inj_r (a x y : string) : a ++ x = a ++ y -> x = y.
Proof.
  induction a as [|c a IH]; simpl; intros H; [exact H|].
  injection H as H. auto.
Qed.

(** A token whose third segment differs from the signature of the first
    two is rejected. *)
Lemma verifyToken_bad_signature (secret : string) (now : Z) (h p s : string) :
  Token.sign secret (h ++ "." ++ p) <> s ->
  Token.verifyToken secret now (h ++ "." ++ p ++ "." ++ s) = Return JNull.
Proof.
  intros Hsig.
  pose proof (split_length_pos "." h). pose proof (split_length_pos "." p).
  pose proof (split_length_pos "." s).
  destruct (Text.mem "." h) eqn:Mh;
    [apply verifyToken_parts; rewrite token_parts_length;
     pose proof (split_length_mem _ _ Mh); lia|].
  destruct (Text.mem "." p) eqn:Mp;
    [apply verifyToken_parts; rewrite token_parts_length;
     pose proof (split_length_mem _ _ Mp); lia|].
  destruct (Text.mem "." s) eqn:Ms;
    [apply verifyToken_parts; rewrite token_parts_length;
     pose proof (split_length_mem _ _ Ms); lia|].
  unfold Token.verifyToken.
  change (h ++ "." ++ p ++ "." ++ s)
    with (h ++ String "."%char (p ++ String "."%char s)).
  rewrite (split_three "." h p s Mh Mp Ms).
  apply String.eqb_neq in Hsig. rewrite Hsig. reflexivity.
Qed.

(** ** The record store: tolerant read *)

Import Store.

Lemma getServices_total (st : fs) :
  exists v, getServices st = (Return v, st).
Proof.
  unfold getServices, try_io, bind_io, readFileSync, lift, ret.
  destruct (st servicesFile); eauto.
  destruct (Json.parse (Utf8.decode data)); eauto.
Qed.

Lemma getUsers_total (st : fs) :
  exists v, getUsers st = (Return v, st).
Proof.
  unfold getUsers, try_io, bind_io, readFileSync, lift, ret.
  destruct (st usersFile); eauto.
  destruct (Json.parse (Utf8.decode data)); eauto.
Qed.

(** C7: loading a collection whose backing file is missing, unreadable
    or not JSON returns the empty sequence, and loading never raises an
    error, whatever the file holds. *)
Theorem load_tolerant (st : fs) :
  (unusable servicesFile st -> getServices st = (Return (JArr []), st))
  /\ (unusable usersFile st -> getUsers st = (Return (JArr []), st))
  /\ (exists v, getServices st = (Return v, st))
  /\ (exists v, getUsers st = (Return v, st)).
Proof.
  split; [|split; [|split; [apply getServices_total | apply getUsers_total]]].
  - unfold getServices, try_io, bind_io, readFileSync, lift, ret.
    intros [H | [H | (data & e & H & Hp)]]; rewrite H; try reflexivity.
    rewrite Hp. reflexivity.
  - unfold getUsers, try_io, bind_io, readFileSync, lift, ret.
    intros [H | [H | (data & e & H & Hp)]]; rewrite H; try reflexivity.
    rewrite Hp. reflexivity.
Qed.

Lemma load_tolerant_witness :
  getServices (fun _ => Missing) = (Return (JArr []), fun _ => Missing)
  /\ getUsers (fun _ => Regular "{not json")
     = (Return (JArr []), fun _ => Regular "{not json").
Proof.
  split.
  - apply (proj1 (load_tolerant (fun _ => Missing))).
    left. reflexivity.
  - apply (proj1 (proj2 (load_tolerant (fun _ => Regular "{not json")))).
    right. right. exists "{not json", SyntaxError.
    split; [reflexivity | by_computation].
Defined.

(** ** Registration *)

Import Server.

Lemma getUsers_regular (st : fs) (data : string) (users : value) :
  st usersFile = Regular data ->
  Json.parse (Utf8.decode data) = Return users ->
  getUsers st = (Return users, st).
Proof.
  intros Hfile Hparse.
  unfold getUsers, try_io, bind_io, readFileSync, lift.
  rewrite Hfile, Hparse. reflexivity.
Qed.

(** [users.some(u => u.username === username)] finds a record that
    carries the name. *)
Lemma some_of_username (name : string) (users : list value) :
  Forall is_record users ->
  (exists o, In (JObj o) users /\ obj_get "username" o = Some (JStr name)) ->
  some_of (fun u => bind (get_prop u "username")
                         (fun x => Return (strict_eq x (Some (JStr name)))))
          users
  = Return true.
Proof.
  intros Hrec (o & Hin & Hname).
  induction users as [|u users IH]; [contradiction|].
  inversion Hrec as [|? ? [o' ->] Hrec']; subst.
  simpl. destruct (strict_eq (obj_get "username" o') (Some (JStr name))) eqn:E;
    [reflexivity|].
  apply IH; [exact Hrec'|].
  destruct Hin as [Hin|Hin]; [|exact Hin].
  injection Hin as ->. rewrite Hname in E. simpl in E.
  rewrite String.eqb_refl in E. discriminate.
Qed.

(** A body that is not JSON is answered with status 400. *)
Lemma register_invalid_json (body : string) (e : error) (st : fs) :
  Json.parse body = Throw e ->
  register body st = (Return (respond 400 (error_body "Invalid JSON")), st).
Proof.
  intros H. unfold register, try_io, bind_io, lift. rewrite H. reflexivity.
Qed.

(** So is a registration whose write fails. *)
Lemma register_write_failure
  (body : string) (parsed : value) (name password : string) (st : fs) :
  Json.parse body = Return parsed ->
  get_prop parsed "username" = Return (Some (JStr name)) -> name <> "" ->
  get_prop parsed "password" = Return (Some (JStr password)) -> password <> "" ->
  st usersFile = Locked ->
  register body st = (Return (respond 400 (error_body "Invalid JSON")), st).
Proof.
  intros Hparse Hname Hne Hpass Hne' Hfile.
  unfold register, try_io, bind_io, lift. rewrite Hparse, Hname, Hpass.
  apply String.eqb_neq in Hne, Hne'.
  cbn [truthy]. rewrite Hne, Hne'. cbn [negb orb].
  unfold getUsers, try_io, bind_io, readFileSync. rewrite Hfile.
  cbn [ret array_some some_of hash_password array_push].
  unfold saveUsers, writeFileSync. rewrite Hfile. reflexivity.
Qed.

(** An answer with status 409 comes from the search of the users and
    from nowhere else, and nothing was written by then. *)
Lemma register_conflict_only (body : string) (st : fs) (r : response) (st' : fs) :
  register body st = (Return r, st') ->
  status r = 409 ->
  r = respond 409 (error_body "User already exists") /\ st' = st
  /\ exists parsed username users,
       Json.parse body = Return parsed
       /\ get_prop parsed "username" = Return username
       /\ getUsers st = (Return (JArr users), st)
       /\ some_of (has_username username) users = Return true.
Proof.
  intros Hreg Hstatus.
  assert (Hno : forall n v s, n <> 409 ->
            (Return (respond n v), s) = (Return r, st') -> False).
  { intros n v s Hn E. inversion E; subst r. cbn [status respond] in Hstatus.
    contradiction. }
  unfold register, try_io, bind_io, lift in Hreg.
  destruct (Json.parse body) as [parsed|e] eqn:Hparse;
    [|exfalso; eapply Hno; [|exact Hreg]; discriminate].
  destruct (get_prop parsed "username") as [username|e] eqn:Hname;
    [|exfalso; eapply Hno; [|exact Hreg]; discriminate].
  destruct (get_prop parsed "password") as [password|e] eqn:Hpass;
    [|exfalso; eapply Hno; [|exact Hreg]; discriminate].
  destruct (negb (truthy username) || negb (truthy password));
    [exfalso; eapply Hno; [|exact Hreg]; discriminate|].
  destruct (getUsers_total st) as (users & Husers). rewrite Husers in Hreg.
  destruct users as [| | | | | users | |];
    try (exfalso; eapply Hno; [|exact Hreg]; discriminate).
  cbn [array_some] in Hreg.
  change (fun u : value =>
            bind (get_prop u "username")
                 (fun x : option value => Return (strict_eq x username)))
    with (has_username username) in Hreg.
  destruct (some_of (has_username username) users) as [[|]|e] eqn:Hsome;
    [| |exfalso; eapply Hno; [|exact Hreg]; discriminate].
  - unfold ret in Hreg. inversion Hreg; subst.
    split; [reflexivity|]. split; [reflexivity|].
    exists parsed, username, users. auto.
  - exfalso.
    destruct (hash_password password) as [hash|e];
      [|eapply Hno; [|exact Hreg]; discriminate].
    cbn [array_push] in Hreg. unfold saveUsers, writeFileSync in Hreg.
    destruct (st usersFile); eapply Hno; try exact Hreg; discriminate.
Qed.

(** C8: registering a user name that a record of the users collection
    already carries is answered with status 409, "User already exists",
    and nothing is written: the file system is left as it was.  The
    conflict is distinct from the failures: a body that is not JSON and
    a registration whose write fails are both answered with status 400,
    "Invalid JSON", and whatever the body and the files, an answer with
    status 409 is given only when a stored user carries the name, and
    then without a write. *)
Theorem register_duplicate_conflict
  (body data : string) (parsed : value) (name : string)
  (password : option value) (users : list value) (st : fs) :
  Json.parse body = Return parsed ->
  get_prop parsed "username" = Return (Some (JStr name)) -> name <> "" ->
  get_prop parsed "password" = Return password -> truthy password = true ->
  st usersFile = Regular data ->
  Json.parse (Utf8.decode data) = Return (JArr users) ->
  Forall is_record users ->
  (exists o, In (JObj o) users /\ obj_get "username" o = Some (JStr name)) ->
  register body st = (Return (respond 409 (error_body "User already exists")), st)
  /\ (forall body' e st',
        Json.parse body' = Throw e ->
        register body' st'
        = (Return (respond 400 (error_body "Invalid JSON")), st'))
  /\ (forall body' parsed' name' password' st',
        Json.parse body' = Return parsed' ->
        get_prop parsed' "username" = Return (Some (JStr name')) ->
        name' <> "" ->
        get_prop parsed' "password" = Return (Some (JStr password')) ->
        password' <> "" ->
        st' usersFile = Locked ->
        register body' st'
        = (Return (respond 400 (error_body "Invalid JSON")), st'))
  /\ (forall body' st' r st'',
        register body' st' = (Return r, st'') ->
        status r = 409 ->
        r = respond 409 (error_body "User already exists") /\ st'' = st'
        /\ exists parsed' username users',
             Json.parse body' = Return parsed'
             /\ get_prop parsed' "username" = Return username
             /\ getUsers st' = (Return (JArr users'), st')
             /\ some_of (has_username username) users' = Return true).
Proof.
  intros Hparse Hname Hne Hpass Htruthy Hfile Hdata Hrec Hdup.
  split; [|split; [|split]].
  - unfold register, try_io, bind_io, lift. rewrite Hparse, Hname, Hpass.
    apply String.eqb_neq in Hne.
    cbn [truthy]. rewrite Hne, Htruthy. cbn [negb orb].
    rewrite (getUsers_regular st data (JArr users) Hfile Hdata).
    cbn [array_some]. rewrite (some_of_username name users Hrec Hdup).
    reflexivity.
  - intros body' e st'. apply register_invalid_json.
  - intros body' parsed' name' password' st'. apply register_write_failure.
  - intros body' st' r st''. apply register_conflict_only.
Qed.

Lemma register_duplicate_conflict_witness :
  register Samples.register_again Samples.disk_with_alice
  = (Return (respond 409 (error_body "User already exists")),
     Samples.disk_with_alice).
Proof.
  refine (proj1 (register_duplicate_conflict Samples.register_again
                   Samples.users_file
                   (JObj [("username", JStr "alice"); ("password", JStr "pw2")])
                   "alice" (Some (JStr "pw2")) [Samples.alice_record]
                   Samples.disk_with_alice _ _ _ _ _ _ _ _ _)).
  - by_computation.
  - reflexivity.
  - discriminate.
  - reflexivity.
  - reflexivity.
  - reflexivity.
  - by_computation.
  - constructor; [eexists; reflexivity | constructor].
  - eexists. split; [left; reflexivity | reflexivity].
Defined.

(** ** Service records *)






(** * The round trips *)

Arguments array_index : simpl never.

(** ** Decimal digits *)

Lemma digit_char_spec (d : Z) :
  0 <= d < 10 ->
  is_digit (digit_char d) = true /\ digit_val (digit_char d) = d.
Proof.
  intros H.
  assert (E : d = 0 \/ d = 1 \/ d = 2 \/ d = 3 \/ d = 4 \/ d = 5 \/ d = 6
              \/ d = 7 \/ d = 8 \/ d = 9) by lia.
  decompose [or] E; subst; split; reflexivity.
Qed.

Lemma digits_aux_app (fuel : nat) (n : Z) (acc rest : string) :
  digits_aux fuel n (acc ++ rest) = digits_aux fuel n acc ++ rest.
Proof.
  revert n acc. induction fuel as [|fuel IH]; intros n acc; simpl; [reflexivity|].
  destruct (n <? 10); [reflexivity|].
  rewrite <- IH. reflexivity.
Qed.

(** Reading the digits of [n] back continues a number read so far. *)
Lemma read_digits_aux (fuel : nat) :
  forall (n : Z) (rest : string),
    0 <= n < 2 ^ Z.of_nat fuel ->
    exists k, 0 <= k /\
      forall a, read_digits a (digits_aux fuel n rest)
                = read_digits (a * 10 ^ k + n) rest.
Proof.
  induction fuel as [|fuel IH]; intros n rest Hn.
  - exists 0. split; [lia|]. intros a. simpl in *.
    replace (a * 1 + n) with a by lia. reflexivity.
  - cbn [digits_aux].
    assert (Hd : 0 <= n mod 10 < 10) by (apply Z.mod_pos_bound; lia).
    destruct (digit_char_spec _ Hd) as [Hdig Hval].
    destruct (n <? 10) eqn:Hlt.
    + apply Z.ltb_lt in Hlt. exists 1. split; [lia|]. intros a.
      cbn [read_digits]. rewrite Hdig, Hval.
      rewrite Z.mod_small by lia. f_equal; lia.
    + apply Z.ltb_ge in Hlt.
      assert (Hn' : 0 <= n / 10 < 2 ^ Z.of_nat fuel).
      { split; [apply Z.div_pos; lia|].
        apply Z.div_lt_upper_bound; [lia|].
        rewrite Nat2Z.inj_succ, Z.pow_succ_r in Hn by lia. lia. }
      destruct (IH (n / 10) (String (digit_char (n mod 10)) rest) Hn')
        as (k & Hk & Hread).
      exists (k + 1). split; [lia|]. intros a.
      rewrite Hread. cbn [read_digits]. rewrite Hdig, Hval.
      f_equal; rewrite Z.pow_add_r by lia;
        pose proof (Z.div_mod n 10); lia.
Qed.

Lemma digits_fuel (n : Z) :
  0 <= n -> 0 <= n < 2 ^ Z.of_nat (S (Z.to_nat (Z.log2 n))).
Proof.
  intros Hn. split; [exact Hn|].
  rewrite Nat2Z.inj_succ, Z2Nat.id by apply Z.log2_nonneg.
  destruct (Z.eq_dec n 0) as [->|Hz]; [reflexivity|].
  apply Z.log2_spec. lia.
Qed.

Lemma read_digits_stop (a : Z) (rest : string) :
  (forall c r, rest = String c r -> is_digit c = false) ->
  read_digits a rest = (a, rest).
Proof.
  destruct rest as [|c r]; simpl; [reflexivity|].
  intros H. rewrite (H c r eq_refl). reflexivity.
Qed.

Lemma read_digits_digits (n : Z) (rest : string) :
  0 <= n -> (forall c r, rest = String c r -> is_digit c = false) ->
  read_digits 0 (digits n ++ rest) = (n, rest).
Proof.
  intros Hn Hrest. unfold digits.
  rewrite <- digits_aux_app. simpl append.
  destruct (read_digits_aux _ n rest (digits_fuel n Hn)) as (k & _ & Hread).
  rewrite Hread. simpl. apply read_digits_stop, Hrest.
Qed.

(** The first digit of a positive number is not zero. *)
Lemma digits_aux_head (fuel : nat) :
  forall (n : Z) (acc : string),
    0 < n < 2 ^ Z.of_nat fuel ->
    exists c r, digits_aux fuel n acc = String c r
                /\ is_digit c = true /\ Ascii.eqb c "0" = false.
Proof.
  induction fuel as [|fuel IH]; intros n acc Hn; [simpl in Hn; lia|].
  cbn [digits_aux]. destruct (n <? 10) eqn:Hlt.
  - apply Z.ltb_lt in Hlt. exists (digit_char (n mod 10)), acc.
    rewrite Z.mod_small by lia.
    assert (E : n = 1 \/ n = 2 \/ n = 3 \/ n = 4 \/ n = 5 \/ n = 6
                \/ n = 7 \/ n = 8 \/ n = 9) by lia.
    decompose [or] E; subst; repeat split; reflexivity.
  - apply Z.ltb_ge in Hlt. apply IH. split.
    + apply Z.div_str_pos. lia.
    + apply Z.div_lt_upper_bound; [lia|].
      rewrite Nat2Z.inj_succ, Z.pow_succ_r in Hn by lia. lia.
Qed.

Lemma digits_head (n : Z) :
  0 < n ->
  exists c r, digits n = String c r
              /\ is_digit c = true /\ Ascii.eqb c "0" = false.
Proof.
  intros Hn. apply digits_aux_head.
  pose proof (digits_fuel n ltac:(lia)). lia.
Qed.



(** *** Digit strings *)

Lemma all_digits_app (a b : string) :
  all_digits (a ++ b) = all_digits a && all_digits b.
Proof.
  induction a as [|c a IH]; simpl; [reflexivity|].
  rewrite IH, andb_assoc. reflexivity.
Qed.

Lemma all_digits_aux (fuel : nat) :
  forall (n : Z) (acc : string),
    0 <= n -> all_digits acc = true -> all_digits (digits_aux fuel n acc) = true.
Proof.
  induction fuel as [|fuel IH]; intros n acc Hn Hacc; cbn [digits_aux];
    [exact Hacc|].
  assert (Hd : 0 <= n mod 10 < 10) by (apply Z.mod_pos_bound; lia).
  destruct (digit_char_spec _ Hd) as [Hdig _].
  destruct (n <? 10).
  - cbn [all_digits]. rewrite Hdig, Hacc. reflexivity.
  - apply IH; [apply Z.div_pos; lia|].
    cbn [all_digits]. rewrite Hdig, Hacc. reflexivity.
Qed.

Lemma all_digits_digits (n : Z) : 0 <= n -> all_digits (digits n) = true.
Proof. intros Hn. apply all_digits_aux; [exact Hn | reflexivity]. Qed.

Lemma all_digits_zeros (j : nat) : all_digits (Text.repeat_char "0" j) = true.
Proof. induction j as [|j IH]; [reflexivity | exact IH]. Qed.

(** Reading a digit string in front of a text that does not go on with
    a digit. *)
Lemma read_digits_app (s rest : string) :
  all_digits s = true ->
  (forall c r, rest = String c r -> is_digit c = false) ->
  forall a, read_digits a (s ++ rest) = (fst (read_digits a s), rest).
Proof.
  intros Hs Hrest. induction s as [|c s IH]; intros a.
  - cbn [append read_digits fst]. apply read_digits_stop, Hrest.
  - cbn [all_digits] in Hs. apply andb_true_iff in Hs as [Hc Hs].
    cbn [append read_digits]. rewrite Hc. apply IH, Hs.
Qed.

Lemma read_digits_cat (s1 s2 : string) :
  all_digits s1 = true ->
  forall a, fst (read_digits a (s1 ++ s2))
            = fst (read_digits (fst (read_digits a s1)) s2).
Proof.
  intros Hs. induction s1 as [|c s IH]; intros a; [reflexivity|].
  cbn [all_digits] in Hs. apply andb_true_iff in Hs as [Hc Hs].
  cbn [append read_digits]. rewrite Hc. apply IH, Hs.
Qed.

Lemma read_digits_value (n : Z) : 0 <= n -> fst (read_digits 0 (digits n)) = n.
Proof.
  intros Hn.
  pose proof (read_digits_digits n "" Hn) as H.
  rewrite append_nil_r in H. rewrite H; [reflexivity|]. intros; discriminate.
Qed.

Lemma read_digits_zeros (j : nat) :
  forall a, fst (read_digits a (Text.repeat_char "0" j)) = a * 10 ^ Z.of_nat j.
Proof.
  induction j as [|j IH]; intros a.
  - simpl. lia.
  - cbn [Text.repeat_char read_digits].
    change (is_digit "0") with true. cbv beta iota.
    rewrite IH, Nat2Z.inj_succ, Z.pow_succ_r by lia.
    change (digit_val "0") with 0. lia.
Qed.

Lemma span_digits_app (s rest : string) :
  all_digits s = true ->
  (forall c r, rest = String c r -> is_digit c = false) ->
  span_digits (s ++ rest) = (s, rest).
Proof.
  intros Hs Hrest. induction s as [|c s IH].
  - destruct rest as [|c r]; [reflexivity|].
    cbn [append span_digits]. rewrite (Hrest c r eq_refl). reflexivity.
  - cbn [all_digits] in Hs. apply andb_true_iff in Hs as [Hc Hs].
    cbn [append span_digits]. rewrite Hc, (IH Hs). reflexivity.
Qed.

Lemma all_digits_ascii (s : string) :
  all_digits s = true -> Utf8.all_ascii s = true.
Proof.
  induction s as [|c s IH]; [reflexivity|].
  cbn [all_digits]. intros H. apply andb_true_iff in H as [Hc Hs].
  cbn [Utf8.all_ascii]. rewrite (IH Hs), andb_true_r.
  revert Hc. destruct c as [[|] [|] [|] [|] [|] [|] [|] [|]];
    intros Hc; try discriminate Hc; reflexivity.
Qed.

(** The two halves of a string. *)
Lemma substring_split (s : string) :
  forall n : nat, (n <= String.length s)%nat ->
    substring 0 n s ++ substring n (String.length s - n) s = s.
Proof.
  induction s as [|c s IH]; intros n Hn.
  - destruct n; reflexivity.
  - destruct n as [|n].
    + cbn [String.length Nat.sub]. cbn [substring append].
      f_equal. specialize (IH 0%nat ltac:(lia)).
      rewrite Nat.sub_0_r in IH.
      destruct s; [reflexivity|]. cbn [substring append] in IH. exact IH.
    + cbn [String.length] in Hn. cbn [String.length Nat.sub substring append].
      f_equal. apply IH. lia.
Qed.

Lemma substring_length (s : string) :
  forall n : nat, (n <= String.length s)%nat ->
    String.length (substring 0 n s) = n
    /\ String.length (substring n (String.length s - n) s)
       = (String.length s - n)%nat.
Proof.
  induction s as [|c s IH]; intros n Hn.
  - cbn [String.length] in Hn. destruct n; [split; reflexivity | lia].
  - destruct n as [|n].
    + split; [reflexivity|].
      cbn [String.length Nat.sub substring]. f_equal.
      destruct (IH 0%nat ltac:(lia)) as [_ H]. rewrite Nat.sub_0_r in H.
      destruct s; [reflexivity | exact H].
    + cbn [String.length] in Hn.
      destruct (IH n ltac:(lia)) as [H1 H2].
      cbn [String.length Nat.sub substring]. split; [f_equal; exact H1 | exact H2].
Qed.

(** ** Number literals *)

Lemma digit_is_no_mark (c : ascii) :
  is_digit c = true ->
  Ascii.eqb c "-" = false /\ Json.is_ws c = false
  /\ Ascii.eqb c "n" = false /\ Ascii.eqb c "t" = false
  /\ Ascii.eqb c "f" = false /\ Ascii.eqb c Json.dquote = false
  /\ Ascii.eqb c "[" = false /\ Ascii.eqb c "{" = false
  /\ Ascii.eqb c "]" = false /\ Ascii.eqb c "}" = false.
Proof.
  destruct c as [[|] [|] [|] [|] [|] [|] [|] [|]]; intros H;
    try discriminate H; repeat split; reflexivity.
Qed.

Lemma number_end_stop (rest : string) :
  Json.number_end rest = true ->
  (forall c r, rest = String c r -> is_digit c = false)
  /\ Json.head_is "." rest = None
  /\ match rest with
     | String c r => Ascii.eqb c "e" || Ascii.eqb c "E"
     | EmptyString => false
     end = false.
Proof.
  destruct rest as [|c r]; simpl; intros H.
  - repeat split. intros; discriminate.
  - apply negb_true_iff in H.
    apply orb_false_iff in H as [H HE]. apply orb_false_iff in H as [H He].
    apply orb_false_iff in H as [Hd Hdot].
    repeat split.
    + intros c' r' E. injection E as <- <-. exact Hd.
    + rewrite Hdot. reflexivity.
    + rewrite He, HE. reflexivity.
Qed.

(** The literal of a non-negative integer is read back. *)
Lemma int_part_digits (n : Z) (rest : string) :
  0 <= n -> Json.number_end rest = true ->
  Json.int_part (digits n ++ rest) = Some (n, rest).
Proof.
  intros Hn Hend. unfold Json.int_part.
  destruct (number_end_stop rest Hend) as (Hdig & _ & _).
  destruct (Z.eq_dec n 0) as [->|Hz].
  - reflexivity.
  - destruct (digits_head n ltac:(lia)) as (c & r & E & Hc & H0).
    rewrite <- (read_digits_digits n rest Hn Hdig).
    rewrite E. cbn [append]. rewrite H0, Hc. reflexivity.
Qed.

Lemma number_tail (rest : string) :
  Json.number_end rest = true ->
  Json.frac_part rest = Some ("", rest) /\ Json.exp_part rest = Some (0, rest).
Proof.
  intros Hend. unfold Json.frac_part, Json.exp_part.
  destruct (number_end_stop rest Hend) as (_ & Hdot & He).
  rewrite Hdot. destruct rest as [|c r]; [split; reflexivity|].
  rewrite He. split; reflexivity.
Qed.

Lemma make_number_int (z : Z) : make_number z 0 = JNum z.
Proof.
  unfold make_number. destruct (z =? 0) eqn:E.
  - apply Z.eqb_eq in E. subst. reflexivity.
  - simpl. rewrite Z.mul_1_r. reflexivity.
Qed.




(** *** The parts of a literal *)

Lemma digits_nonempty (n : Z) : 0 <= n -> digits n <> "".
Proof.
  intros Hn. destruct (Z.eq_dec n 0) as [->|Hz]; [discriminate|].
  destruct (digits_head n ltac:(lia)) as (c & r & E & _).
  rewrite E. discriminate.
Qed.

Lemma int_part_nonzero (c : ascii) (r rest : string) :
  is_digit c = true -> Ascii.eqb c "0" = false ->
  all_digits r = true -> Json.stops rest ->
  Json.int_part (String c r ++ rest)
  = Some (fst (read_digits 0 (String c r)), rest).
Proof.
  intros Hc H0 Hr Hrest. unfold Json.int_part. cbn [append].
  rewrite H0, Hc. f_equal.
  apply (read_digits_app (String c r) rest); [|exact Hrest].
  cbn [all_digits]. rewrite Hc, Hr. reflexivity.
Qed.

Lemma frac_part_dot (fd rest : string) :
  all_digits fd = true -> fd <> "" -> Json.stops rest ->
  Json.frac_part (String "." (fd ++ rest)) = Some (fd, rest).
Proof.
  intros Hfd Hne Hrest. unfold Json.frac_part. cbn [Json.head_is].
  change (Ascii.eqb "." ".") with true. cbv beta iota.
  rewrite (span_digits_app fd rest Hfd Hrest).
  destruct fd; [contradiction | reflexivity].
Qed.


Lemma exp_part_e (e : Z) (rest : string) :
  Json.stops rest ->
  Json.exp_part
    (String "e" ((if e <? 0 then "-" else "+") ++ digits (Z.abs e) ++ rest))
  = Some (e, rest).
Proof.
  intros Hrest. unfold Json.exp_part.
  change (Ascii.eqb "e" "e" || Ascii.eqb "e" "E") with true. cbv beta iota.
  pose proof (all_digits_digits (Z.abs e) ltac:(lia)) as Hd.
  pose proof (digits_nonempty (Z.abs e) ltac:(lia)) as Hne.
  pose proof (read_digits_value (Z.abs e) ltac:(lia)) as Hval.
  destruct (e <? 0) eqn:Hneg; cbn [append];
    rewrite (span_digits_app _ rest Hd Hrest);
    destruct (digits (Z.abs e)) as [|c r] eqn:E; try contradiction;
    rewrite Hval; f_equal; f_equal;
    [apply Z.ltb_lt in Hneg | apply Z.ltb_ge in Hneg]; lia.
Qed.

(** A literal is the value of its parts. *)
Lemma parse_number_parts
  (neg : bool) (body : string) (i e : Z) (r1 fd r2 rest : string) :
  Json.head_is "-" body = None ->
  Json.int_part body = Some (i, r1) ->
  Json.frac_part r1 = Some (fd, r2) ->
  Json.exp_part r2 = Some (e, rest) ->
  Json.parse_number ((if neg then "-" else "") ++ body)
  = Some (make_number (if neg then - fst (read_digits i fd)
                       else fst (read_digits i fd))
                      (Z.of_nat (String.length fd) - e), rest).
Proof.
  intros Hhead Hint Hfrac Hexp. unfold Json.parse_number.
  destruct neg; cbn [append Json.head_is].
  - change (Ascii.eqb "-" "-") with true. cbv beta iota.
    rewrite Hint, Hfrac, Hexp. reflexivity.
  - rewrite Hhead, Hint, Hfrac, Hexp. reflexivity.
Qed.

Lemma make_number_dec (m : Z) (k : positive) :
  m mod 10 <> 0 -> make_number m (Z.pos k) = JDec m k.
Proof.
  intros Hm. unfold make_number.
  assert (Hz : (m =? 0) = false).
  { apply Z.eqb_neq. intros ->. apply Hm. reflexivity. }
  rewrite Hz. cbn [Z.leb Z.compare].
  change (Z.to_nat (Z.pos k)) with (Pos.to_nat k).
  destruct (Pos2Nat.is_succ k) as [j ->]. cbn [normalize].
  apply Z.eqb_neq in Hm. rewrite Hm.
  change (0 <? Z.pos k) with true. reflexivity.
Qed.

Lemma make_number_scaled (m j : Z) :
  m <> 0 -> 0 <= j -> make_number m (- j) = JNum (m * 10 ^ j).
Proof.
  intros Hm Hj. unfold make_number.
  apply Z.eqb_neq in Hm. rewrite Hm.
  assert (Hle : (- j <=? 0) = true) by (apply Z.leb_le; lia).
  rewrite Hle, Z.opp_involutive. reflexivity.
Qed.

Lemma stops_mark (c : ascii) (r : string) :
  is_digit c = false -> Json.stops (String c r).
Proof. intros H c' r' E. injection E as <- <-. exact H. Qed.

Lemma number_end_stops (rest : string) :
  Json.number_end rest = true -> Json.stops rest.
Proof. intros H. destruct (number_end_stop rest H) as [H' _]. exact H'. Qed.

(** *** The exponent form *)

Lemma exponent_form_parts (c : ascii) (r rest : string) (n : Z) :
  is_digit c = true -> Ascii.eqb c "0" = false ->
  all_digits r = true -> Json.stops rest ->
  exists r1 r2,
    Json.int_part (exponent_form (String c r) n ++ rest)
    = Some (digit_val c, r1)
    /\ Json.frac_part r1 = Some (r, r2)
    /\ Json.exp_part r2 = Some (n - 1, rest).
Proof.
  intros Hc H0 Hr Hrest. unfold exponent_form.
  set (tail := (if n - 1 <? 0 then "-" else "+") ++ digits (Z.abs (n - 1))).
  assert (Hexp : Json.exp_part (String "e" (tail ++ rest)) = Some (n - 1, rest)).
  { unfold tail. rewrite append_assoc. apply exp_part_e, Hrest. }
  assert (Hstop : Json.stops (String "e" (tail ++ rest)))
    by (apply stops_mark; reflexivity).
  destruct r as [|c' r'].
  - exists (String "e" (tail ++ rest)), (String "e" (tail ++ rest)).
    split; [|split; [reflexivity | exact Hexp]].
    pose proof (int_part_nonzero c "" _ Hc H0 eq_refl Hstop) as H.
    cbn [append read_digits fst] in H. rewrite Hc in H.
    cbn [read_digits fst] in H. cbn [append]. exact H.
  - exists (String "." (String c' r' ++ String "e" (tail ++ rest))),
           (String "e" (tail ++ rest)).
    split; [|split; [|exact Hexp]].
    + assert (Hdot : Json.stops (String "." (String c' r' ++ String "e" (tail ++ rest))))
        by (apply stops_mark; reflexivity).
      pose proof (int_part_nonzero c "" _ Hc H0 eq_refl Hdot) as H.
      cbn [append read_digits fst] in H. rewrite Hc in H.
      cbn [read_digits fst] in H. cbn [append].
      rewrite append_assoc. cbn [append]. exact H.
    + apply frac_part_dot; [exact Hr | discriminate | exact Hstop].
Qed.

(** *** The decimal form *)

Lemma head_is_digit (c : ascii) (r : string) :
  is_digit c = true -> Json.head_is "-" (String c r) = None.
Proof.
  intros Hc. cbn [Json.head_is].
  destruct (digit_is_no_mark c Hc) as (Hm & _). rewrite Hm. reflexivity.
Qed.

Lemma decimal_form_parts (M n : Z) (rest : string) :
  0 < M -> n < Z.of_nat (String.length (digits M)) ->
  Json.number_end rest = true ->
  exists i r1 fd r2 e,
    Json.head_is "-" (decimal_form (digits M) n ++ rest) = None
    /\ Json.int_part (decimal_form (digits M) n ++ rest) = Some (i, r1)
    /\ Json.frac_part r1 = Some (fd, r2)
    /\ Json.exp_part r2 = Some (e, rest)
    /\ fst (read_digits i fd) = M
    /\ Z.of_nat (String.length fd) - e
       = Z.of_nat (String.length (digits M)) - n.
Proof.
  intros HM Hn Hend.
  destruct (digits_head M HM) as (c & r & E & Hc & H0).
  pose proof (all_digits_digits M ltac:(lia)) as Hall.
  pose proof (read_digits_value M ltac:(lia)) as Hval.
  pose proof (number_end_stops rest Hend) as Hstop.
  destruct (number_tail rest Hend) as [Hfrac0 Hexp0].
  revert Hn Hall Hval. generalize dependent (digits M). intros d -> Hn Hall Hval.
  unfold decimal_form.
  set (L := Z.of_nat (String.length (String c r))) in *.
  assert (C1 : (L <=? n) && (n <=? 21) = false).
  { apply andb_false_iff. left. apply Z.leb_gt. exact Hn. }
  rewrite C1.
  destruct ((0 <? n) && (n <=? 21)) eqn:C2.
  - apply andb_true_iff in C2 as [Hpos _]. apply Z.ltb_lt in Hpos.
    assert (Hlen : (Z.to_nat n <= String.length (String c r))%nat) by lia.
    replace (Z.to_nat (L - n))
      with (String.length (String c r) - Z.to_nat n)%nat by lia.
    pose proof (substring_split _ _ Hlen) as Hsplit.
    destruct (substring_length _ _ Hlen) as [Hla Hlb].
    revert Hsplit Hla Hlb.
    generalize (substring 0 (Z.to_nat n) (String c r)).
    generalize (substring (Z.to_nat n)
                  (String.length (String c r) - Z.to_nat n) (String c r)).
    intros b a Hsplit Hla Hlb.
    destruct a as [|c0 a']; [cbn [String.length] in Hla; lia|].
    cbn [append] in Hsplit. injection Hsplit as -> Hr.
    rewrite <- Hr in Hall, Hval.
    change (String c (a' ++ b)) with (String c a' ++ b) in Hall, Hval.
    rewrite all_digits_app in Hall. apply andb_true_iff in Hall as [Ha Hb].
    cbn [all_digits] in Ha. apply andb_true_iff in Ha as [_ Ha'].
    assert (Hbne : b <> "").
    { intros ->. change (String.length "") with 0%nat in Hlb. lia. }
    exists (fst (read_digits 0 (String c a'))), (String "." (b ++ rest)),
           b, rest, 0.
    split; [|split; [|split; [|split; [|split]]]].
    + cbn [append]. apply head_is_digit, Hc.
    + rewrite append_assoc. cbn [append].
      apply (int_part_nonzero c a' (String "." (b ++ rest)) Hc H0 Ha').
      apply stops_mark. reflexivity.
    + apply frac_part_dot; assumption.
    + exact Hexp0.
    + rewrite <- read_digits_cat; [exact Hval|].
      cbn [all_digits]. rewrite Hc, Ha'. reflexivity.
    + lia.
  - destruct ((-6 <? n) && (n <=? 0)) eqn:C3.
    + apply andb_true_iff in C3 as [_ Hle]. apply Z.leb_le in Hle.
      set (zs := Text.repeat_char "0" (Z.to_nat (- n))).
      exists 0, (String "." ((zs ++ String c r) ++ rest)), (zs ++ String c r),
             rest, 0.
      split; [reflexivity|]. split; [reflexivity|]. split; [|split; [|split]].
      * apply frac_part_dot; [|destruct zs; discriminate | exact Hstop].
        rewrite all_digits_app. unfold zs. rewrite all_digits_zeros. exact Hall.
      * exact Hexp0.
      * rewrite read_digits_cat by apply all_digits_zeros.
        unfold zs. rewrite read_digits_zeros. exact Hval.
      * rewrite length_append. unfold zs.
        assert (Hz : forall j, String.length (Text.repeat_char "0" j) = j).
        { induction j as [|j IH]; [reflexivity|]. cbn. rewrite IH. reflexivity. }
        rewrite Hz. fold L. lia.
    + cbn [all_digits] in Hall. apply andb_true_iff in Hall as [_ Hr].
      destruct (exponent_form_parts c r rest n Hc H0 Hr Hstop)
        as (r1 & r2 & Hint & Hfrac & Hexp).
      exists (digit_val c), r1, r, r2, (n - 1).
      split; [|split; [|split; [|split; [|split]]]]; try assumption.
      * unfold exponent_form. destruct r; cbn [append]; apply head_is_digit, Hc.
      * cbn [read_digits] in Hval. rewrite Hc in Hval. exact Hval.
      * unfold L. cbn [String.length]. lia.
Qed.

Lemma sign_value (m : Z) :
  (if m <? 0 then - Z.abs m else Z.abs m) = m.
Proof. destruct (Z.ltb_spec m 0); lia. Qed.

(** The literal of a decimal is read back. *)
Lemma parse_number_dec (m : Z) (k : positive) (rest : string) :
  m mod 10 <> 0 -> Json.number_end rest = true ->
  Json.parse_number (dec_to_string m k ++ rest) = Some (JDec m k, rest).
Proof.
  intros Hm Hend. unfold dec_to_string, sign_prefix.
  assert (HM : 0 < Z.abs m).
  { destruct (Z.eq_dec m 0) as [->|]; [exfalso; apply Hm; reflexivity | lia]. }
  destruct (decimal_form_parts (Z.abs m)
              (Z.of_nat (String.length (digits (Z.abs m))) - Z.pos k) rest)
    as (i & r1 & fd & r2 & e & Hhead & Hint & Hfrac & Hexp & Hval & Hk);
    [exact HM | lia | exact Hend |].
  rewrite append_assoc.
  rewrite (parse_number_parts _ _ i e r1 fd r2 rest Hhead Hint Hfrac Hexp).
  rewrite Hval, Hk, sign_value.
  replace (_ - _) with (Z.pos k) by lia.
  rewrite (make_number_dec m k Hm). reflexivity.
Qed.

(** *** Trailing zeros *)

Lemma rev_string_rev (s : string) :
  forall acc acc', rev_string (rev_string s acc) acc' = rev_string acc (s ++ acc').
Proof.
  induction s as [|c s IH]; intros acc acc'; [reflexivity|].
  cbn [rev_string append]. rewrite IH. reflexivity.
Qed.

Lemma rev_string_app (a b : string) :
  forall acc, rev_string (a ++ b) acc = rev_string b (rev_string a acc).
Proof.
  induction a as [|c a IH]; intros acc; [reflexivity|].
  cbn [append rev_string]. apply IH.
Qed.

Lemma rev_string_acc (s : string) :
  forall acc, rev_string s acc = rev_string s "" ++ acc.
Proof.
  induction s as [|c s IH]; intros acc; [reflexivity|].
  cbn [rev_string]. rewrite (IH (String c acc)), (IH (String c "")).
  rewrite append_assoc. reflexivity.
Qed.

Lemma zeros_snoc (j : nat) (x : string) :
  Text.repeat_char "0" j ++ String "0" x = String "0" (Text.repeat_char "0" j ++ x).
Proof.
  induction j as [|j IH]; [reflexivity|].
  cbn [Text.repeat_char append]. rewrite IH. reflexivity.
Qed.

Lemma rev_string_zeros (j : nat) :
  forall acc, rev_string (Text.repeat_char "0" j) acc = Text.repeat_char "0" j ++ acc.
Proof.
  induction j as [|j IH]; intros acc; [reflexivity|].
  cbn [Text.repeat_char rev_string]. rewrite IH, zeros_snoc. reflexivity.
Qed.

Lemma strip_zeros_rev_spec (u : string) :
  exists j, u = Text.repeat_char "0" j ++ strip_zeros_rev u.
Proof.
  induction u as [|c u (j & IH)]; [exists 0%nat; reflexivity|].
  destruct (Ascii.eqb_spec c "0") as [->|Hc].
  - exists (S j). cbn [strip_zeros_rev Text.repeat_char append].
    rewrite <- IH. reflexivity.
  - exists 0%nat. cbn [Text.repeat_char append].
    destruct c as [[|] [|] [|] [|] [|] [|] [|] [|]];
      try reflexivity; contradiction Hc; reflexivity.
Qed.

(** What [strip_trailing_zeros] takes away. *)
Lemma strip_trailing_zeros_spec (s : string) :
  exists j, s = strip_trailing_zeros s ++ Text.repeat_char "0" j.
Proof.
  unfold strip_trailing_zeros.
  destruct (strip_zeros_rev_spec (rev_string s "")) as (j & Hj).
  exists j.
  pose proof (rev_string_rev s "" "") as Hs.
  rewrite append_nil_r in Hs. cbn [rev_string] in Hs.
  rewrite <- Hs at 1. rewrite Hj at 1.
  rewrite rev_string_app, rev_string_zeros, append_nil_r.
  apply rev_string_acc.
Qed.

(** *** Integers *)

Lemma zeros_length (j : nat) : String.length (Text.repeat_char "0" j) = j.
Proof. induction j as [|j IH]; [reflexivity|]. cbn. rewrite IH. reflexivity. Qed.

(** The literal of an integer is read back. *)
Lemma parse_number_integer (z : Z) (rest : string) :
  Json.number_end rest = true ->
  Json.parse_number (int_to_string z ++ rest) = Some (JNum z, rest).
Proof.
  intros Hend. unfold int_to_string, sign_prefix. rewrite append_assoc.
  pose proof (number_end_stops rest Hend) as Hstop.
  destruct (number_tail rest Hend) as [Hfrac0 Hexp0].
  destruct (Nat.leb (String.length (digits (Z.abs z))) 21) eqn:Hlen.
  - assert (Hhead : Json.head_is "-" (digits (Z.abs z) ++ rest) = None).
    { destruct (Z.eq_dec z 0) as [->|Hnz]; [reflexivity|].
      destruct (digits_head (Z.abs z) ltac:(lia)) as (c & r & E & Hc & _).
      rewrite E. apply head_is_digit, Hc. }
    rewrite (parse_number_parts _ _ (Z.abs z) 0 rest "" rest rest Hhead
               (int_part_digits _ rest (Z.abs_nonneg z) Hend) Hfrac0 Hexp0).
    cbn [read_digits fst String.length]. rewrite sign_value, make_number_int.
    reflexivity.
  - apply Nat.leb_gt in Hlen.
    assert (HM : 0 < Z.abs z).
    { destruct (Z.eq_dec z 0) as [->|]; [|lia].
      change (String.length (digits (Z.abs 0))) with 1%nat in Hlen. lia. }
    destruct (digits_head _ HM) as (c & r & E & Hc & H0).
    pose proof (all_digits_digits _ (Z.abs_nonneg z)) as Hall.
    pose proof (read_digits_value _ (Z.abs_nonneg z)) as Hval.
    destruct (strip_trailing_zeros_spec (digits (Z.abs z))) as (j & Hj).
    revert Hj Hval Hall. generalize (strip_trailing_zeros (digits (Z.abs z))).
    rewrite E. intros t Ht Hval Hall. clear Hlen.
    destruct t as [|c0 r'].
    { destruct j as [|j]; [discriminate Ht|].
      cbn [append Text.repeat_char] in Ht. injection Ht as -> _.
      discriminate H0. }
    cbn [append] in Ht. injection Ht as <- Hr.
    assert (Hall' : all_digits (String c r' ++ Text.repeat_char "0" j) = true).
    { cbn [append]. rewrite <- Hr. exact Hall. }
    rewrite all_digits_app in Hall'. apply andb_true_iff in Hall' as [Ht _].
    assert (Hval' : fst (read_digits 0 (String c r')) * 10 ^ Z.of_nat j = Z.abs z).
    { rewrite <- read_digits_zeros, <- read_digits_cat by exact Ht.
      cbn [append]. rewrite <- Hr. exact Hval. }
    cbn [all_digits] in Ht. apply andb_true_iff in Ht as [_ Hr'].
    destruct (exponent_form_parts c r' rest
                (Z.of_nat (String.length (String c r))) Hc H0 Hr' Hstop)
      as (r1 & r2 & Hint & Hfrac & Hexp).
    assert (Hhead : Json.head_is "-"
                      (exponent_form (String c r')
                         (Z.of_nat (String.length (String c r))) ++ rest) = None).
    { unfold exponent_form. destruct r'; cbn [append]; apply head_is_digit, Hc. }
    rewrite (parse_number_parts _ _ _ _ r1 r' r2 rest Hhead Hint Hfrac Hexp).
    assert (Hread : fst (read_digits (digit_val c) r')
                    = fst (read_digits 0 (String c r'))).
    { cbn [read_digits]. rewrite Hc. reflexivity. }
    rewrite Hread.
    assert (Hk : Z.of_nat (String.length r')
                 - (Z.of_nat (String.length (String c r)) - 1) = - Z.of_nat j).
    { cbn [String.length]. rewrite Hr, length_append, zeros_length. lia. }
    assert (Hnz : fst (read_digits 0 (String c r')) <> 0).
    { intros Ez. rewrite Ez in Hval'. lia. }
    rewrite Hk, make_number_scaled by (destruct (z <? 0); lia).
    do 3 f_equal. destruct (Z.ltb_spec z 0); lia.
Qed.

(** The first character of a number literal. *)
Lemma parse_number_head (s : string) (v : value) (rest : string) :
  Json.parse_number s = Some (v, rest) ->
  exists c r, s = String c r /\ (is_digit c = true \/ c = "-"%char).
Proof.
  unfold Json.parse_number. destruct s as [|c r]; [discriminate|].
  intros H. exists c, r. split; [reflexivity|].
  cbn [Json.head_is] in H. destruct (Ascii.eqb_spec c "-") as [->|Hc]; [auto|].
  left. unfold Json.int_part in H.
  destruct (Ascii.eqb_spec c "0") as [->|H0]; [reflexivity|].
  destruct (is_digit c); [reflexivity | discriminate H].
Qed.

Lemma int_to_string_first (z : Z) :
  exists c r, int_to_string z = String c r
              /\ (is_digit c = true \/ c = "-"%char).
Proof.
  apply (parse_number_head _ (JNum z) "").
  rewrite <- (append_nil_r (int_to_string z)).
  apply parse_number_integer. reflexivity.
Qed.

Lemma dec_to_string_first (m : Z) (k : positive) :
  m mod 10 <> 0 ->
  exists c r, dec_to_string m k = String c r
              /\ (is_digit c = true \/ c = "-"%char).
Proof.
  intros Hm. apply (parse_number_head _ (JDec m k) "").
  rewrite <- (append_nil_r (dec_to_string m k)).
  apply parse_number_dec; [exact Hm | reflexivity].
Qed.

(** ** String literals *)

Lemma parse_string_step (c : ascii) (tail : string) :
  Json.parse_string Json.Plain None (Json.escape_char c ++ tail)
  = Json.emit (String c "") (Json.parse_string Json.Plain None tail).
Proof.
  destruct c as [[|] [|] [|] [|] [|] [|] [|] [|]]; reflexivity.
Qed.

Lemma parse_string_escape (s rest : string) :
  Json.parse_string Json.Plain None (Json.escape s ++ String Json.dquote rest)
  = Some (s, rest).
Proof.
  induction s as [|c s IH]; [reflexivity|].
  cbn [Json.escape]. rewrite append_assoc, parse_string_step, IH.
  reflexivity.
Qed.

(** ** UTF-8 *)

(** A byte that is not in error is passed on, at once or with the
    sequence it belongs to. *)
Lemma step_clean (st : Utf8.state) (b : ascii) :
  Utf8.clean st b = true ->
  fst (Utf8.step st b) ++ Utf8.held (snd (Utf8.step st b)) = Utf8.held st ++ String b "".
Proof.
  destruct st as [|needed lower upper pending].
  - destruct b as [[|] [|] [|] [|] [|] [|] [|] [|]]; intros H;
      try discriminate H; reflexivity.
  - simpl. intros H. rewrite H.
    destruct needed as [|[|n]]; simpl; rewrite ?append_nil_r; reflexivity.
Qed.

Lemma run_clean (s : string) :
  forall st, Utf8.final st s = Some Utf8.Start -> Utf8.run st s = Utf8.held st ++ s.
Proof.
  induction s as [|b s IH]; intros st H; simpl in *.
  - injection H as ->. reflexivity.
  - destruct (Utf8.clean st b) eqn:Hc; [|discriminate].
    pose proof (step_clean st b Hc) as E.
    destruct (Utf8.step st b) as [out st1]. simpl in *.
    rewrite (IH st1 H), <- append_assoc, E, append_assoc. reflexivity.
Qed.

(** Decoding leaves well-formed text as it is. *)
Lemma decode_well_formed (s : string) :
  Utf8.well_formed s = true -> Utf8.decode s = s.
Proof.
  unfold Utf8.well_formed, Utf8.decode. intros H.
  destruct (Utf8.final Utf8.Start s) as [[|]|] eqn:E; try discriminate.
  apply (run_clean s Utf8.Start E).
Qed.

Lemma final_app (a b : string) :
  forall st,
    Utf8.final st (a ++ b)
    = match Utf8.final st a with
      | Some st' => Utf8.final st' b
      | None => None
      end.
Proof.
  induction a as [|c a IH]; intros st; simpl; [reflexivity|].
  destruct (Utf8.clean st c); [apply IH | reflexivity].
Qed.

Lemma transparent_nil : Utf8.transparent "".
Proof. intros t. reflexivity. Qed.

Lemma transparent_app (a b : string) :
  Utf8.transparent a -> Utf8.transparent b -> Utf8.transparent (a ++ b).
Proof. intros Ha Hb t. rewrite append_assoc, Ha, Hb. reflexivity. Qed.

Lemma transparent_well_formed (a : string) :
  Utf8.transparent a <-> Utf8.well_formed a = true.
Proof.
  unfold Utf8.well_formed. split.
  - intros H. specialize (H ""). rewrite append_nil_r in H. rewrite H.
    reflexivity.
  - intros H t. rewrite final_app.
    destruct (Utf8.final Utf8.Start a) as [[|]|]; try discriminate.
    reflexivity.
Qed.

Lemma transparent_ascii (a : string) : Utf8.all_ascii a = true -> Utf8.transparent a.
Proof.
  induction a as [|c a IH]; simpl; intros H t; [reflexivity|].
  apply andb_true_iff in H as [Hc Ha].
  cbn [append Utf8.final Utf8.clean Utf8.step]. unfold Utf8.start.
  rewrite Hc. cbn [orb snd]. apply IH, Ha.
Qed.

Lemma all_ascii_app (a b : string) :
  Utf8.all_ascii (a ++ b) = Utf8.all_ascii a && Utf8.all_ascii b.
Proof.
  induction a as [|c a IH]; simpl; [reflexivity|].
  rewrite IH, andb_assoc. reflexivity.
Qed.

(** *** Number literals are ASCII text *)

Lemma all_ascii_substring (s : string) :
  Utf8.all_ascii s = true ->
  forall i j, Utf8.all_ascii (substring i j s) = true.
Proof.
  induction s as [|c s IH]; intros Hs i j.
  - destruct i, j; reflexivity.
  - cbn [Utf8.all_ascii] in Hs. apply andb_true_iff in Hs as [Hc Hs].
    destruct i as [|i]; [destruct j as [|j]|]; cbn [substring];
      [reflexivity | | apply IH, Hs].
    cbn [Utf8.all_ascii]. rewrite Hc, (IH Hs). reflexivity.
Qed.

Lemma all_ascii_zeros (j : nat) : Utf8.all_ascii (Text.repeat_char "0" j) = true.
Proof. apply all_digits_ascii, all_digits_zeros. Qed.

Lemma all_ascii_exponent_form (s : string) (n : Z) :
  Utf8.all_ascii s = true -> Utf8.all_ascii (exponent_form s n) = true.
Proof.
  intros Hs. unfold exponent_form. rewrite !all_ascii_app.
  assert (Hdig : Utf8.all_ascii (digits (Z.abs (n - 1))) = true)
    by (apply all_digits_ascii, all_digits_digits; lia).
  rewrite Hdig.
  assert (Hsign : Utf8.all_ascii (if n - 1 <? 0 then "-" else "+") = true)
    by (destruct (n - 1 <? 0); reflexivity).
  rewrite Hsign, !andb_true_r.
  destruct s as [|c [|c' r]]; exact Hs.
Qed.

Lemma all_ascii_decimal_form (d : string) (n : Z) :
  Utf8.all_ascii d = true -> Utf8.all_ascii (decimal_form d n) = true.
Proof.
  intros Hd. unfold decimal_form.
  destruct (_ && _).
  { rewrite all_ascii_app, Hd. apply all_ascii_zeros. }
  destruct (_ && _).
  { rewrite !all_ascii_app, !all_ascii_substring by exact Hd. reflexivity. }
  destruct (_ && _).
  { rewrite !all_ascii_app, all_ascii_zeros, Hd. reflexivity. }
  apply all_ascii_exponent_form, Hd.
Qed.

Lemma all_ascii_sign (z : Z) : Utf8.all_ascii (sign_prefix z) = true.
Proof. unfold sign_prefix. destruct (z <? 0); reflexivity. Qed.

Lemma all_ascii_integer (z : Z) : Utf8.all_ascii (int_to_string z) = true.
Proof.
  unfold int_to_string. rewrite all_ascii_app, all_ascii_sign.
  pose proof (all_digits_digits _ (Z.abs_nonneg z)) as Hall.
  destruct (Nat.leb _ 21); [apply all_digits_ascii, Hall|].
  apply all_ascii_exponent_form, all_digits_ascii.
  destruct (strip_trailing_zeros_spec (digits (Z.abs z))) as (j & Hj).
  rewrite Hj, all_digits_app in Hall. apply andb_true_iff in Hall. tauto.
Qed.

Lemma all_ascii_dec (m : Z) (k : positive) :
  Utf8.all_ascii (dec_to_string m k) = true.
Proof.
  unfold dec_to_string. rewrite all_ascii_app, all_ascii_sign.
  apply all_ascii_decimal_form, all_digits_ascii, all_digits_digits, Z.abs_nonneg.
Qed.



Lemma step_sane (st : Utf8.state) (b : ascii) : Utf8.sane (snd (Utf8.step st b)).
Proof.
  assert (Hstart : Utf8.sane (snd (Utf8.start b))).
  { unfold Utf8.start.
    destruct (N_of_ascii b <? 128)%N; [exact I|].
    destruct (Utf8.in_range 194 223 b); [simpl; lia|].
    destruct (Utf8.in_range 224 239 b);
      [simpl; destruct (N_of_ascii b =? 224)%N; lia|].
    destruct (Utf8.in_range 240 244 b);
      [simpl; destruct (N_of_ascii b =? 240)%N; lia|].
    exact I. }
  destruct st as [|needed lower upper pending]; [exact Hstart|].
  simpl. destruct (Utf8.in_range lower upper b).
  - destruct needed as [|[|n]]; simpl; try exact I; lia.
  - destruct (Utf8.start b). exact Hstart.
Qed.

(** An escaped character is ASCII text, and a byte of a longer sequence
    is written as it is. *)
Lemma escape_char_cases (c : ascii) :
  ((N_of_ascii c <? 128)%N = true /\ Utf8.all_ascii (Json.escape_char c) = true)
  \/ ((N_of_ascii c <? 128)%N = false /\ Json.escape_char c = String c "").
Proof.
  destruct c as [[|] [|] [|] [|] [|] [|] [|] [|]];
    first [left; split; reflexivity | right; split; reflexivity].
Qed.

Lemma final_escape (s : string) :
  forall st, Utf8.sane st ->
    Utf8.final st s = Some Utf8.Start ->
    Utf8.final st (Json.escape s) = Some Utf8.Start.
Proof.
  induction s as [|c s IH]; intros st Hsane H; [exact H|].
  cbn [Json.escape]. simpl in H.
  destruct (Utf8.clean st c) eqn:Hc; [|discriminate].
  destruct (escape_char_cases c) as [[Hlow Hesc] | [Hhigh Hesc]].
  - destruct st as [|needed lower upper pending].
    + rewrite (transparent_ascii _ Hesc).
      apply (IH Utf8.Start I).
      simpl in H. unfold Utf8.start in H. rewrite Hlow in H. exact H.
    + exfalso. simpl in Hc, Hsane. unfold Utf8.in_range in Hc.
      apply andb_true_iff in Hc as [Hc _].
      apply N.leb_le in Hc. apply N.ltb_lt in Hlow. lia.
  - rewrite Hesc. cbn [append Utf8.final]. rewrite Hc.
    apply IH; [apply step_sane | exact H].
Qed.

Lemma transparent_escape (s : string) :
  Utf8.well_formed s = true -> Utf8.transparent (Json.escape s).
Proof.
  intros H. apply transparent_well_formed.
  unfold Utf8.well_formed in *.
  destruct (Utf8.final Utf8.Start s) as [[|]|] eqn:E; try discriminate.
  rewrite (final_escape s Utf8.Start I E). reflexivity.
Qed.

(** ** Objects in enumeration order *)


(** A name that follows plain names is a plain name. *)
Lemma names_ok_mid (pre : list string) (k : string) (rest : list string) :
  names_ok (pre ++ k :: rest) = true ->
  array_index k = None /\ existsb (fun k' => String.eqb k' k) pre = false.
Proof.
  induction pre as [|k0 pre IH]; simpl.
  - destruct (array_index k); [discriminate | auto].
  - destruct (array_index k0); [discriminate|]. intros H.
    apply andb_true_iff in H as [Hk0 Hrest].
    destruct (IH Hrest) as [Hk Hpre]. split; [exact Hk|].
    rewrite Hpre, orb_false_r.
    apply negb_true_iff in Hk0. rewrite existsb_app in Hk0.
    apply orb_false_iff in Hk0 as [_ Hk0]. simpl in Hk0.
    apply orb_false_iff in Hk0 as [Hk0 _]. exact Hk0.
Qed.

(** An index that follows other keys is above the bound and above every
    key before it. *)
Lemma keys_ok_mid (pre : list string) (k : string) (rest : list string) :
  forall low,
    keys_ok low (pre ++ k :: rest) = true ->
    existsb (fun k' => String.eqb k' k) pre = false
    /\ forall n, array_index k = Some n ->
         low < n
         /\ forallb (fun k' => match array_index k' with
                               | Some n' => n' <? n
                               | None => false
                               end) pre = true.
Proof.
  induction pre as [|k0 pre IH]; intros low; simpl.
  - split; [reflexivity|]. intros n Hn. rewrite Hn in H.
    apply andb_true_iff in H as [H _]. apply Z.ltb_lt in H. auto.
  - destruct (array_index k0) as [n0|] eqn:E0.
    + intros H. apply andb_true_iff in H as [Hlow H].
      destruct (IH n0 H) as [Hpre Hidx]. split.
      * rewrite Hpre, orb_false_r. apply String.eqb_neq. intros ->.
        destruct (Hidx n0 E0) as [Hlt _]. lia.
      * intros n Hn. destruct (Hidx n Hn) as [Hlt Hall].
        apply Z.ltb_lt in Hlow. split; [lia|].
        rewrite Hall, andb_true_r. apply Z.ltb_lt. exact Hlt.
    + intros H.
      destruct (names_ok_mid (k0 :: pre) k rest) as [Hk Hpre].
      { simpl. rewrite E0. exact H. }
      split; [exact Hpre|]. intros n Hn. congruence.
Qed.

Lemma obj_get_none (k : string) (o : object) :
  obj_get k o = None <-> existsb (fun k' => String.eqb k' k) (map fst o) = false.
Proof.
  induction o as [|[k0 v0] o IH]; simpl; [tauto|].
  destruct (String.eqb k0 k); simpl; [split; discriminate | exact IH].
Qed.

Lemma obj_insert_index_end (n : Z) (k : string) (v : value) (o : object) :
  forallb (fun k' => match array_index k' with
                     | Some n' => n' <? n
                     | None => false
                     end) (map fst o) = true ->
  obj_insert_index n k v o = (o ++ [(k, v)])%list.
Proof.
  induction o as [|[k0 v0] o IH]; simpl; [reflexivity|].
  intros H. apply andb_true_iff in H as [H0 H].
  destruct (array_index k0); [|discriminate].
  rewrite H0, (IH H). reflexivity.
Qed.

(** Defining a property that comes next in enumeration order puts it at
    the end. *)
Lemma obj_set_next (k : string) (v : value) (o : object) (rest : list string) :
  keys_ok (-1) (map fst o ++ k :: rest) = true ->
  obj_set k v o = (o ++ [(k, v)])%list.
Proof.
  intros H. destruct (keys_ok_mid _ _ _ _ H) as [Hnew Hidx].
  unfold obj_set, obj_has. rewrite (proj2 (obj_get_none k o) Hnew).
  destruct (array_index k) as [n|]; [|reflexivity].
  apply obj_insert_index_end. apply (Hidx n eq_refl).
Qed.

Lemma obj_of_list_ordered_from (l : list (string * value)) :
  forall acc : object,
    keys_ok (-1) (map fst (acc ++ l)%list) = true ->
    fold_left (fun o kv => obj_set (fst kv) (snd kv) o) l acc = (acc ++ l)%list.
Proof.
  induction l as [|[k v] l IH]; intros acc H; simpl.
  - rewrite app_nil_r. reflexivity.
  - rewrite map_app in H. simpl in H.
    rewrite (obj_set_next k v acc (map fst l) H).
    rewrite IH; rewrite <- app_assoc; [reflexivity|].
    rewrite map_app. exact H.
Qed.

(** An object literal that lists its properties in enumeration order is
    the list itself. *)
Lemma obj_of_list_ordered (o : object) :
  ordered o = true -> obj_of_list o = o.
Proof.
  intros H. unfold obj_of_list. apply (obj_of_list_ordered_from o []), H.
Qed.

Lemma map_fst_replace (k : string) (v : value) (o : object) :
  map fst (obj_replace k v o) = map fst o.
Proof.
  induction o as [|[k0 v0] o IH]; simpl; [reflexivity|].
  destruct (String.eqb k0 k); simpl; [reflexivity | rewrite IH; reflexivity].
Qed.

Lemma names_ok_snoc (ks : list string) (k : string) :
  names_ok ks = true -> array_index k = None ->
  existsb (fun k' => String.eqb k' k) ks = false ->
  names_ok (ks ++ [k]) = true.
Proof.
  intros Hks Hk. induction ks as [|k0 ks IH]; simpl; intros Hnew.
  - rewrite Hk. reflexivity.
  - simpl in Hks. destruct (array_index k0); [discriminate|].
    apply andb_true_iff in Hks as [H0 Hks].
    apply orb_false_iff in Hnew as [Hne Hnew].
    rewrite (IH Hks Hnew), andb_true_r.
    apply negb_true_iff. apply negb_true_iff in H0.
    rewrite existsb_app, H0. simpl. rewrite Hne. reflexivity.
Qed.

Lemma keys_ok_snoc (ks : list string) (k : string) :
  forall low,
    keys_ok low ks = true -> array_index k = None ->
    existsb (fun k' => String.eqb k' k) ks = false ->
    keys_ok low (ks ++ [k]) = true.
Proof.
  induction ks as [|k0 ks IH]; intros low Hks Hk Hnew.
  - simpl. rewrite Hk. reflexivity.
  - simpl in *. apply orb_false_iff in Hnew as [Hne Hnew].
    destruct (array_index k0) as [n0|] eqn:E0.
    + apply andb_true_iff in Hks as [Hlow Hks].
      rewrite Hlow, (IH n0 Hks Hk Hnew). reflexivity.
    + pose proof (names_ok_snoc (k0 :: ks) k) as S. simpl in S.
      rewrite E0 in S. apply S; [exact Hks | exact Hk |].
      rewrite Hne, Hnew. reflexivity.
Qed.

(** Setting a property with a plain name keeps an object in order. *)
Lemma ordered_set (k : string) (v : value) (o : object) :
  ordered o = true -> array_index k = None -> ordered (obj_set k v o) = true.
Proof.
  unfold ordered, obj_set, obj_has. intros Ho Hk.
  destruct (obj_get k o) eqn:G.
  - rewrite map_fst_replace. exact Ho.
  - rewrite Hk, map_app. simpl.
    apply keys_ok_snoc; [exact Ho | exact Hk | apply obj_get_none, G].
Qed.

(** ** Values: the text of a value is parsed back *)

(** Induction on a value, with the property for every element of an
    array and every member of an object. *)
Lemma value_induction (P : value -> Prop) :
  P JNull ->
  (forall b, P (JBool b)) ->
  (forall z, P (JNum z)) ->
  (forall m k, P (JDec m k)) ->
  (forall s, P (JStr s)) ->
  (forall l, Forall P l -> P (JArr l)) ->
  (forall o, Forall (fun kv => P (snd kv)) o -> P (JObj o)) ->
  (forall x, P (JNonFinite x)) ->
  forall v, P v.
Proof.
  intros Hnull Hbool Hnum Hdec Hstr Harr Hobj Hnon.
  fix IH 1. intros [| b | z | m k | s | l | o | x].
  - exact Hnull.
  - apply Hbool.
  - apply Hnum.
  - apply Hdec.
  - apply Hstr.
  - apply Harr. induction l as [|x l IHl]; constructor; [apply IH | exact IHl].
  - apply Hobj. induction o as [|[k x] o IHo]; constructor;
      [apply IH | exact IHo].
  - apply Hnon.
Qed.

Lemma serialize_array (gap indent : string) (l : list value) :
  Json.serialize gap indent (JArr l)
  = Json.wrap "[" "]" gap indent (map (Json.serialize gap (indent ++ gap)) l).
Proof.
  reflexivity.
Qed.

Lemma serialize_object (gap indent : string) (o : object) :
  Json.serialize gap indent (JObj o)
  = Json.wrap "{" "}" gap indent (map (Json.member_text gap (indent ++ gap)) o).
Proof.
  cbn [Json.serialize]. f_equal.
  induction o as [|[k x] o IH]; [reflexivity | rewrite IH; reflexivity].
Qed.

Lemma serializable_array (l : list value) :
  Json.serializable (JArr l) = forallb Json.serializable l.
Proof.
  cbn [Json.serializable].
  induction l as [|x l IH]; [reflexivity | rewrite IH; reflexivity].
Qed.

Lemma serializable_object (o : object) :
  Json.serializable (JObj o)
  = ordered o
    && forallb (fun kv => Utf8.well_formed (fst kv) && Json.serializable (snd kv)) o.
Proof.
  cbn [Json.serializable]. f_equal.
  induction o as [|[k x] o IH]; [reflexivity | rewrite IH; reflexivity].
Qed.

Lemma size_array (l : list value) : Json.size (JArr l) = S (Json.sizes l).
Proof.
  reflexivity.
Qed.

Lemma size_object (o : object) : Json.size (JObj o) = S (Json.sizes (map snd o)).
Proof.
  cbn [Json.size]. f_equal.
  induction o as [|[k x] o IH]; [reflexivity|].
  cbn [map snd Json.sizes]. rewrite <- IH. reflexivity.
Qed.

Lemma size_pos (v : value) : (1 <= Json.size v)%nat.
Proof. destruct v; simpl; lia. Qed.

(** *** White space and first characters *)

Lemma skip_ws_app (ws s : string) :
  Json.all_ws ws = true -> Json.skip_ws (ws ++ s) = Json.skip_ws s.
Proof.
  induction ws as [|c ws IH]; simpl; intros H; [reflexivity|].
  apply andb_true_iff in H as [Hc Hws]. rewrite Hc. auto.
Qed.

Lemma all_ws_app (a b : string) :
  Json.all_ws (a ++ b) = Json.all_ws a && Json.all_ws b.
Proof.
  induction a as [|c a IH]; simpl; [reflexivity|].
  rewrite IH, andb_assoc. reflexivity.
Qed.

Lemma all_ws_break (gap indent : string) :
  Json.all_ws indent = true -> Json.all_ws (Json.break gap indent) = true.
Proof.
  intros H. unfold Json.break. destruct gap; [reflexivity|].
  simpl. exact H.
Qed.

Lemma value_start_marks (c : ascii) :
  Json.value_start c = true ->
  Json.is_ws c = false /\ Ascii.eqb c "]" = false /\ Ascii.eqb c "}" = false.
Proof.
  destruct c as [[|] [|] [|] [|] [|] [|] [|] [|]]; intros H;
    try discriminate H; repeat split; reflexivity.
Qed.

Lemma ws_is_no_number (c : ascii) :
  Json.is_ws c = true ->
  is_digit c || Ascii.eqb c "." || Ascii.eqb c "e" || Ascii.eqb c "E" = false.
Proof.
  destruct c as [[|] [|] [|] [|] [|] [|] [|] [|]]; intros H;
    try discriminate H; reflexivity.
Qed.

(** After a value comes white space and a mark, where no number goes on. *)
Lemma number_end_ws (ws : string) (mark : ascii) (rest : string) :
  Json.all_ws ws = true ->
  is_digit mark || Ascii.eqb mark "." || Ascii.eqb mark "e" || Ascii.eqb mark "E"
  = false ->
  Json.number_end (ws ++ String mark rest) = true.
Proof.
  destruct ws as [|c ws]; simpl; intros H Hmark.
  - rewrite Hmark. reflexivity.
  - apply andb_true_iff in H as [Hc _].
    rewrite (ws_is_no_number c Hc). reflexivity.
Qed.

Lemma wrap_cons (opening closing gap indent x : string) (l : list string) :
  Json.wrap opening closing gap indent (x :: l)
  = opening ++ Json.break gap (indent ++ gap)
      ++ Json.join (String "," (Json.break gap (indent ++ gap))) (x :: l)
      ++ Json.break gap indent ++ closing.
Proof. reflexivity. Qed.

(** The text of a value starts with a character that starts no other
    part of a JSON text. *)
Lemma serialize_head (gap indent : string) (v : value) :
  Json.serializable v = true ->
  exists c r, Json.serialize gap indent v = String c r
              /\ Json.value_start c = true.
Proof.
  destruct v as [| [|] | z | m k | s | l | o | x]; intros H;
    try (eexists; eexists; split; [reflexivity | reflexivity]).
  - destruct (int_to_string_first z) as (c & r & E & Hc).
    exists c, r. split; [exact E|]. destruct Hc as [Hc | ->].
    + unfold Json.value_start. rewrite Hc. reflexivity.
    + reflexivity.
  - simpl in H. apply negb_true_iff, Z.eqb_neq in H.
    destruct (dec_to_string_first m k H) as (c & r & E & Hc).
    exists c, r. split; [exact E|]. destruct Hc as [Hc | ->].
    + unfold Json.value_start. rewrite Hc. reflexivity.
    + reflexivity.
  - rewrite serialize_array. destruct l; eexists; eexists;
      (split; [reflexivity | reflexivity]).
  - rewrite serialize_object. destruct o; eexists; eexists;
      (split; [reflexivity | reflexivity]).
Qed.

Lemma parse_value_ws (fuel : nat) (ws s : string) :
  Json.all_ws ws = true ->
  Json.parse_value fuel (ws ++ s) = Json.parse_value fuel s.
Proof.
  intros H. destruct fuel; [reflexivity|].
  cbn [Json.parse_value]. rewrite (skip_ws_app ws s H). reflexivity.
Qed.

Lemma skip_ws_start (c : ascii) (r : string) :
  Json.is_ws c = false -> Json.skip_ws (String c r) = String c r.
Proof. intros H. simpl. rewrite H. reflexivity. Qed.

(** A text that starts like a number is parsed as a number. *)
Lemma parse_value_number (fuel : nat) (c : ascii) (r : string) :
  is_digit c = true \/ c = "-"%char ->
  Json.parse_value (S fuel) (String c r) = Json.parse_number (String c r).
Proof.
  intros [Hc | ->]; [|reflexivity].
  destruct (digit_is_no_mark c Hc)
    as (_ & Hws & Hn & Ht & Hf & Hq & Ha & Ho & _).
  cbn [Json.parse_value]. rewrite (skip_ws_start c r Hws).
  rewrite Hn, Ht, Hf, Hq, Ha, Ho. reflexivity.
Qed.

(** *** Arrays and objects *)

Lemma parse_value_array (fuel : nat) (r : string) :
  Json.parse_value (S fuel) (String "[" r)
  = match Json.head_is "]" (Json.skip_ws r) with
    | Some r' => Some (JArr [], r')
    | None =>
        match Json.parse_elements fuel r with
        | Some (l, r') => Some (JArr l, r')
        | None => None
        end
    end.
Proof. reflexivity. Qed.

Lemma parse_value_object (fuel : nat) (r : string) :
  Json.parse_value (S fuel) (String "{" r)
  = match Json.head_is "}" (Json.skip_ws r) with
    | Some r' => Some (JObj [], r')
    | None =>
        match Json.parse_members fuel r with
        | Some (l, r') => Some (JObj (obj_of_list l), r')
        | None => None
        end
    end.
Proof. reflexivity. Qed.

Lemma parse_value_string (fuel : nat) (r : string) :
  Json.parse_value (S fuel) (String Json.dquote r)
  = match Json.parse_string Json.Plain None r with
    | Some (str, r') => Some (JStr str, r')
    | None => None
    end.
Proof. reflexivity. Qed.

Lemma parse_elements_step (fuel : nat) (s : string) :
  Json.parse_elements (S fuel) s
  = match Json.parse_value fuel s with
    | None => None
    | Some (v, r) =>
        match Json.skip_ws r with
        | String "," r' =>
            match Json.parse_elements fuel r' with
            | Some (l, r'') => Some (v :: l, r'')
            | None => None
            end
        | String "]" r' => Some ([v], r')
        | _ => None
        end
    end.
Proof. reflexivity. Qed.

Lemma parse_members_step (fuel : nat) (ws r : string) :
  Json.all_ws ws = true ->
  Json.parse_members (S fuel) (ws ++ String Json.dquote r)
  = match Json.parse_string Json.Plain None r with
    | None => None
    | Some (k, r1) =>
        match Json.skip_ws r1 with
        | String ":" r2 =>
            match Json.parse_value fuel r2 with
            | None => None
            | Some (v, r3) =>
                match Json.skip_ws r3 with
                | String "," r4 =>
                    match Json.parse_members fuel r4 with
                    | Some (l, r5) => Some ((k, v) :: l, r5)
                    | None => None
                    end
                | String "}" r4 => Some ([(k, v)], r4)
                | _ => None
                end
            end
        | _ => None
        end
    end.
Proof.
  intros H. cbn [Json.parse_members]. rewrite (skip_ws_app _ _ H).
  reflexivity.
Qed.

Lemma join_cons2 (sep x y : string) (l : list string) :
  Json.join sep (x :: y :: l) = x ++ sep ++ Json.join sep (y :: l).
Proof. reflexivity. Qed.

Section Roundtrip.

Variable gap : string.
Hypothesis gap_ws : Json.all_ws gap = true.

Lemma parse_elements_ok (inner sep post : string) :
  Json.all_ws inner = true -> Json.all_ws sep = true -> Json.all_ws post = true ->
  forall l : list value,
    l <> [] ->
    Forall (Json.parses gap) l ->
    forallb Json.serializable l = true ->
    forall (pre rest : string) (fuel : nat),
      Json.all_ws pre = true ->
      (Json.sizes l <= fuel)%nat ->
      Json.parse_elements fuel
        (pre ++ Json.join (String "," sep) (map (Json.serialize gap inner) l)
           ++ post ++ String "]" rest)
      = Some (l, rest).
Proof.
  intros Hinner Hsep Hpost.
  induction l as [|x l IH]; [congruence|].
  intros _ Hall Hser pre rest fuel Hpre Hfuel.
  inversion Hall as [|? ? Hx Hl]; subst.
  cbn [forallb] in Hser. apply andb_true_iff in Hser as [Hsx Hsl].
  destruct fuel as [|fuel]; [simpl in Hfuel; lia|].
  cbn [Json.sizes] in Hfuel.
  rewrite parse_elements_step, parse_value_ws by exact Hpre.
  destruct l as [|y l].
  - cbn [map Json.join].
    rewrite (Hx Hsx inner (post ++ String "]" rest) fuel Hinner ltac:(lia)
               (number_end_ws post "]" rest Hpost eq_refl)).
    rewrite (skip_ws_app _ _ Hpost). reflexivity.
  - cbn [map]. rewrite join_cons2, !append_assoc. cbn [append].
    match goal with
    | |- context [Json.parse_value fuel (_ ++ String "," ?r)] =>
        rewrite (Hx Hsx inner (String "," r) fuel Hinner ltac:(lia) eq_refl);
        change (Json.skip_ws (String "," r)) with (String "," r)
    end.
    specialize (IH ltac:(discriminate) Hl Hsl sep rest fuel Hsep ltac:(lia)).
    cbn [map append] in IH. cbv beta iota. rewrite IH. reflexivity.
Qed.

Lemma member_text_eq (inner : string) (k : string) (x : value) (tail : string) :
  Json.member_text gap inner (k, x) ++ tail
  = String Json.dquote
      (Json.escape k ++ String Json.dquote
         (String ":" (match gap with EmptyString => "" | _ => " " end
                      ++ Json.serialize gap inner x ++ tail))).
Proof.
  unfold Json.member_text, Json.quote, Json.colon. cbn [fst snd append].
  rewrite !append_assoc. cbn [append]. rewrite ?append_assoc. reflexivity.
Qed.

Lemma parse_members_ok (inner sep post : string) :
  Json.all_ws inner = true -> Json.all_ws sep = true -> Json.all_ws post = true ->
  forall o : object,
    o <> [] ->
    Forall (fun kv => Json.parses gap (snd kv)) o ->
    forallb (fun kv => Json.serializable (snd kv)) o = true ->
    forall (pre rest : string) (fuel : nat),
      Json.all_ws pre = true ->
      (Json.sizes (map snd o) <= fuel)%nat ->
      Json.parse_members fuel
        (pre ++ Json.join (String "," sep) (map (Json.member_text gap inner) o)
           ++ post ++ String "}" rest)
      = Some (o, rest).
Proof.
  intros Hinner Hsep Hpost.
  assert (Hpad : Json.all_ws (match gap with EmptyString => "" | _ => " " end)
                 = true) by (destruct gap; reflexivity).
  induction o as [|[k x] o IH]; [congruence|].
  intros _ Hall Hser pre rest fuel Hpre Hfuel.
  inversion Hall as [|? ? Hx Hl]; subst. cbn [snd] in Hx.
  cbn [forallb snd] in Hser. apply andb_true_iff in Hser as [Hsx Hsl].
  destruct fuel as [|fuel]; [simpl in Hfuel; lia|].
  cbn [map snd Json.sizes] in Hfuel.
  destruct o as [|[k' y] o].
  - cbn [map Json.join]. rewrite member_text_eq.
    rewrite (parse_members_step _ _ _ Hpre), parse_string_escape.
    change (Json.skip_ws (String ":" ?r)) with (String ":" r).
    cbv beta iota. rewrite (parse_value_ws _ _ _ Hpad).
    rewrite (Hx Hsx inner (post ++ String "}" rest) fuel Hinner ltac:(lia)
               (number_end_ws post "}" rest Hpost eq_refl)).
    rewrite (skip_ws_app _ _ Hpost). reflexivity.
  - cbn [map]. rewrite join_cons2, !append_assoc. cbn [append].
    rewrite member_text_eq.
    rewrite (parse_members_step _ _ _ Hpre), parse_string_escape.
    change (Json.skip_ws (String ":" ?r)) with (String ":" r).
    cbv beta iota. rewrite (parse_value_ws _ _ _ Hpad).
    match goal with
    | |- context [Json.parse_value fuel (_ ++ String "," ?r)] =>
        rewrite (Hx Hsx inner (String "," r) fuel Hinner ltac:(lia) eq_refl);
        change (Json.skip_ws (String "," r)) with (String "," r)
    end.
    specialize (IH ltac:(discriminate) Hl Hsl sep rest fuel Hsep ltac:(lia)).
    cbn [map append] in IH. cbv beta iota. rewrite IH. reflexivity.
Qed.

(** The first item of a list of texts starts the joined text. *)
Lemma join_head (sep x : string) (l : list string) (tail : string) :
  exists u, Json.join sep (x :: l) ++ tail = x ++ u.
Proof.
  destruct l as [|y l].
  - exists tail. reflexivity.
  - exists (sep ++ Json.join sep (y :: l) ++ tail).
    rewrite join_cons2, !append_assoc. reflexivity.
Qed.

Lemma no_close_ahead (closing : ascii) (ws first u : string) (c : ascii) (r : string) :
  Json.all_ws ws = true -> first = String c r -> Json.value_start c = true ->
  Ascii.eqb c closing = false ->
  Json.head_is closing (Json.skip_ws (ws ++ first ++ u)) = None.
Proof.
  intros Hws -> Hc Hclose. rewrite (skip_ws_app _ _ Hws). cbn [append].
  destruct (value_start_marks c Hc) as (Hnws & _).
  rewrite (skip_ws_start _ _ Hnws). cbn [Json.head_is]. rewrite Hclose.
  reflexivity.
Qed.

(** The text of a value is parsed back wherever it stands. *)
Lemma parse_serialize (v : value) : Json.parses gap v.
Proof.
  induction v as [| b | z | m k | s | l IHl | o IHo | x] using value_induction;
    intros Hser indent rest fuel Hind Hfuel Hend;
    (destruct fuel as [|fuel]; [pose proof (size_pos (JNull)); simpl in Hfuel; lia|]).
  - reflexivity.
  - destruct b; reflexivity.
  - destruct (int_to_string_first z) as (c & r & E & Hc).
    cbn [Json.serialize]. rewrite <- (parse_number_integer z rest Hend).
    rewrite E. cbn [append]. apply parse_value_number, Hc.
  - simpl in Hser. apply negb_true_iff, Z.eqb_neq in Hser.
    destruct (dec_to_string_first m k Hser) as (c & r & E & Hc).
    cbn [Json.serialize]. rewrite <- (parse_number_dec m k rest Hser Hend).
    rewrite E. cbn [append]. apply parse_value_number, Hc.
  - cbn [Json.serialize]. unfold Json.quote. cbn [append].
    rewrite parse_value_string, append_assoc. cbn [append].
    rewrite parse_string_escape. reflexivity.
  - rewrite serializable_array in Hser. rewrite size_array in Hfuel.
    rewrite serialize_array. destruct l as [|x l]; [reflexivity|].
    assert (Hinner : Json.all_ws (indent ++ gap) = true)
      by (rewrite all_ws_app, Hind, gap_ws; reflexivity).
    cbn [map]. rewrite wrap_cons, !append_assoc. cbn [append].
    rewrite parse_value_array.
    assert (Hsx : Json.serializable x = true)
      by (cbn [forallb] in Hser; apply andb_true_iff in Hser; tauto).
    destruct (serialize_head gap (indent ++ gap) x Hsx) as (c & r & E & Hc).
    destruct (join_head (String "," (Json.break gap (indent ++ gap)))
                (Json.serialize gap (indent ++ gap) x)
                (map (Json.serialize gap (indent ++ gap)) l)
                (Json.break gap indent ++ String "]" rest)) as (u & Hu).
    rewrite Hu.
    rewrite (no_close_ahead "]" _ _ u c r
               (all_ws_break gap _ Hinner) E Hc
               (proj1 (proj2 (value_start_marks c Hc)))).
    rewrite <- Hu.
    pose proof (parse_elements_ok _ _ _ Hinner (all_ws_break gap _ Hinner)
                  (all_ws_break gap _ Hind) (x :: l) ltac:(discriminate) IHl
                  Hser _ rest fuel (all_ws_break gap _ Hinner) ltac:(lia))
      as Hel.
    cbn [map] in Hel. rewrite Hel. reflexivity.
  - rewrite serializable_object in Hser.
    apply andb_true_iff in Hser as [Hord Hser].
    rewrite size_object in Hfuel.
    rewrite serialize_object. destruct o as [|[k x] o]; [reflexivity|].
    assert (Hinner : Json.all_ws (indent ++ gap) = true)
      by (rewrite all_ws_app, Hind, gap_ws; reflexivity).
    cbn [map]. rewrite wrap_cons, !append_assoc. cbn [append].
    rewrite parse_value_object.
    destruct (join_head (String "," (Json.break gap (indent ++ gap)))
                (Json.member_text gap (indent ++ gap) (k, x))
                (map (Json.member_text gap (indent ++ gap)) o)
                (Json.break gap indent ++ String "}" rest)) as (u & Hu).
    rewrite Hu.
    rewrite (no_close_ahead "}" _ _ u Json.dquote
               (Json.escape k ++ String Json.dquote ""
                  ++ Json.colon gap ++ Json.serialize gap (indent ++ gap) x)
               (all_ws_break gap _ Hinner));
      [| unfold Json.member_text, Json.quote; cbn [fst snd append];
         rewrite !append_assoc; reflexivity
       | reflexivity | reflexivity].
    rewrite <- Hu.
    assert (Hvals : forallb (fun kv => Json.serializable (snd kv)) ((k, x) :: o)
                    = true).
    { clear - Hser. induction ((k, x) :: o) as [|kv l IH]; [reflexivity|].
      cbn [forallb] in *. apply andb_true_iff in Hser as [H1 H2].
      apply andb_true_iff in H1 as [_ H1]. rewrite H1, (IH H2). reflexivity. }
    pose proof (parse_members_ok _ _ _ Hinner (all_ws_break gap _ Hinner)
                  (all_ws_break gap _ Hind) ((k, x) :: o) ltac:(discriminate)
                  IHo Hvals _ rest fuel (all_ws_break gap _ Hinner) ltac:(lia))
      as Hmem.
    cbn [map] in Hmem. rewrite Hmem.
    rewrite (obj_of_list_ordered _ Hord). reflexivity.
  - discriminate Hser.
Qed.

End Roundtrip.

(** *** The fuel that [JSON.parse] gives is enough *)

Lemma sizes_join (gap inner sep : string) (f : value -> string) (l : list value) :
  Forall (fun x => (Json.size x <= String.length (f x))%nat) l ->
  (1 <= String.length sep)%nat ->
  (Json.sizes l <= String.length (Json.join sep (map f l)) + 1)%nat.
Proof.
  intros Hall Hsep. induction l as [|x l IH]; [simpl; lia|].
  inversion Hall as [|? ? Hx Hl]; subst. specialize (IH Hl).
  destruct l as [|y l].
  - simpl in *. lia.
  - cbn [map]. rewrite join_cons2, !length_append.
    cbn [Json.sizes map] in *. lia.
Qed.

Lemma sizes_join_members (gap inner sep : string) (o : object) :
  Forall (fun kv => (Json.size (snd kv)
                     <= String.length (Json.serialize gap inner (snd kv)))%nat) o ->
  (1 <= String.length sep)%nat ->
  (Json.sizes (map snd o)
   <= String.length (Json.join sep (map (Json.member_text gap inner) o)) + 1)%nat.
Proof.
  intros Hall Hsep. induction o as [|[k x] o IH]; [simpl; lia|].
  inversion Hall as [|? ? Hx Hl]; subst. specialize (IH Hl). cbn [snd] in Hx.
  assert (Hm : (Json.size x
                <= String.length (Json.member_text gap inner (k, x)))%nat).
  { unfold Json.member_text. rewrite !length_append. cbn [snd]. lia. }
  destruct o as [|[k' y] o].
  - cbn [map snd Json.sizes Json.join] in *. lia.
  - cbn [map]. rewrite join_cons2, !length_append.
    cbn [Json.sizes map snd] in *. lia.
Qed.

Lemma size_le_length (gap : string) (v : value) :
  Json.serializable v = true ->
  forall indent, (Json.size v <= String.length (Json.serialize gap indent v))%nat.
Proof.
  induction v as [| b | z | m k | s | l IHl | o IHo | x] using value_induction;
    intros Hser indent.
  - simpl. lia.
  - destruct b; simpl; lia.
  - destruct (int_to_string_first z) as (c & r & E & _).
    cbn [Json.serialize Json.size]. rewrite E. simpl. lia.
  - simpl in Hser. apply negb_true_iff, Z.eqb_neq in Hser.
    destruct (dec_to_string_first m k Hser) as (c & r & E & _).
    cbn [Json.serialize Json.size]. rewrite E. simpl. lia.
  - simpl. lia.
  - rewrite serializable_array in Hser. rewrite size_array, serialize_array.
    destruct l as [|x l]; [simpl; lia|].
    cbn [map]. rewrite wrap_cons, !length_append.
    assert (Hall : Forall (fun x => (Json.size x
                     <= String.length (Json.serialize gap (indent ++ gap) x))%nat)
                     (x :: l)).
    { clear - IHl Hser. induction (x :: l) as [|y l' IH]; constructor.
      - inversion IHl; subst. cbn [forallb] in Hser.
        apply andb_true_iff in Hser as [Hy _]. auto.
      - inversion IHl; subst. cbn [forallb] in Hser.
        apply andb_true_iff in Hser as [_ Hl]. auto. }
    pose proof (sizes_join gap (indent ++ gap)
                  (String "," (Json.break gap (indent ++ gap)))
                  (Json.serialize gap (indent ++ gap)) (x :: l) Hall
                  ltac:(simpl; lia)) as L.
    cbn [map] in L. simpl String.length at 1. simpl (String.length "]"). lia.
  - rewrite serializable_object in Hser.
    apply andb_true_iff in Hser as [_ Hser].
    rewrite size_object, serialize_object.
    destruct o as [|[k x] o]; [simpl; lia|].
    cbn [map]. rewrite wrap_cons, !length_append.
    assert (Hall : Forall (fun kv => (Json.size (snd kv)
                     <= String.length
                          (Json.serialize gap (indent ++ gap) (snd kv)))%nat)
                     ((k, x) :: o)).
    { clear - IHo Hser. induction ((k, x) :: o) as [|kv l' IH]; constructor.
      - inversion IHo; subst. cbn [forallb] in Hser.
        apply andb_true_iff in Hser as [Hy _].
        apply andb_true_iff in Hy as [_ Hy]. auto.
      - inversion IHo; subst. cbn [forallb] in Hser.
        apply andb_true_iff in Hser as [_ Hl]. auto. }
    pose proof (sizes_join_members gap (indent ++ gap)
                  (String "," (Json.break gap (indent ++ gap)))
                  ((k, x) :: o) Hall ltac:(simpl; lia)) as L.
    cbn [map] in L. simpl String.length at 1. simpl (String.length "}"). lia.
  - discriminate Hser.
Qed.

(** [JSON.parse] reads back what [JSON.stringify] writes, with or
    without indentation. *)
Lemma parse_serialize_top (gap : string) (v : value) :
  Json.all_ws gap = true -> Json.serializable v = true ->
  Json.parse (Json.serialize gap "" v) = Return v.
Proof.
  intros Hgap Hser. unfold Json.parse.
  pose proof (parse_serialize gap Hgap v Hser "" "" 
                (S (String.length (Json.serialize gap "" v))) eq_refl) as H.
  rewrite append_nil_r in H. rewrite H; [reflexivity | | reflexivity].
  pose proof (size_le_length gap v Hser ""). lia.
Qed.

Lemma parse_stringify (v : value) :
  Json.serializable v = true -> Json.parse (Json.stringify v) = Return v.
Proof. apply (parse_serialize_top "" v eq_refl). Qed.

Lemma parse_stringify_indented (v : value) :
  Json.serializable v = true ->
  Json.parse (Json.stringify_indented v) = Return v.
Proof. apply (parse_serialize_top "  " v eq_refl). Qed.

(** *** The text of a value is well-formed UTF-8 *)

Lemma ws_is_ascii (c : ascii) :
  Json.is_ws c = true -> (N_of_ascii c <? 128)%N = true.
Proof.
  destruct c as [[|] [|] [|] [|] [|] [|] [|] [|]]; intros H;
    try discriminate H; reflexivity.
Qed.

Lemma all_ws_ascii (s : string) :
  Json.all_ws s = true -> Utf8.all_ascii s = true.
Proof.
  induction s as [|c s IH]; simpl; intros H; [reflexivity|].
  apply andb_true_iff in H as [Hc Hs].
  rewrite (ws_is_ascii c Hc), (IH Hs). reflexivity.
Qed.

Lemma transparent_break (gap indent : string) :
  Json.all_ws indent = true -> Utf8.transparent (Json.break gap indent).
Proof.
  intros H. apply transparent_ascii, all_ws_ascii, all_ws_break, H.
Qed.

Lemma transparent_join (sep : string) (l : list string) :
  Utf8.transparent sep -> Forall Utf8.transparent l ->
  Utf8.transparent (Json.join sep l).
Proof.
  intros Hsep Hall. induction l as [|x l IH]; [apply transparent_nil|].
  inversion Hall as [|? ? Hx Hl]; subst. destruct l as [|y l]; [exact Hx|].
  rewrite join_cons2. repeat apply transparent_app; auto.
Qed.

Lemma transparent_wrap (opening closing gap indent : string) (l : list string) :
  Utf8.all_ascii opening = true -> Utf8.all_ascii closing = true ->
  Json.all_ws gap = true -> Json.all_ws indent = true ->
  Forall Utf8.transparent l ->
  Utf8.transparent (Json.wrap opening closing gap indent l).
Proof.
  intros Hopen Hclose Hgap Hind Hall.
  assert (Hinner : Json.all_ws (indent ++ gap) = true)
    by (rewrite all_ws_app, Hind, Hgap; reflexivity).
  destruct l as [|x l].
  - apply transparent_app; apply transparent_ascii; assumption.
  - rewrite wrap_cons.
    repeat apply transparent_app;
      try (apply transparent_ascii; assumption);
      try (apply transparent_break; assumption).
    apply transparent_join; [|exact Hall].
    apply (transparent_app ","); [apply transparent_ascii; reflexivity|].
    apply transparent_break, Hinner.
Qed.

Lemma transparent_quote (s : string) :
  Utf8.well_formed s = true -> Utf8.transparent (Json.quote s).
Proof.
  intros H. unfold Json.quote.
  apply (transparent_app (String Json.dquote ""));
    [apply transparent_ascii; reflexivity|].
  apply transparent_app; [apply transparent_escape, H|].
  apply transparent_ascii. reflexivity.
Qed.

Lemma serialize_transparent (gap : string) (v : value) :
  Json.all_ws gap = true -> Json.serializable v = true ->
  forall indent, Json.all_ws indent = true ->
    Utf8.transparent (Json.serialize gap indent v).
Proof.
  intros Hgap.
  induction v as [| b | z | m k | s | l IHl | o IHo | x] using value_induction;
    intros Hser indent Hind.
  - apply transparent_ascii. reflexivity.
  - apply transparent_ascii. destruct b; reflexivity.
  - apply transparent_ascii, all_ascii_integer.
  - apply transparent_ascii, all_ascii_dec.
  - apply transparent_quote, Hser.
  - rewrite serializable_array in Hser. rewrite serialize_array.
    assert (Hinner : Json.all_ws (indent ++ gap) = true)
      by (rewrite all_ws_app, Hind, Hgap; reflexivity).
    apply transparent_wrap; try reflexivity; try assumption.
    clear - IHl Hser Hinner. induction l as [|x l IH]; constructor.
    + inversion IHl; subst. cbn [forallb] in Hser.
      apply andb_true_iff in Hser as [Hx _]. auto.
    + inversion IHl; subst. cbn [forallb] in Hser.
      apply andb_true_iff in Hser as [_ Hl]. auto.
  - rewrite serializable_object in Hser.
    apply andb_true_iff in Hser as [_ Hser]. rewrite serialize_object.
    assert (Hinner : Json.all_ws (indent ++ gap) = true)
      by (rewrite all_ws_app, Hind, Hgap; reflexivity).
    apply transparent_wrap; try reflexivity; try assumption.
    clear - IHo Hser Hinner. induction o as [|[k x] o IH]; constructor.
    + inversion IHo; subst. cbn [forallb fst snd] in *.
      apply andb_true_iff in Hser as [Hx _].
      apply andb_true_iff in Hx as [Hk Hx].
      unfold Json.member_text. cbn [fst snd].
      apply transparent_app; [apply transparent_quote, Hk|].
      apply transparent_app; [|auto].
      apply transparent_ascii. unfold Json.colon. destruct gap; reflexivity.
    + inversion IHo; subst. cbn [forallb] in Hser.
      apply andb_true_iff in Hser as [_ Hl]. auto.
  - discriminate Hser.
Qed.

(** Decoding the text of a value as UTF-8 leaves it as it is. *)
Lemma decode_serialize (gap : string) (v : value) :
  Json.all_ws gap = true -> Json.serializable v = true ->
  Utf8.decode (Json.serialize gap "" v) = Json.serialize gap "" v.
Proof.
  intros Hgap Hser. apply decode_well_formed, transparent_well_formed.
  apply serialize_transparent; auto.
Qed.

(** ** Base64 *)

Lemma string_ind3 (P : string -> Prop) :
  P "" ->
  (forall a, P (String a "")) ->
  (forall a b, P (String a (String b ""))) ->
  (forall a b c r, P r -> P (String a (String b (String c r)))) ->
  forall s, P s.
Proof.
  intros H0 H1 H2 H3. fix IH 1.
  intros [|a [|b [|c r]]]; [exact H0 | apply H1 | apply H2 | apply H3, IH].
Qed.

Lemma group3_sextets (a b c : ascii) :
  forallb Base64.is_sextet (Base64.group3 a b c) = true.
Proof. destruct a, b, c. reflexivity. Qed.

Lemma sextets_of_sextets (s : string) :
  forallb Base64.is_sextet (Base64.sextets_of s) = true.
Proof.
  induction s as [| a | a b | a b c r IH] using string_ind3.
  - reflexivity.
  - destruct a. reflexivity.
  - destruct a, b. reflexivity.
  - cbn [Base64.sextets_of]. rewrite forallb_app, group3_sextets, IH.
    reflexivity.
Qed.

(** Regrouping the six-bit values gives the bytes back. *)
Lemma bytes_of_sextets_of (s : string) :
  Base64.bytes_of_sextets (Base64.sextets_of s) = s.
Proof.
  induction s as [| a | a b | a b c r IH] using string_ind3.
  - reflexivity.
  - destruct a. reflexivity.
  - destruct a, b. reflexivity.
  - cbn [Base64.sextets_of]. destruct a, b, c.
    cbn [Base64.group3 app Base64.bytes_of_sextets Base64.byte0 Base64.byte1
         Base64.byte2].
    rewrite IH. reflexivity.
Qed.

(** What the characters of the alphabet become when the text is made
    URL-safe, and that they are read back. *)
Lemma sextet_char (v : ascii) :
  Base64.is_sextet v = true ->
  let c := Base64.b64_char v in
  let u := Text.swap "/" "_" (Text.swap "+" "-" c) in
  Ascii.eqb c "=" = false
  /\ Ascii.eqb u "." = false
  /\ Text.swap "_" "/" (Text.swap "-" "+" u) = c
  /\ Ascii.eqb c Base64.pad_char = false
  /\ Base64.unbase64 c = Some v.
Proof.
  destruct v as [[|] [|] [|] [|] [|] [|] [|] [|]]; intros H;
    try discriminate H; repeat split; reflexivity.
Qed.

Lemma replace_all_cons (a b x : ascii) (s : string) :
  Text.replace_all a b (String x s) = String (Text.swap a b x) (Text.replace_all a b s).
Proof. reflexivity. Qed.

Lemma remove_all_app (c : ascii) (a b : string) :
  Text.remove_all c (a ++ b) = Text.remove_all c a ++ Text.remove_all c b.
Proof.
  induction a as [|x a IH]; simpl; [reflexivity|].
  destruct (Ascii.eqb x c); simpl; rewrite IH; reflexivity.
Qed.

Lemma remove_all_repeat (c : ascii) (n : nat) :
  Text.remove_all c (Text.repeat_char c n) = "".
Proof.
  induction n as [|n IH]; simpl; [reflexivity|].
  rewrite Ascii.eqb_refl. exact IH.
Qed.

Lemma remove_pad_chars (vs : list ascii) :
  forallb Base64.is_sextet vs = true ->
  Text.remove_all "=" (Base64.chars_of vs) = Base64.chars_of vs.
Proof.
  induction vs as [|v vs IH]; simpl; intros H; [reflexivity|].
  apply andb_true_iff in H as [Hv Hvs].
  destruct (sextet_char v Hv) as (Hpad & _). cbv zeta in Hpad.
  rewrite Hpad, (IH Hvs). reflexivity.
Qed.

(** The URL-safe text of a byte string, without padding. *)
Lemma base64urlEncode_chars (s : string) :
  Token.base64urlEncode s
  = Text.replace_all "/" "_"
      (Text.replace_all "+" "-" (Base64.chars_of (Base64.sextets_of s))).
Proof.
  unfold Token.base64urlEncode, Base64.encode, Base64.padding.
  rewrite remove_all_app, (remove_all_repeat "="), append_nil_r.
  rewrite remove_pad_chars by apply sextets_of_sextets. reflexivity.
Qed.

Lemma url_chars_no_dot (vs : list ascii) :
  forallb Base64.is_sextet vs = true ->
  Text.mem "."
    (Text.replace_all "/" "_" (Text.replace_all "+" "-" (Base64.chars_of vs)))
  = false.
Proof.
  induction vs as [|v vs IH]; intros H; [reflexivity|].
  cbn [forallb] in H. apply andb_true_iff in H as [Hv Hvs].
  destruct (sextet_char v Hv) as (_ & Hdot & _). cbv zeta in Hdot.
  cbn [Base64.chars_of Text.replace_all Text.mem].
  rewrite Hdot, (IH Hvs). reflexivity.
Qed.

(** No segment of a token holds a dot. *)
Lemma base64urlEncode_no_dot (s : string) :
  Text.mem "." (Token.base64urlEncode s) = false.
Proof.
  rewrite base64urlEncode_chars. apply url_chars_no_dot, sextets_of_sextets.
Qed.

Lemma sign_no_dot (secret data : string) :
  Text.mem "." (Token.sign secret data) = false.
Proof. apply base64urlEncode_no_dot. Qed.

Lemma url_chars_back (vs : list ascii) :
  forallb Base64.is_sextet vs = true ->
  Text.replace_all "_" "/"
    (Text.replace_all "-" "+"
       (Text.replace_all "/" "_"
          (Text.replace_all "+" "-" (Base64.chars_of vs))))
  = Base64.chars_of vs.
Proof.
  induction vs as [|v vs IH]; intros H; [reflexivity|].
  cbn [forallb] in H. apply andb_true_iff in H as [Hv Hvs].
  destruct (sextet_char v Hv) as (_ & _ & Hback & _). cbv zeta in Hback.
  cbn [Base64.chars_of]. rewrite !replace_all_cons, Hback, (IH Hvs).
  reflexivity.
Qed.

Lemma pad_loop_spec (fuel : nat) :
  forall str, exists k, Token.pad_loop fuel str = str ++ Text.repeat_char "=" k.
Proof.
  induction fuel as [|fuel IH]; intros str; cbn [Token.pad_loop].
  - exists 0%nat. rewrite append_nil_r. reflexivity.
  - destruct (String.length str mod 4 =? 0)%nat.
    + exists 0%nat. rewrite append_nil_r. reflexivity.
    + destruct (IH (str ++ "=")) as (k & Hk). exists (S k).
      rewrite Hk, append_assoc. reflexivity.
Qed.

Lemma sextets_pad (n : nat) : Base64.sextets (Text.repeat_char "=" n) = [].
Proof. destruct n; reflexivity. Qed.

Lemma sextets_chars (vs : list ascii) (n : nat) :
  forallb Base64.is_sextet vs = true ->
  Base64.sextets (Base64.chars_of vs ++ Text.repeat_char "=" n) = vs.
Proof.
  induction vs as [|v vs IH]; intros H; [apply sextets_pad|].
  cbn [forallb] in H. apply andb_true_iff in H as [Hv Hvs].
  destruct (sextet_char v Hv) as (_ & _ & _ & Hpad & Hun). cbv zeta in *.
  cbn [Base64.chars_of append Base64.sextets].
  rewrite Hpad, Hun, (IH Hvs). reflexivity.
Qed.

(** Decoding the URL-safe text of a byte string gives the bytes, read as
    UTF-8. *)
Lemma base64url_roundtrip (s : string) :
  Token.base64urlDecode (Token.base64urlEncode s) = Utf8.decode s.
Proof.
  unfold Token.base64urlDecode. rewrite base64urlEncode_chars.
  rewrite url_chars_back by apply sextets_of_sextets.
  destruct (pad_loop_spec 3 (Base64.chars_of (Base64.sextets_of s)))
    as (k & ->).
  unfold Base64.decode.
  rewrite sextets_chars by apply sextets_of_sextets.
  rewrite bytes_of_sextets_of. reflexivity.
Qed.

(** ** The record store: round trip *)

Lemma decode_stringify (v : value) :
  Json.serializable v = true -> Utf8.decode (Json.stringify v) = Json.stringify v.
Proof. apply (decode_serialize "" v eq_refl). Qed.

Lemma decode_stringify_indented (v : value) :
  Json.serializable v = true ->
  Utf8.decode (Json.stringify_indented v) = Json.stringify_indented v.
Proof. apply (decode_serialize "  " v eq_refl). Qed.

Lemma write_read (path data : string) (st : fs) :
  write path data st path = Regular data.
Proof. unfold write. rewrite String.eqb_refl. reflexivity. Qed.

(** C6, as amended: for every finite sequence of records that a JSON
    text denotes, whose numbers are finite, loading a collection right
    after it was replaced by the sequence returns the sequence, in the
    same order.  This holds for the services and for the users. *)
Theorem store_round_trip (records : list value) (st st' : fs) :
  Json.denotable (JArr records) = true ->
  (saveServices (JArr records) st = (Return tt, st') ->
   getServices st' = (Return (JArr records), st'))
  /\ (saveUsers (JArr records) st = (Return tt, st') ->
      getUsers st' = (Return (JArr records), st')).
Proof.
  intros Hden. apply andb_true_iff in Hden as [Hser _]. split.
  - unfold saveServices, writeFileSync. intros H.
    assert (Hst : st' = write servicesFile
                          (Json.stringify_indented (JArr records)) st)
      by (destruct (st servicesFile); inversion H; reflexivity).
    unfold getServices, try_io, bind_io, readFileSync, lift.
    subst st'. rewrite write_read.
    rewrite (decode_stringify_indented _ Hser).
    rewrite (parse_stringify_indented _ Hser). reflexivity.
  - unfold saveUsers, writeFileSync. intros H.
    assert (Hst : st' = write usersFile
                          (Json.stringify_indented (JArr records)) st)
      by (destruct (st usersFile); inversion H; reflexivity).
    unfold getUsers, try_io, bind_io, readFileSync, lift.
    subst st'. rewrite write_read.
    rewrite (decode_stringify_indented _ Hser).
    rewrite (parse_stringify_indented _ Hser). reflexivity.
Qed.

Lemma store_round_trip_witness :
  let records :=
    [Samples.clean_record;
     JObj [("service", JStr "Vacuum"); ("price", JDec 125 1)]] in
  let st := write servicesFile (Json.stringify_indented (JArr records))
              (fun _ => Missing) in
  getServices st = (Return (JArr records), st).
Proof.
  intros records st.
  apply (proj1 (store_round_trip records (fun _ => Missing) st
                  ltac:(by_computation))).
  reflexivity.
Defined.

(** C6, as stated, fails: a record whose price is [Infinity] is stored
    without an error, the file holds [null] in its place, and what is
    loaded right after differs from what was stored. *)
Lemma infinity_is_not_restored :
  saveServices (JArr [Samples.unbounded_record]) (fun _ => Missing)
  = (Return tt, Samples.disk_with_unbounded)
  /\ getServices Samples.disk_with_unbounded
     = (Return (JArr [Samples.unbounded_restored]), Samples.disk_with_unbounded)
  /\ JArr [Samples.unbounded_restored] <> JArr [Samples.unbounded_record].
Proof.
  split; [reflexivity|]. split; [by_computation | discriminate].
Qed.

(** ** Issuing and then verifying *)

Lemma forallb_replace (k : string) (x : value) (o : object) :
  forallb (fun kv => Utf8.well_formed (fst kv) && Json.serializable (snd kv)) o
  = true ->
  Json.serializable x = true ->
  forallb (fun kv => Utf8.well_formed (fst kv) && Json.serializable (snd kv))
          (obj_replace k x o) = true.
Proof.
  intros Ho Hx. induction o as [|[k0 v0] o IH]; [reflexivity|].
  cbn [forallb fst snd] in Ho. apply andb_true_iff in Ho as [H0 Ho].
  apply andb_true_iff in H0 as [Hk0 Hv0]. cbn [obj_replace].
  destruct (String.eqb k0 k); cbn [forallb fst snd].
  - rewrite Hk0, Hx, Ho. reflexivity.
  - rewrite Hk0, Hv0, (IH Ho). reflexivity.
Qed.

(** Setting a property with a plain name to a serializable value keeps
    an object serializable. *)
Lemma serializable_set (k : string) (x : value) (o : object) :
  Json.serializable (JObj o) = true -> Json.serializable x = true ->
  Utf8.well_formed k = true -> array_index k = None ->
  Json.serializable (JObj (obj_set k x o)) = true.
Proof.
  rewrite !serializable_object. intros Ho Hx Hk Hidx.
  apply andb_true_iff in Ho as [Hord Hall].
  rewrite (ordered_set k x o Hord Hidx). cbn [andb].
  unfold obj_set. destruct (obj_has k o).
  - apply forallb_replace; assumption.
  - rewrite Hidx, forallb_app, Hall. cbn [forallb fst snd].
    rewrite Hk, Hx. reflexivity.
Qed.





(** A token made of three parts without dots, the third one the
    signature of the first two, is verified by decoding its payload. *)
Lemma verifyToken_signed (secret : string) (now : Z) (h p : string) :
  Text.mem "." h = false -> Text.mem "." p = false ->
  Token.verifyToken secret now
    ((h ++ "." ++ p) ++ "." ++ Token.sign secret (h ++ "." ++ p))
  = try_catch (Token.decode_payload now p) (fun _ => Return JNull).
Proof.
  intros Hh Hp. unfold Token.verifyToken.
  rewrite append_assoc. cbn [append].
  rewrite (split_three "." h p _ Hh Hp (sign_no_dot secret _)).
  cbn [append]. rewrite String.eqb_refl. reflexivity.
Qed.



(** * Further properties *)

(** ** The token helpers *)

Lemma all_chars_app (p : ascii -> bool) (a b : string) :
  Text.all_chars p (a ++ b) = Text.all_chars p a && Text.all_chars p b.
Proof.
  induction a as [|c a IH]; simpl; [reflexivity|].
  rewrite IH, andb_assoc. reflexivity.
Qed.

Lemma sextet_url_safe (v : ascii) :
  Base64.is_sextet v = true ->
  Token.url_safe (Text.swap "/" "_" (Text.swap "+" "-" (Base64.b64_char v))) = true.
Proof.
  destruct v as [[|] [|] [|] [|] [|] [|] [|] [|]]; intros H;
    try discriminate H; reflexivity.
Qed.

Lemma url_chars_safe (vs : list ascii) :
  forallb Base64.is_sextet vs = true ->
  Text.all_chars Token.url_safe
    (Text.replace_all "/" "_" (Text.replace_all "+" "-" (Base64.chars_of vs)))
  = true.
Proof.
  induction vs as [|v vs IH]; intros H; [reflexivity|].
  cbn [forallb] in H. apply andb_true_iff in H as [Hv Hvs].
  cbn [Base64.chars_of Text.replace_all Text.all_chars].
  rewrite (sextet_url_safe v Hv), (IH Hvs). reflexivity.
Qed.

Lemma base64urlEncode_safe (s : string) :
  Text.all_chars Token.url_safe (Token.base64urlEncode s) = true.
Proof.
  rewrite base64urlEncode_chars. apply url_chars_safe, sextets_of_sextets.
Qed.

(** X1: what [base64urlEncode] writes is read back by [base64urlDecode]:
    for every text, which the model holds as well-formed UTF-8, decoding
    the encoded text gives the text. *)
Theorem base64url_decode_encode (s : string) :
  Utf8.well_formed s = true ->
  Token.base64urlDecode (Token.base64urlEncode s) = s.
Proof.
  intros H. rewrite base64url_roundtrip. apply decode_well_formed, H.
Qed.

Lemma base64url_decode_encode_witness :
  Token.base64urlDecode (Token.base64urlEncode (Json.stringify Samples.alice_claims))
  = Json.stringify Samples.alice_claims.
Proof.
  apply (base64url_decode_encode (Json.stringify Samples.alice_claims)).
  vm_compute. reflexivity.
Defined.

Lemma generateToken_parts (secret : string) (now : Z) (payload : value) :
  payload <> JNull ->
  exists exp,
    get_prop payload "exp" = Return exp
    /\ Token.generateToken secret now payload
       = Return
           (let h := Token.base64urlEncode (Json.stringify Token.header) in
            let p := Token.base64urlEncode
                       (Json.stringify
                          (Token.token_payload payload (Token.seconds now)
                             (Token.expiry_of exp (Token.seconds now)))) in
            (h ++ "." ++ p) ++ "." ++ Token.sign secret (h ++ "." ++ p)).
Proof.
  intros Hnull. unfold Token.generateToken.
  destruct payload; try contradiction; cbn [get_prop bind]; eauto.
Qed.

(** X2: a token that [generateToken] issues is made of three segments
    between two dots, the fixed header, the payload and the signature,
    and every character of a segment is a letter, a digit, [-] or [_]:
    the token needs no escaping in a URL or a header. *)
Theorem token_is_url_safe (secret : string) (now : Z) (payload : value) :
  payload <> JNull ->
  exists p s,
    Token.generateToken secret now payload
    = Return (Samples.header64 ++ "." ++ p ++ "." ++ s)
    /\ Text.split "." (Samples.header64 ++ "." ++ p ++ "." ++ s)
       = [Samples.header64; p; s]
    /\ s = Token.sign secret (Samples.header64 ++ "." ++ p)
    /\ Text.all_chars Token.url_safe Samples.header64 = true
    /\ Text.all_chars Token.url_safe p = true
    /\ Text.all_chars Token.url_safe s = true.
Proof.
  intros Hnull.
  destruct (generateToken_parts secret now payload Hnull) as (exp & _ & Hgen).
  cbv zeta in Hgen.
  change (Token.base64urlEncode (Json.stringify Token.header))
    with Samples.header64 in Hgen.
  set (p := Token.base64urlEncode _) in Hgen.
  exists p, (Token.sign secret (Samples.header64 ++ "." ++ p)).
  split; [|split; [|split; [reflexivity|split; [reflexivity|split]]]].
  - rewrite Hgen, append_assoc. reflexivity.
  - change (Samples.header64 ++ "." ++ p ++ "." ++ Token.sign secret (Samples.header64 ++ "." ++ p))
      with (Samples.header64 ++ String "."%char (p ++ String "."%char (Token.sign secret (Samples.header64 ++ "." ++ p)))).
    apply split_three; [reflexivity | apply base64urlEncode_no_dot | apply sign_no_dot].
  - apply base64urlEncode_safe.
  - apply base64urlEncode_safe.
Qed.

Lemma token_is_url_safe_witness :
  exists p s,
    Token.generateToken Samples.secret 1700000000123 Samples.alice_claims
    = Return (Samples.header64 ++ "." ++ p ++ "." ++ s)
    /\ Text.all_chars Token.url_safe p = true
    /\ Text.all_chars Token.url_safe s = true.
Proof.
  destruct (token_is_url_safe Samples.secret 1700000000123 Samples.alice_claims)
    as (p & s & Hgen & _ & _ & _ & Hp & Hs); [discriminate|].
  exists p, s. auto.
Defined.

Lemma obj_get_serializable (k : string) (o : object) (x : value) :
  Json.serializable (JObj o) = true -> obj_get k o = Some x ->
  Json.serializable x = true.
Proof.
  rewrite serializable_object. intros Ho Hget.
  apply andb_true_iff in Ho as [_ Hall].
  induction o as [|[k0 v0] o IH]; [discriminate|].
  cbn [forallb fst snd] in Hall. apply andb_true_iff in Hall as [H0 Hall].
  apply andb_true_iff in H0 as [_ Hv0]. cbn [obj_get] in Hget.
  destruct (String.eqb k0 k); [injection Hget as <-; exact Hv0 | auto].
Qed.

Lemma expiry_serializable (claims : object) (issuedAt : Z) :
  Json.serializable (JObj claims) = true ->
  Json.serializable (Token.expiry_of (obj_get "exp" claims) issuedAt) = true.
Proof.
  intros Hser. unfold Token.expiry_of.
  destruct (obj_get "exp" claims) as [x|] eqn:G; [|reflexivity].
  destruct (truthy (Some x)); [|reflexivity].
  exact (obj_get_serializable _ _ _ Hser G).
Qed.

(** What verifying an issued token comes to: the expiry test on the
    claims as issued. *)
Lemma generate_verify (secret : string) (now now' : Z) (claims : object) :
  Json.serializable (JObj claims) = true ->
  let x := Token.expiry_of (obj_get "exp" claims) (Token.seconds now) in
  let issued := obj_set "exp" x (obj_set "iat" (JNum (Token.seconds now)) claims) in
  exists token,
    Token.generateToken secret now (JObj claims) = Return token
    /\ Token.verifyToken secret now' token
       = try_catch
           (bind (Token.expired (Token.seconds now') (Some x))
                 (fun late => if late then Return JNull else Return (JObj issued)))
           (fun _ => Return JNull).
Proof.
  intros Hser x issued.
  assert (Hord : ordered claims = true).
  { rewrite serializable_object in Hser.
    apply andb_true_iff in Hser. tauto. }
  assert (Hissued : Json.serializable (JObj issued) = true).
  { unfold issued. apply serializable_set; try reflexivity.
    - apply serializable_set; try reflexivity. exact Hser.
    - apply expiry_serializable, Hser. }
  eexists. split.
  - unfold Token.generateToken. cbn [get_prop bind]. fold x.
    unfold Token.token_payload. cbn [Token.spread].
    rewrite (obj_of_list_ordered claims Hord). fold issued. reflexivity.
  - rewrite verifyToken_signed by apply base64urlEncode_no_dot.
    unfold Token.decode_payload.
    rewrite base64url_roundtrip, (decode_stringify _ Hissued).
    rewrite (parse_stringify _ Hissued). cbn [bind get_prop].
    unfold issued at 1. rewrite obj_get_set. reflexivity.
Qed.

Lemma expired_after (now e : Z) :
  e <> 0 -> Token.expired now (Some (JNum e)) = Return (e <? now).
Proof.
  intros He. unfold Token.expired, number_gt, to_number, bind, less_than, scale.
  cbn [truthy]. apply Z.eqb_neq in He. rewrite He. cbn [negb].
  rewrite Z.min_id, Z.sub_diag. simpl. rewrite !Z.mul_1_r. reflexivity.
Qed.

(** X3: a token issued for claims without an [exp] of their own (or with
    a falsy one) lives for 3600 seconds: verifying it with the same secret
    returns the claims as issued up to and including the second
    [iat + 3600], and the invalid result from the next second on. *)
Theorem default_lifetime (secret : string) (now now' : Z) (claims : object) :
  Json.serializable (JObj claims) = true ->
  truthy (obj_get "exp" claims) = false ->
  Token.seconds now + 3600 <> 0 ->
  let issued :=
    obj_set "exp" (JNum (Token.seconds now + 3600))
      (obj_set "iat" (JNum (Token.seconds now)) claims) in
  exists token,
    Token.generateToken secret now (JObj claims) = Return token
    /\ (Token.seconds now' <= Token.seconds now + 3600 ->
        Token.verifyToken secret now' token = Return (JObj issued))
    /\ (Token.seconds now + 3600 < Token.seconds now' ->
        Token.verifyToken secret now' token = Return JNull).
Proof.
  intros Hser Hexp Hnz issued.
  destruct (generate_verify secret now now' claims Hser) as (token & Hgen & Hver).
  cbv zeta in Hver.
  assert (Hx : Token.expiry_of (obj_get "exp" claims) (Token.seconds now)
               = JNum (Token.seconds now + 3600)).
  { unfold Token.expiry_of. destruct (obj_get "exp" claims); [|reflexivity].
    rewrite Hexp. reflexivity. }
  rewrite Hx, (expired_after _ _ Hnz) in Hver. fold issued in Hver.
  exists token. split; [exact Hgen|]. split; intros H; rewrite Hver; cbn [bind try_catch].
  - apply Z.ltb_ge in H. rewrite H. reflexivity.
  - apply Z.ltb_lt in H. rewrite H. reflexivity.
Qed.

Lemma default_lifetime_witness :
  exists token,
    Token.generateToken Samples.secret 1700000000123
      (JObj [("username", JStr "alice")]) = Return token
    /\ Token.verifyToken Samples.secret 1700003600999 token
       = Return Samples.alice_claims
    /\ Token.verifyToken Samples.secret 1700003601000 token = Return JNull.
Proof.
  destruct (default_lifetime Samples.secret 1700000000123 1700003600999
              [("username", JStr "alice")])
    as (token & Hgen & Hin & _); [reflexivity | reflexivity | vm_compute; discriminate |].
  destruct (default_lifetime Samples.secret 1700000000123 1700003601000
              [("username", JStr "alice")])
    as (token' & Hgen' & _ & Hout); [reflexivity | reflexivity | vm_compute; discriminate |].
  exists token. split; [exact Hgen|]. split.
  - apply Hin. vm_compute. discriminate.
  - assert (E : token = token') by congruence. subst token'.
    apply Hout. vm_compute. reflexivity.
Defined.

(** ** The password hash *)

Lemma be_bytes_bytes (len : nat) (x : N) :
  Forall (fun b => (b < 256)%N) (Sha256.be_bytes len x).
Proof.
  induction len as [|len IH]; constructor; [|exact IH].
  change 255%N with (N.ones 8). rewrite N.land_ones.
  apply N.mod_lt. discriminate.
Qed.

Lemma be_bytes_length (len : nat) (x : N) :
  List.length (Sha256.be_bytes len x) = len.
Proof. induction len as [|len IH]; cbn; [reflexivity | rewrite IH; reflexivity]. Qed.

Lemma blocks_length (fuel : nat) :
  forall h ws, List.length h = 8%nat ->
    List.length (Sha256.blocks fuel h ws) = 8%nat.
Proof.
  induction fuel as [|fuel IH]; intros h ws Hh; [exact Hh|].
  cbn [Sha256.blocks]. destruct ws; [exact Hh|]. apply IH. reflexivity.
Qed.

Lemma sha256_bytes (msg : list N) :
  Forall (fun b => (b < 256)%N) (Sha256.sha256 msg)
  /\ List.length (Sha256.sha256 msg) = 32%nat.
Proof.
  unfold Sha256.sha256.
  set (ws := Sha256.words_of _ _).
  pose proof (blocks_length (List.length ws) Sha256.H0 ws eq_refl) as Hlen.
  revert Hlen. generalize (Sha256.blocks (List.length ws) Sha256.H0 ws).
  intros l Hlen. split.
  - clear Hlen. induction l as [|x l IH]; [constructor|].
    cbn [flat_map]. apply Forall_app. split; [apply be_bytes_bytes | exact IH].
  - do 9 (destruct l as [|? l]; try discriminate Hlen). reflexivity.
Qed.

Lemma hex_digit_hex (n : N) :
  (n < 16)%N -> Sha256.is_hex (Sha256.hex_digit n) = true.
Proof.
  intros H.
  assert (E : In n [0; 1; 2; 3; 4; 5; 6; 7; 8; 9; 10; 11; 12; 13; 14; 15]%N).
  { cbn. lia. }
  cbn in E. decompose [or] E; subst; try reflexivity. contradiction.
Qed.

Lemma hex_shape (bs : list N) :
  Forall (fun b => (b < 256)%N) bs ->
  Text.all_chars Sha256.is_hex (Sha256.hex bs) = true
  /\ String.length (Sha256.hex bs) = (2 * List.length bs)%nat.
Proof.
  induction 1 as [|b bs Hb _ [IH1 IH2]]; [split; reflexivity|].
  cbn [Sha256.hex Text.all_chars String.length List.length].
  rewrite IH1, IH2. split; [|lia].
  rewrite !hex_digit_hex; [reflexivity | |].
  - change 15%N with (N.ones 4). rewrite N.land_ones.
    apply N.mod_lt. discriminate.
  - rewrite N.shiftr_div_pow2. apply N.Div0.div_lt_upper_bound. exact Hb.
Qed.

Lemma is_hex_ascii (s : string) :
  Text.all_chars Sha256.is_hex s = true -> Utf8.all_ascii s = true.
Proof.
  induction s as [|c s IH]; [reflexivity|].
  cbn [Text.all_chars Utf8.all_ascii]. intros H.
  apply andb_true_iff in H as [Hc Hs]. rewrite (IH Hs), andb_true_r.
  revert Hc. destruct c as [[|] [|] [|] [|] [|] [|] [|] [|]];
    intros Hc; try discriminate Hc; reflexivity.
Qed.

Lemma sha256_hex_well_formed (s : string) :
  Utf8.well_formed (sha256_hex s) = true.
Proof.
  apply transparent_well_formed, transparent_ascii, is_hex_ascii.
  apply hex_shape, sha256_bytes.
Qed.

(** X4: the hash that is stored for a password, and compared at login,
    is 64 characters long, each a digit or a letter from [a] to [f],
    whatever the password. *)
Theorem password_hash_shape (password : string) :
  String.length (sha256_hex password) = 64%nat
  /\ Text.all_chars Sha256.is_hex (sha256_hex password) = true
  /\ hash_password (Some (JStr password)) = Return (sha256_hex password).
Proof.
  destruct (sha256_bytes (Text.bytes_of password)) as [Hb Hl].
  destruct (hex_shape _ Hb) as [Hhex Hlen].
  unfold sha256_hex. rewrite Hlen, Hl. auto.
Qed.

(** ** Searching a collection *)

Lemma find_first_skip (pred : value -> completion bool) (before l : list value) :
  Forall (fun y => pred y = Return false) before ->
  find_first pred (before ++ l) = find_first pred l.
Proof.
  induction 1 as [|y before Hy _ IH]; [reflexivity|].
  cbn [app find_first]. rewrite Hy. exact IH.
Qed.

Lemma find_first_none (pred : value -> completion bool) (l : list value) :
  Forall (fun y => pred y = Return false) l -> find_first pred l = Return None.
Proof.
  intros H. rewrite <- (app_nil_r l). rewrite find_first_skip by exact H.
  reflexivity.
Qed.

Lemma find_first_hit
  (pred : value -> completion bool) (before after : list value) (x : value) :
  Forall (fun y => pred y = Return false) before -> pred x = Return true ->
  find_first pred (before ++ x :: after) = Return (Some x).
Proof.
  intros Hb Hx. rewrite find_first_skip by exact Hb.
  cbn [find_first]. rewrite Hx. reflexivity.
Qed.

Lemma find_index_skip
  (pred : value -> completion bool) (before l : list value) (i : nat) :
  Forall (fun y => pred y = Return false) before ->
  find_index pred i (before ++ l) = find_index pred (i + List.length before) l.
Proof.
  intros H. revert i. induction H as [|y before Hy _ IH]; intros i.
  - cbn [app List.length]. rewrite Nat.add_0_r. reflexivity.
  - cbn [app find_index List.length]. rewrite Hy. cbn [bind].
    rewrite IH. f_equal. lia.
Qed.

Lemma find_index_none (pred : value -> completion bool) (l : list value) (i : nat) :
  Forall (fun y => pred y = Return false) l -> find_index pred i l = Return None.
Proof.
  intros H. rewrite <- (app_nil_r l). rewrite find_index_skip by exact H.
  reflexivity.
Qed.

Lemma find_index_hit
  (pred : value -> completion bool) (before after : list value) (x : value) :
  Forall (fun y => pred y = Return false) before -> pred x = Return true ->
  find_index pred 0 (before ++ x :: after) = Return (Some (List.length before)).
Proof.
  intros Hb Hx. rewrite find_index_skip by exact Hb.
  cbn [find_index]. rewrite Hx. reflexivity.
Qed.

Lemma some_of_none (pred : value -> completion bool) (l : list value) :
  Forall (fun y => pred y = Return false) l -> some_of pred l = Return false.
Proof.
  induction 1 as [|y l Hy _ IH]; [reflexivity|].
  cbn [some_of]. rewrite Hy. exact IH.
Qed.

Lemma some_of_hit
  (pred : value -> completion bool) (before after : list value) (x : value) :
  Forall (fun y => pred y = Return false) before -> pred x = Return true ->
  some_of pred (before ++ x :: after) = Return true.
Proof.
  intros Hb Hx. induction Hb as [|y before Hy _ IH].
  - cbn [app some_of]. rewrite Hx. reflexivity.
  - cbn [app some_of]. rewrite Hy. exact IH.
Qed.

Lemma remove_at_middle {A : Type} (before after : list A) (x : A) :
  remove_at (List.length before) (before ++ x :: after) = (before ++ after)%list.
Proof.
  induction before as [|y before IH]; [reflexivity|].
  cbn [List.length app remove_at]. rewrite IH. reflexivity.
Qed.

Lemma list_set_middle {A : Type} (before after : list A) (x y : A) :
  list_set (List.length before) y (before ++ x :: after)
  = (before ++ y :: after)%list.
Proof.
  induction before as [|z before IH]; [reflexivity|].
  cbn [List.length app list_set]. rewrite IH. reflexivity.
Qed.

(** [a === 'text'] holds of that text only. *)
Lemma strict_eq_text (a : option value) (t : string) :
  strict_eq a (Some (JStr t)) = true <-> a = Some (JStr t).
Proof.
  split.
  - destruct a as [[| b | z | m k | s | l | o | x]|]; cbn; try discriminate.
    intros H. apply String.eqb_eq in H. subst. reflexivity.
  - intros ->. cbn. apply String.eqb_refl.
Qed.

Lemma has_username_named (name : string) (o : object) :
  obj_get "username" o = Some (JStr name) ->
  has_username (Some (JStr name)) (JObj o) = Return true.
Proof.
  intros H. unfold has_username. cbn [get_prop bind]. rewrite H.
  cbn. rewrite String.eqb_refl. reflexivity.
Qed.

(** ** Logging in *)

(** [login] up to the search for the user. *)
Lemma login_search
  (secret : string) (now : Z) (body name pw : string) (users : value) (st : fs) :
  credentials body name pw ->
  getUsers st = (Return users, st) ->
  login secret now body st
  = try_io
      (user <- lift (array_find (has_username (Some (JStr name))) users) ;;
       if negb (truthy user)
       then ret (respond 401 (error_body "Invalid credentials"))
       else
         stored <- lift (get_prop (or_null user) "passwordHash") ;;
         if strict_eq stored (Some (JStr (sha256_hex pw)))
         then
           token <- lift (Token.generateToken secret now
                            (JObj [("username", JStr name)])) ;;
           ret (respond 200
                  (JObj [("message", JStr "Login successful");
                         ("token", JStr token)]))
         else ret (respond 401 (error_body "Invalid credentials")))
      (fun _ => ret (respond 400 (error_body "Invalid JSON"))) st.
Proof.
  intros (parsed & Hparse & Hname & Hne & Hpass & Hne') Husers.
  unfold login, try_io, bind_io, lift at 1 2 3. rewrite Hparse, Hname, Hpass.
  apply String.eqb_neq in Hne, Hne'.
  cbn [truthy]. rewrite Hne, Hne'. cbn [negb orb]. rewrite Husers.
  unfold lift, hash_password. cbn [or_null].
  destruct (array_find (has_username (Some (JStr name))) users) as [user|e];
    [|reflexivity].
  destruct (negb (truthy user)); reflexivity.
Qed.

(** X5: a login with the name and password of a stored user is answered
    with status 200 and a token; nothing is written.  The user is the
    first record of the collection that carries the name, and its
    [passwordHash] is the hex SHA-256 of the password.  Verified with the
    same secret within 3600 seconds, the token gives the user name with
    [iat] and [exp]. *)
Theorem login_accepts
  (secret : string) (now now' : Z) (body name pw : string)
  (before after : list value) (u : object) (st : fs) :
  credentials body name pw ->
  getUsers st = (Return (JArr (before ++ JObj u :: after)), st) ->
  Forall (fun y => has_username (Some (JStr name)) y = Return false) before ->
  obj_get "username" u = Some (JStr name) ->
  obj_get "passwordHash" u = Some (JStr (sha256_hex pw)) ->
  Utf8.well_formed name = true ->
  Token.seconds now + 3600 <> 0 ->
  exists token,
    login secret now body st
    = (Return (respond 200 (JObj [("message", JStr "Login successful");
                                  ("token", JStr token)])), st)
    /\ Token.generateToken secret now (JObj [("username", JStr name)])
       = Return token
    /\ (Token.seconds now' <= Token.seconds now + 3600 ->
        Token.verifyToken secret now' token = Return (login_claims name now)).
Proof.
  intros Hcred Husers Hbefore Hname Hhash Hwf Hnz.
  destruct (generate_verify secret now now' [("username", JStr name)])
    as (token & Hgen & Hver).
  { cbn. rewrite Hwf. reflexivity. }
  cbv zeta in Hver. cbn [obj_get String.eqb Ascii.eqb Bool.eqb Token.expiry_of] in Hver.
  rewrite (expired_after _ _ Hnz) in Hver.
  exists token. split; [|split; [exact Hgen|]].
  2:{ intros Hle. apply Z.ltb_ge in Hle. rewrite Hver, Hle. reflexivity. }
  rewrite (login_search secret now body name pw _ st Hcred Husers).
  unfold try_io, bind_io, lift. cbn [array_find].
  rewrite (find_first_hit _ before after (JObj u) Hbefore
             (has_username_named name u Hname)).
  cbn [truthy negb or_null get_prop]. rewrite Hhash.
  rewrite (proj2 (strict_eq_text _ _) eq_refl), Hgen. reflexivity.
Qed.

Lemma login_accepts_witness :
  exists token,
    login Samples.secret 1700000000123
      (Json.stringify (JObj [("username", JStr "alice"); ("password", JStr "pw1")]))
      Samples.disk_with_alice
    = (Return (respond 200 (JObj [("message", JStr "Login successful");
                                  ("token", JStr token)])),
       Samples.disk_with_alice)
    /\ Token.verifyToken Samples.secret 1700003600999 token
       = Return Samples.alice_claims.
Proof.
  destruct (login_accepts Samples.secret 1700000000123 1700003600999
              (Json.stringify (JObj [("username", JStr "alice");
                                     ("password", JStr "pw1")]))
              "alice" "pw1" [] []
              [("username", JStr "alice");
               ("passwordHash", JStr (sha256_hex "pw1"))]
              Samples.disk_with_alice)
    as (token & Hlogin & _ & Hver).
  - exists (JObj [("username", JStr "alice"); ("password", JStr "pw1")]).
    split; [vm_compute; reflexivity|].
    repeat split; discriminate.
  - unfold getUsers, try_io, bind_io, readFileSync, lift.
    change (Samples.disk_with_alice usersFile) with (Regular Samples.users_file).
    replace (Json.parse (Utf8.decode Samples.users_file))
      with (Return (JArr [Samples.alice_record])) by (vm_compute; reflexivity).
    reflexivity.
  - constructor.
  - reflexivity.
  - reflexivity.
  - reflexivity.
  - vm_compute. discriminate.
  - exists token. split; [exact Hlogin|]. apply Hver. vm_compute. discriminate.
Defined.

(** X6: a login is refused in one and the same way, status 401 and
    "Invalid credentials", whether no stored user carries the name or the
    first one that does has another password hash; nothing is written. *)
Theorem login_rejects_alike
  (secret : string) (now : Z) (body name pw : string)
  (users : list value) (st : fs) :
  credentials body name pw ->
  getUsers st = (Return (JArr users), st) ->
  (Forall (fun y => has_username (Some (JStr name)) y = Return false) users ->
   login secret now body st = (Return invalid_credentials, st))
  /\ (forall before after u,
        users = (before ++ JObj u :: after)%list ->
        Forall (fun y => has_username (Some (JStr name)) y = Return false) before ->
        obj_get "username" u = Some (JStr name) ->
        obj_get "passwordHash" u <> Some (JStr (sha256_hex pw)) ->
        login secret now body st = (Return invalid_credentials, st)).
Proof.
  intros Hcred Husers. split.
  - intros Hnone.
    rewrite (login_search secret now body name pw _ st Hcred Husers).
    unfold try_io, bind_io, lift. cbn [array_find].
    rewrite (find_first_none _ users Hnone). reflexivity.
  - intros before after u -> Hbefore Hname Hhash.
    rewrite (login_search secret now body name pw _ st Hcred Husers).
    unfold try_io, bind_io, lift. cbn [array_find].
    rewrite (find_first_hit _ before after (JObj u) Hbefore
               (has_username_named name u Hname)).
    cbn [truthy negb or_null get_prop].
    destruct (strict_eq (obj_get "passwordHash" u) (Some (JStr (sha256_hex pw))))
      eqn:E; [|reflexivity].
    apply strict_eq_text in E. contradiction.
Qed.

Lemma login_rejects_alike_witness :
  login Samples.secret 1700000000123
    (Json.stringify (JObj [("username", JStr "alice"); ("password", JStr "pw2")]))
    Samples.disk_with_alice
  = (Return invalid_credentials, Samples.disk_with_alice)
  /\ login Samples.secret 1700000000123
       (Json.stringify (JObj [("username", JStr "bob"); ("password", JStr "pw1")]))
       Samples.disk_with_alice
     = (Return invalid_credentials, Samples.disk_with_alice).
Proof.
  assert (Hload : getUsers Samples.disk_with_alice
                  = (Return (JArr [Samples.alice_record]), Samples.disk_with_alice)).
  { unfold getUsers, try_io, bind_io, readFileSync, lift.
    change (Samples.disk_with_alice usersFile) with (Regular Samples.users_file).
    replace (Json.parse (Utf8.decode Samples.users_file))
      with (Return (JArr [Samples.alice_record])) by (vm_compute; reflexivity).
    reflexivity. }
  split.
  - refine (proj2 (login_rejects_alike Samples.secret 1700000000123 _
                     "alice" "pw2" [Samples.alice_record]
                     Samples.disk_with_alice _ Hload)
                  [] [] _ eq_refl _ _ _).
    + exists (JObj [("username", JStr "alice"); ("password", JStr "pw2")]).
      split; [vm_compute; reflexivity|]. repeat split; discriminate.
    + constructor.
    + reflexivity.
    + vm_compute. discriminate.
  - refine (proj1 (login_rejects_alike Samples.secret 1700000000123 _
                     "bob" "pw1" [Samples.alice_record]
                     Samples.disk_with_alice _ Hload) _).
    + exists (JObj [("username", JStr "bob"); ("password", JStr "pw1")]).
      split; [vm_compute; reflexivity|]. repeat split; discriminate.
    + constructor; [vm_compute; reflexivity | constructor].
Defined.

(** ** Registering *)

Lemma user_record_serializable (name pw : string) :
  Utf8.well_formed name = true ->
  Json.serializable (user_record name pw) = true.
Proof.
  intros H. unfold user_record. cbn [Json.serializable].
  rewrite H, sha256_hex_well_formed. reflexivity.
Qed.

Lemma serializable_snoc (l : list value) (x : value) :
  Json.serializable (JArr l) = true -> Json.serializable x = true ->
  Json.serializable (JArr (l ++ [x])) = true.
Proof.
  rewrite !serializable_array, forallb_app. intros -> Hx.
  cbn [forallb]. rewrite Hx. reflexivity.
Qed.

(** [register] up to the look at the stored users. *)
Lemma register_search
  (body name pw : string) (users : value) (st : fs) :
  credentials body name pw ->
  getUsers st = (Return users, st) ->
  register body st
  = try_io
      (taken <- lift (array_some (has_username (Some (JStr name))) users) ;;
       if taken
       then ret (respond 409 (error_body "User already exists"))
       else
         users' <- lift (array_push users (user_record name pw)) ;;
         _ <- saveUsers users' ;;
         ret (respond 201 (message_body "User registered")))
      (fun _ => ret (respond 400 (error_body "Invalid JSON"))) st.
Proof.
  intros (parsed & Hparse & Hname & Hne & Hpass & Hne') Husers.
  unfold register, try_io, bind_io, lift at 1 2 3. rewrite Hparse, Hname, Hpass.
  apply String.eqb_neq in Hne, Hne'.
  cbn [truthy]. rewrite Hne, Hne'. cbn [negb orb]. rewrite Husers.
  reflexivity.
Qed.

Lemma register_new
  (body name pw : string) (users : list value) (st : fs) :
  credentials body name pw ->
  getUsers st = (Return (JArr users), st) ->
  Forall (fun y => has_username (Some (JStr name)) y = Return false) users ->
  st usersFile <> Locked ->
  register body st
  = (Return (respond 201 (message_body "User registered")),
     write usersFile
       (Json.stringify_indented (JArr (users ++ [user_record name pw])%list)) st).
Proof.
  intros Hcred Husers Hfree Hfile.
  rewrite (register_search body name pw _ st Hcred Husers).
  unfold try_io, bind_io, lift. cbn [array_some].
  rewrite (some_of_none _ users Hfree). cbn [array_push].
  unfold saveUsers, writeFileSync.
  destruct (st usersFile); try reflexivity. contradiction.
Qed.

Lemma users_reloaded (l : list value) (st : fs) :
  Json.serializable (JArr l) = true ->
  let st' := write usersFile (Json.stringify_indented (JArr l)) st in
  getUsers st' = (Return (JArr l), st').
Proof.
  intros Hser st'.
  apply (getUsers_regular st' _ _ (write_read _ _ _)).
  rewrite (decode_stringify_indented _ Hser).
  apply (parse_stringify_indented _ Hser).
Qed.

Lemma services_reloaded (l : list value) (st : fs) :
  Json.serializable (JArr l) = true ->
  let st' := write servicesFile (Json.stringify_indented (JArr l)) st in
  getServices st' = (Return (JArr l), st').
Proof.
  intros Hser st'.
  unfold getServices, try_io, bind_io, readFileSync, lift.
  unfold st' at 1. rewrite write_read.
  rewrite (decode_stringify_indented _ Hser).
  rewrite (parse_stringify_indented _ Hser). reflexivity.
Qed.

(** X7: registering a name that no stored user carries appends one
    record to the users, the name with the hex SHA-256 of the password
    and not the password, writes the collection and answers 201.  The
    users loaded afterwards are the earlier ones, in their order, and
    the new record at the end. *)
Theorem register_appends
  (body name pw : string) (users : list value) (st : fs) :
  credentials body name pw ->
  getUsers st = (Return (JArr users), st) ->
  Forall (fun y => has_username (Some (JStr name)) y = Return false) users ->
  st usersFile <> Locked ->
  let st' := write usersFile
               (Json.stringify_indented
                  (JArr (users ++ [user_record name pw])%list)) st in
  register body st = (Return (respond 201 (message_body "User registered")), st')
  /\ (Json.serializable (JArr users) = true -> Utf8.well_formed name = true ->
      getUsers st' = (Return (JArr (users ++ [user_record name pw])%list), st')).
Proof.
  intros Hcred Husers Hfree Hfile st'. split.
  - apply register_new; assumption.
  - intros Hser Hwf. apply users_reloaded, serializable_snoc;
      [exact Hser | apply user_record_serializable, Hwf].
Qed.

Lemma register_appends_witness :
  let body := Json.stringify (JObj [("username", JStr "bob"); ("password", JStr "pw2")]) in
  let st' := write usersFile
               (Json.stringify_indented
                  (JArr [Samples.alice_record; user_record "bob" "pw2"]))
               Samples.disk_with_alice in
  register body Samples.disk_with_alice
  = (Return (respond 201 (message_body "User registered")), st')
  /\ getUsers st'
     = (Return (JArr [Samples.alice_record; user_record "bob" "pw2"]), st').
Proof.
  intros body st'.
  destruct (register_appends body "bob" "pw2" [Samples.alice_record]
              Samples.disk_with_alice) as [Hreg Hload].
  - exists (JObj [("username", JStr "bob"); ("password", JStr "pw2")]).
    split; [vm_compute; reflexivity|]. repeat split; discriminate.
  - apply (getUsers_regular _ Samples.users_file); [reflexivity|].
    vm_compute. reflexivity.
  - constructor; [vm_compute; reflexivity | constructor].
  - discriminate.
  - split; [exact Hreg|]. apply Hload; vm_compute; reflexivity.
Defined.

(** X8: after a registration that was answered 201, a login with the
    same name and password is answered 200 with a token for the name, a
    login with the name and a password of another hash is answered 401,
    and a second registration of the name is answered 409 and writes
    nothing. *)
Theorem register_then
  (body name pw : string) (users : list value) (st : fs) :
  credentials body name pw ->
  getUsers st = (Return (JArr users), st) ->
  Forall (fun y => has_username (Some (JStr name)) y = Return false) users ->
  st usersFile <> Locked ->
  Json.serializable (JArr users) = true ->
  Utf8.well_formed name = true ->
  exists st',
    register body st = (Return (respond 201 (message_body "User registered")), st')
    /\ (forall secret now, Token.seconds now + 3600 <> 0 ->
          exists token,
            login secret now body st'
            = (Return (respond 200 (JObj [("message", JStr "Login successful");
                                          ("token", JStr token)])), st')
            /\ forall now', Token.seconds now' <= Token.seconds now + 3600 ->
                 Token.verifyToken secret now' token
                 = Return (login_claims name now))
    /\ (forall secret now body' pw',
          credentials body' name pw' -> sha256_hex pw' <> sha256_hex pw ->
          login secret now body' st' = (Return invalid_credentials, st'))
    /\ (forall body' pw',
          credentials body' name pw' ->
          register body' st'
          = (Return (respond 409 (error_body "User already exists")), st')).
Proof.
  intros Hcred Husers Hfree Hfile Hser Hwf.
  pose proof (register_new body name pw users st Hcred Husers Hfree Hfile) as Hreg.
  assert (Hload := users_reloaded (users ++ [user_record name pw]) st
                     (serializable_snoc _ _ Hser (user_record_serializable _ pw Hwf))).
  cbv zeta in Hload.
  eexists. split; [exact Hreg|].
  assert (Hnamed : has_username (Some (JStr name)) (user_record name pw) = Return true)
    by (apply has_username_named; reflexivity).
  split; [|split].
  - intros secret now Hnz.
    destruct (generate_verify secret now 0 [("username", JStr name)])
      as (token & Hgen & _).
    { cbn. rewrite Hwf. reflexivity. }
    exists token. split.
    + rewrite (login_search secret now body name pw _ _ Hcred Hload).
      unfold try_io, bind_io, lift. cbn [array_find].
      rewrite (find_first_hit _ users [] _ Hfree Hnamed).
      cbn [truthy negb or_null get_prop user_record obj_get String.eqb
           Ascii.eqb Bool.eqb].
      rewrite (proj2 (strict_eq_text _ _) eq_refl), Hgen. reflexivity.
    + intros now' Hle.
      destruct (generate_verify secret now now' [("username", JStr name)])
        as (token' & Hgen' & Hver).
      { cbn. rewrite Hwf. reflexivity. }
      assert (E : token' = token) by congruence. subst token'.
      cbv zeta in Hver.
      cbn [obj_get String.eqb Ascii.eqb Bool.eqb Token.expiry_of] in Hver.
      rewrite (expired_after _ _ Hnz) in Hver.
      apply Z.ltb_ge in Hle. rewrite Hver, Hle. reflexivity.
  - intros secret now body' pw' Hcred' Hpw.
    rewrite (login_search secret now body' name pw' _ _ Hcred' Hload).
    unfold try_io, bind_io, lift. cbn [array_find].
    rewrite (find_first_hit _ users [] _ Hfree Hnamed).
    cbn [truthy negb or_null get_prop user_record obj_get String.eqb
         Ascii.eqb Bool.eqb].
    destruct (strict_eq (Some (JStr (sha256_hex pw))) (Some (JStr (sha256_hex pw'))))
      eqn:E; [|reflexivity].
    apply strict_eq_text in E. congruence.
  - intros body' pw' Hcred'.
    rewrite (register_search body' name pw' _ _ Hcred' Hload).
    unfold try_io, bind_io, lift. cbn [array_some].
    rewrite (some_of_hit _ users [] _ Hfree Hnamed). reflexivity.
Qed.

Lemma register_then_witness :
  let body := Json.stringify (JObj [("username", JStr "bob"); ("password", JStr "pw2")]) in
  exists st' token,
    register body Samples.disk_with_alice
    = (Return (respond 201 (message_body "User registered")), st')
    /\ login Samples.secret 1700000000123 body st'
       = (Return (respond 200 (JObj [("message", JStr "Login successful");
                                     ("token", JStr token)])), st')
    /\ register body st'
       = (Return (respond 409 (error_body "User already exists")), st').
Proof.
  intros body.
  assert (Hcred : credentials body "bob" "pw2").
  { exists (JObj [("username", JStr "bob"); ("password", JStr "pw2")]).
    split; [vm_compute; reflexivity|]. repeat split; discriminate. }
  destruct (register_then body "bob" "pw2" [Samples.alice_record]
              Samples.disk_with_alice Hcred)
    as (st' & Hreg & Hlogin & _ & Hagain).
  - apply (getUsers_regular _ Samples.users_file); [reflexivity|].
    vm_compute. reflexivity.
  - constructor; [vm_compute; reflexivity | constructor].
  - discriminate.
  - vm_compute. reflexivity.
  - reflexivity.
  - destruct (Hlogin Samples.secret 1700000000123) as (token & Htoken & _);
      [vm_compute; discriminate|].
    exists st', token. split; [exact Hreg|]. split; [exact Htoken|].
    exact (Hagain body "pw2" Hcred).
Defined.

(** X9: the checks on the credentials of a request body.  When the
    parsed body has no [username] or no [password], or one of them is
    falsy (the empty text, 0, null, false), [register] and [login] both
    answer 400, "Username and password are required", before the users
    are read.  When the password is truthy but no text, hashing it
    throws: [register] of a free name and [login] of a stored name then
    answer 400, "Invalid JSON", although the body is JSON.  Nothing is
    written in either case. *)
Theorem credentials_checked
  (secret : string) (now : Z) (body : string) (parsed : value)
  (username password : option value) (st : fs) :
  Json.parse body = Return parsed ->
  get_prop parsed "username" = Return username ->
  get_prop parsed "password" = Return password ->
  let required := respond 400 (error_body "Username and password are required") in
  let invalid := respond 400 (error_body "Invalid JSON") in
  (truthy username = false \/ truthy password = false ->
   register body st = (Return required, st)
   /\ login secret now body st = (Return required, st))
  /\ (forall users,
        truthy username = true -> truthy password = true ->
        (forall s, password <> Some (JStr s)) ->
        getUsers st = (Return (JArr users), st) ->
        (Forall (fun y => has_username username y = Return false) users ->
         register body st = (Return invalid, st))
        /\ (forall before u after,
              users = (before ++ u :: after)%list ->
              Forall (fun y => has_username username y = Return false) before ->
              has_username username u = Return true -> truthy (Some u) = true ->
              login secret now body st = (Return invalid, st))).
Proof.
  intros Hparse Hname Hpass required invalid. split.
  - intros Hfalsy.
    assert (E : negb (truthy username) || negb (truthy password) = true)
      by (destruct Hfalsy as [-> | ->]; [reflexivity | apply orb_true_r]).
    unfold register, login, try_io, bind_io, lift.
    rewrite Hparse, Hname, Hpass, E. split; reflexivity.
  - intros users Hu Hp Htext Husers.
    assert (Hhash : hash_password password = Throw TypeError).
    { destruct password as [[| b | z | m k | s | l | o | x]|]; try reflexivity.
      exfalso. apply (Htext s). reflexivity. }
    split.
    + intros Hfree. unfold register, try_io, bind_io, lift at 1 2 3.
      rewrite Hparse, Hname, Hpass, Hu, Hp. cbn [negb orb]. rewrite Husers.
      unfold lift. cbn [array_some].
      change (fun u => bind (get_prop u "username")
                            (fun x => Return (strict_eq x username)))
        with (has_username username).
      rewrite (some_of_none _ users Hfree), Hhash. reflexivity.
    + intros before u after -> Hbefore Hhit Htruthy.
      unfold login, try_io, bind_io, lift at 1 2 3.
      rewrite Hparse, Hname, Hpass, Hu, Hp. cbn [negb orb]. rewrite Husers.
      unfold lift. cbn [array_find].
      rewrite (find_first_hit _ before after u Hbefore Hhit), Htruthy.
      cbn [negb]. rewrite Hhash. reflexivity.
Qed.

Lemma credentials_checked_witness :
  register (Json.stringify (JObj [("username", JStr "bob"); ("password", JStr "")]))
    Samples.disk_with_alice
  = (Return (respond 400 (error_body "Username and password are required")),
     Samples.disk_with_alice)
  /\ login Samples.secret 1700000000123
       (Json.stringify (JObj [("username", JStr "alice"); ("password", JNum 5)]))
       Samples.disk_with_alice
     = (Return (respond 400 (error_body "Invalid JSON")), Samples.disk_with_alice).
Proof.
  split.
  - refine (proj1 (proj1 (credentials_checked Samples.secret 0 _
              (JObj [("username", JStr "bob"); ("password", JStr "")])
              (Some (JStr "bob")) (Some (JStr "")) Samples.disk_with_alice
              _ eq_refl eq_refl) _)).
    + vm_compute. reflexivity.
    + right. reflexivity.
  - refine (proj2 (proj2 (credentials_checked Samples.secret 1700000000123 _
              (JObj [("username", JStr "alice"); ("password", JNum 5)])
              (Some (JStr "alice")) (Some (JNum 5)) Samples.disk_with_alice
              _ eq_refl eq_refl) [Samples.alice_record] eq_refl eq_refl _ _)
              [] Samples.alice_record [] eq_refl _ eq_refl eq_refl).
    + vm_compute. reflexivity.
    + intros s. discriminate.
    + apply (getUsers_regular _ Samples.users_file); [reflexivity|].
      vm_compute. reflexivity.
    + constructor.
Defined.

(** ** Service records by id *)

Lemma has_id_object (id : number) (x : value) :
  has_id id x = Return true -> exists o, x = JObj o.
Proof.
  unfold has_id. destruct x; cbn; try discriminate. eauto.
Qed.

(** X10: [DELETE /services/:id] removes the first record whose [id] is
    the number in the path and no other: the records before and after it
    are written back in their order, and the answer is 204 without a
    body.  The services loaded afterwards are those. *)
Theorem delete_removes_first
  (user : option value) (pathname : string)
  (before after : list value) (x : value) (st : fs) :
  truthy user = true ->
  getServices st = (Return (JArr (before ++ x :: after)), st) ->
  Forall (fun y => has_id (path_id pathname) y = Return false) before ->
  has_id (path_id pathname) x = Return true ->
  st servicesFile <> Locked ->
  let st' := write servicesFile
               (Json.stringify_indented (JArr (before ++ after)%list)) st in
  delete_service user pathname st = (Return no_content, st')
  /\ (Json.serializable (JArr (before ++ after)) = true ->
      getServices st' = (Return (JArr (before ++ after)%list), st')).
Proof.
  intros Huser Hload Hbefore Hx Hfile st'. split.
  - unfold delete_service. rewrite Huser. cbn [negb].
    unfold bind_io, lift. rewrite Hload. cbn [array_find_index].
    rewrite (find_index_hit _ before after x Hbefore Hx).
    cbn [array_splice]. rewrite remove_at_middle.
    unfold saveServices, writeFileSync.
    destruct (st servicesFile); try reflexivity. contradiction.
  - intros Hser. apply services_reloaded, Hser.
Qed.

Lemma delete_removes_first_witness :
  delete_service (Some Samples.alice_claims) "/services/1704067200000"
    Samples.disk_with_service
  = (Return no_content,
     write servicesFile (Json.stringify_indented (JArr []))
       Samples.disk_with_service).
Proof.
  refine (proj1 (delete_removes_first (Some Samples.alice_claims)
                   "/services/1704067200000" [] [] Samples.clean_record
                   Samples.disk_with_service eq_refl _ _ _ _)).
  - unfold getServices, try_io, bind_io, readFileSync, lift.
    change (Samples.disk_with_service servicesFile)
      with (Regular Samples.services_file).
    replace (Json.parse (Utf8.decode Samples.services_file))
      with (Return (JArr [Samples.clean_record])) by (vm_compute; reflexivity).
    reflexivity.
  - constructor.
  - vm_compute. reflexivity.
  - discriminate.
Defined.

(** X11: when no stored record has the [id] of the path, [GET], [PUT]
    and [DELETE /services/:id] all answer 404, "Service not found", and
    write nothing: the collection stays as it is. *)
Theorem unknown_id_not_found
  (user : option value) (pathname : string) (l : list value) (st : fs) :
  truthy user = true ->
  getServices st = (Return (JArr l), st) ->
  Forall (fun y => has_id (path_id pathname) y = Return false) l ->
  get_service user pathname st = (Return not_found, st)
  /\ delete_service user pathname st = (Return not_found, st)
  /\ (forall body updated,
        Json.parse body = Return updated ->
        update_service user pathname body st = (Return not_found, st)).
Proof.
  intros Huser Hload Hnone. split; [|split].
  - unfold get_service. rewrite Huser. cbn [negb].
    unfold bind_io, lift. rewrite Hload. cbn [array_find].
    rewrite (find_first_none _ l Hnone). reflexivity.
  - unfold delete_service. rewrite Huser. cbn [negb].
    unfold bind_io, lift. rewrite Hload. cbn [array_find_index].
    rewrite (find_index_none _ l 0 Hnone). reflexivity.
  - intros body updated Hparse.
    unfold update_service. rewrite Huser. cbn [negb].
    unfold try_io, bind_io, lift. rewrite Hparse, Hload. cbn [array_find_index].
    change (fun s => bind (get_prop s "id")
                          (fun x => Return (strict_eq_number x (path_id pathname))))
      with (has_id (path_id pathname)).
    rewrite (find_index_none _ l 0 Hnone). reflexivity.
Qed.

Lemma unknown_id_not_found_witness :
  delete_service (Some Samples.alice_claims) "/services/abc"
    Samples.disk_with_service
  = (Return not_found, Samples.disk_with_service).
Proof.
  refine (proj1 (proj2 (unknown_id_not_found (Some Samples.alice_claims)
                          "/services/abc" [Samples.clean_record]
                          Samples.disk_with_service eq_refl _ _))).
  - unfold getServices, try_io, bind_io, readFileSync, lift.
    change (Samples.disk_with_service servicesFile)
      with (Regular Samples.services_file).
    replace (Json.parse (Utf8.decode Samples.services_file))
      with (Return (JArr [Samples.clean_record])) by (vm_compute; reflexivity).
    reflexivity.
  - constructor; [vm_compute; reflexivity | constructor].
Defined.

(** X12: [GET /services/:id] answers 200 with the first record whose
    [id] is the number in the path, and writes nothing. *)
Theorem get_finds_first
  (user : option value) (pathname : string)
  (before after : list value) (x : value) (st : fs) :
  truthy user = true ->
  getServices st = (Return (JArr (before ++ x :: after)), st) ->
  Forall (fun y => has_id (path_id pathname) y = Return false) before ->
  has_id (path_id pathname) x = Return true ->
  get_service user pathname st = (Return (respond 200 x), st).
Proof.
  intros Huser Hload Hbefore Hx.
  unfold get_service. rewrite Huser. cbn [negb].
  unfold bind_io, lift. rewrite Hload. cbn [array_find].
  rewrite (find_first_hit _ before after x Hbefore Hx).
  destruct (has_id_object _ _ Hx) as (o & ->). reflexivity.
Qed.

Lemma get_finds_first_witness :
  get_service (Some Samples.alice_claims) "/services/1704067200000"
    Samples.disk_with_service
  = (Return (respond 200 Samples.clean_record), Samples.disk_with_service).
Proof.
  refine (get_finds_first (Some Samples.alice_claims)
            "/services/1704067200000" [] [] Samples.clean_record
            Samples.disk_with_service eq_refl _ _ _).
  - unfold getServices, try_io, bind_io, readFileSync, lift.
    change (Samples.disk_with_service servicesFile)
      with (Regular Samples.services_file).
    replace (Json.parse (Utf8.decode Samples.services_file))
      with (Return (JArr [Samples.clean_record])) by (vm_compute; reflexivity).
    reflexivity.
  - constructor.
  - vm_compute. reflexivity.
Defined.

(** ** The id in the path *)

Lemma digits_aux_length (fuel k : nat) :
  forall (n : Z) (acc : string),
    0 <= n < 10 ^ Z.of_nat (S k) ->
    (String.length (digits_aux fuel n acc) <= S k + String.length acc)%nat.
Proof.
  revert k. induction fuel as [|fuel IH]; intros k n acc Hn; simpl; [lia|].
  destruct (n <? 10) eqn:Hlt; simpl; [lia|].
  apply Z.ltb_ge in Hlt.
  destruct k as [|k]; [simpl in Hn; lia|].
  assert (Hn' : 0 <= n / 10 < 10 ^ Z.of_nat (S k)).
  { split; [apply Z.div_pos; lia|].
    apply Z.div_lt_upper_bound; [lia|].
    rewrite (Nat2Z.inj_succ (S k)), Z.pow_succ_r in Hn by lia. lia. }
  pose proof (IH k (n / 10) (String (digit_char (n mod 10)) acc) Hn') as L.
  simpl in L. lia.
Qed.

Lemma int_to_string_small (z : Z) :
  Z.abs z < 10 ^ 21 -> int_to_string z = sign_prefix z ++ digits (Z.abs z).
Proof.
  intros H. unfold int_to_string.
  assert (L : (String.length (digits (Z.abs z)) <= 21)%nat).
  { pose proof (digits_aux_length (S (Z.to_nat (Z.log2 (Z.abs z)))) 20
                  (Z.abs z) "" ltac:(lia)) as L.
    change (String.length "") with 0%nat in L. unfold digits. lia. }
  apply Nat.leb_le in L. rewrite L. reflexivity.
Qed.

Lemma all_chars_rev (p : ascii -> bool) (s : string) :
  forall acc, Text.all_chars p (rev_string s acc)
              = Text.all_chars p s && Text.all_chars p acc.
Proof.
  induction s as [|c s IH]; intros acc; [reflexivity|].
  cbn [rev_string Text.all_chars]. rewrite IH. cbn [Text.all_chars].
  destruct (p c), (Text.all_chars p s); reflexivity.
Qed.

Lemma trim_left_none (s : string) :
  Text.all_chars (fun c => negb (is_space c)) s = true -> trim_left s = s.
Proof.
  destruct s as [|c s]; [reflexivity|]. cbn [Text.all_chars trim_left].
  intros H. apply andb_true_iff in H as [Hc _].
  apply negb_true_iff in Hc. rewrite Hc. reflexivity.
Qed.

(** Text without white space is trimmed to itself. *)
Lemma trim_none (s : string) :
  Text.all_chars (fun c => negb (is_space c)) s = true -> trim s = s.
Proof.
  intros H. unfold trim. rewrite (trim_left_none s H).
  rewrite trim_left_none by (rewrite all_chars_rev, H; reflexivity).
  rewrite rev_string_rev. cbn [rev_string]. apply append_nil_r.
Qed.

Lemma all_chars_weaken (p q : ascii -> bool) (s : string) :
  (forall c, p c = true -> q c = true) ->
  Text.all_chars p s = true -> Text.all_chars q s = true.
Proof.
  intros Hpq. induction s as [|c s IH]; [reflexivity|].
  cbn [Text.all_chars]. intros H. apply andb_true_iff in H as [Hc Hs].
  rewrite (Hpq c Hc), (IH Hs). reflexivity.
Qed.

Lemma all_digits_chars (s : string) :
  all_digits s = Text.all_chars is_digit s.
Proof. induction s as [|c s IH]; [reflexivity|]. cbn. rewrite IH. reflexivity. Qed.

Lemma digit_is_plain (c : ascii) :
  is_digit c = true ->
  is_space c = false /\ Ascii.eqb c "/" = false
  /\ Ascii.eqb c "-" = false /\ Ascii.eqb c "+" = false.
Proof.
  destruct c as [[|] [|] [|] [|] [|] [|] [|] [|]]; intros H;
    try discriminate H; repeat split; reflexivity.
Qed.

Lemma no_slash_chars (s : string) :
  Text.all_chars (fun c => negb (Ascii.eqb c "/")) s = true ->
  Text.mem "/" s = false.
Proof.
  induction s as [|c s IH]; [reflexivity|].
  cbn [Text.all_chars Text.mem]. intros H. apply andb_true_iff in H as [Hc Hs].
  apply negb_true_iff in Hc. rewrite Hc, (IH Hs). reflexivity.
Qed.

(** The decimal text of a number that is not negative is read as that
    number. *)
Lemma unsigned_decimal_digits (n : Z) :
  0 <= n -> unsigned_decimal (digits n) = NFin n 0.
Proof.
  intros Hn. unfold unsigned_decimal.
  pose proof (all_digits_digits n Hn) as Hall.
  pose proof (read_digits_value n Hn) as Hval.
  pose proof (digits_nonempty n Hn) as Hne.
  assert (Hinf : String.eqb (digits n) "Infinity" = false).
  { apply String.eqb_neq. intros E. rewrite E in Hall. discriminate Hall. }
  rewrite Hinf.
  pose proof (span_digits_app (digits n) "" Hall) as Hspan.
  rewrite append_nil_r in Hspan. rewrite Hspan by (intros; discriminate).
  rewrite append_nil_r, Hval.
  destruct (digits n); [contradiction | reflexivity].
Qed.

Lemma string_to_number_integer (z : Z) :
  Z.abs z < 10 ^ 21 -> string_to_number (int_to_string z) = NFin z 0.
Proof.
  intros Hz. rewrite (int_to_string_small z Hz).
  pose proof (all_digits_digits _ (Z.abs_nonneg z)) as Hall.
  rewrite all_digits_chars in Hall.
  assert (Hplain : Text.all_chars (fun c => negb (is_space c))
                     (sign_prefix z ++ digits (Z.abs z)) = true).
  { rewrite all_chars_app. apply andb_true_iff. split.
    - unfold sign_prefix. destruct (z <? 0); reflexivity.
    - revert Hall. apply all_chars_weaken. intros c Hc.
      destruct (digit_is_plain c Hc) as (-> & _). reflexivity. }
  unfold string_to_number. rewrite (trim_none _ Hplain).
  pose proof (unsigned_decimal_digits _ (Z.abs_nonneg z)) as Hdec.
  unfold sign_prefix. destruct (Z.ltb_spec z 0) as [Hneg|Hpos].
  - cbn [append]. rewrite Hdec. cbn [negate]. f_equal. lia.
  - cbn [append]. replace (Z.abs z) with z in * by lia.
    destruct (Z.eq_dec z 0) as [->|Hnz]; [reflexivity|].
    destruct (digits_head z ltac:(lia)) as (c & r & E & Hc & H0).
    rewrite E in *. clear E.
    destruct c as [[|] [|] [|] [|] [|] [|] [|] [|]];
      try discriminate Hc; try discriminate H0; exact Hdec.
Qed.

Lemma path_id_services (z : Z) :
  Z.abs z < 10 ^ 21 -> path_id ("/services/" ++ int_to_string z) = NFin z 0.
Proof.
  intros Hz. unfold path_id.
  change ("/services/" ++ int_to_string z)
    with ("" ++ String "/"%char ("services" ++ String "/"%char (int_to_string z))).
  rewrite split_three; [| reflexivity | reflexivity |].
  - cbn [nth_error]. apply string_to_number_integer, Hz.
  - rewrite (int_to_string_small z Hz). apply no_slash_chars.
    rewrite all_chars_app. apply andb_true_iff. split.
    + unfold sign_prefix. destruct (z <? 0); reflexivity.
    + pose proof (all_digits_digits _ (Z.abs_nonneg z)) as Hall.
      rewrite all_digits_chars in Hall. revert Hall.
      apply all_chars_weaken. intros c Hc.
      destruct (digit_is_plain c Hc) as (_ & -> & _). reflexivity.
Qed.

Lemma has_id_number (n : Z) (o : object) :
  obj_get "id" o = Some (JNum n) ->
  forall z, has_id (NFin z 0) (JObj o) = Return (n =? z).
Proof.
  intros Hid z. unfold has_id. cbn [get_prop bind]. rewrite Hid.
  cbn. unfold scale. cbn. rewrite !Z.mul_1_r. reflexivity.
Qed.

(** X13: the path that the front end builds for a record, [/services/]
    followed by the decimal text of the [id], is read back as that [id]:
    the number in the path is the number the record carries. *)
Theorem path_id_of_id (z : Z) :
  Z.abs z < 10 ^ 21 ->
  path_id ("/services/" ++ int_to_string z) = NFin z 0
  /\ starts_with "/services/" ("/services/" ++ int_to_string z) = true
  /\ forall o, obj_get "id" o = Some (JNum z) ->
       has_id (path_id ("/services/" ++ int_to_string z)) (JObj o) = Return true.
Proof.
  intros Hz. pose proof (path_id_services z Hz) as Hpath.
  split; [exact Hpath|]. split; [reflexivity|].
  intros o Hid. rewrite Hpath, (has_id_number z o Hid), Z.eqb_refl. reflexivity.
Qed.

Lemma path_id_of_id_witness :
  path_id ("/services/" ++ int_to_string 1704067200000) = NFin 1704067200000 0.
Proof.
  apply (path_id_of_id 1704067200000). vm_compute. reflexivity.
Defined.

(** ** Creating, listing and fetching *)

Lemma create_service_appends
  (user : option value) (now : Z) (body : string) (o : object)
  (l : list value) (st : fs) :
  truthy user = true ->
  getServices st = (Return (JArr l), st) ->
  Json.parse body = Return (JObj o) ->
  st servicesFile <> Locked ->
  create_service user now body st
  = (Return (respond 201 (JObj (obj_set "id" (JNum now) o))),
     write servicesFile
       (Json.stringify_indented
          (JArr (l ++ [JObj (obj_set "id" (JNum now) o)])%list)) st).
Proof.
  intros Huser Hload Hparse Hfile.
  unfold create_service. rewrite Huser. cbn [negb].
  unfold try_io, bind_io, lift. rewrite Hparse. cbn [set_prop].
  rewrite Hload. cbn [array_push].
  unfold saveServices, writeFileSync.
  destruct (st servicesFile); try reflexivity. contradiction.
Qed.

Lemma list_services_loaded (user : option value) (v : value) (st : fs) :
  truthy user = true -> getServices st = (Return v, st) ->
  list_services user st = (Return (respond 200 v), st).
Proof.
  intros Huser Hload. unfold list_services. rewrite Huser. cbn [negb].
  unfold bind_io. rewrite Hload. reflexivity.
Qed.

(** X14: a record that [POST /services] has created is served
    afterwards: [GET /services] lists the earlier records in their order
    and the new one at the end, and [GET /services/:id] with the new
    [id] in the path answers with the new record, when no earlier record
    has that [id]. *)
Theorem created_is_served
  (user : option value) (now : Z) (body : string) (o : object)
  (l : list value) (st : fs) :
  truthy user = true ->
  getServices st = (Return (JArr l), st) ->
  Json.serializable (JArr l) = true ->
  Json.parse body = Return (JObj o) ->
  Json.serializable (JObj o) = true ->
  st servicesFile <> Locked ->
  Z.abs now < 10 ^ 21 ->
  Forall (fun y => has_id (NFin now 0) y = Return false) l ->
  let record := JObj (obj_set "id" (JNum now) o) in
  exists st',
    create_service user now body st = (Return (respond 201 record), st')
    /\ list_services user st'
       = (Return (respond 200 (JArr (l ++ [record])%list)), st')
    /\ get_service user ("/services/" ++ int_to_string now) st'
       = (Return (respond 200 record), st').
Proof.
  intros Huser Hload Hl Hparse Ho Hfile Hnow Hfresh record.
  assert (Hrec : Json.serializable record = true)
    by (apply serializable_set; try reflexivity; exact Ho).
  assert (Hload' := services_reloaded (l ++ [record]) st
                      (serializable_snoc _ _ Hl Hrec)).
  cbv zeta in Hload'.
  exists (write servicesFile
            (Json.stringify_indented (JArr (l ++ [record])%list)) st).
  split; [apply create_service_appends; assumption|].
  split; [apply list_services_loaded; assumption|].
  pose proof (path_id_services now Hnow) as Hpath.
  unfold get_service. rewrite Huser. cbn [negb].
  unfold bind_io, lift. rewrite Hload', Hpath. cbn [array_find].
  rewrite (find_first_hit _ l [] record Hfresh).
  - reflexivity.
  - unfold record. rewrite (has_id_number now) by apply obj_get_set.
    rewrite Z.eqb_refl. reflexivity.
Qed.

Lemma created_is_served_witness :
  let record := JObj [("service", JStr "Vacuum"); ("id", JNum 1704070800000)] in
  exists st',
    create_service (Some Samples.alice_claims) 1704070800000
      (Json.stringify (JObj Samples.create_fields)) Samples.disk_with_service
    = (Return (respond 201 record), st')
    /\ get_service (Some Samples.alice_claims) "/services/1704070800000" st'
       = (Return (respond 200 record), st').
Proof.
  intros record.
  destruct (created_is_served (Some Samples.alice_claims) 1704070800000
              (Json.stringify (JObj Samples.create_fields))
              Samples.create_fields [Samples.clean_record]
              Samples.disk_with_service)
    as (st' & Hcreate & _ & Hget).
  - reflexivity.
  - unfold getServices, try_io, bind_io, readFileSync, lift.
    change (Samples.disk_with_service servicesFile)
      with (Regular Samples.services_file).
    replace (Json.parse (Utf8.decode Samples.services_file))
      with (Return (JArr [Samples.clean_record])) by (vm_compute; reflexivity).
    reflexivity.
  - vm_compute. reflexivity.
  - vm_compute. reflexivity.
  - vm_compute. reflexivity.
  - discriminate.
  - vm_compute. reflexivity.
  - constructor; [vm_compute; reflexivity | constructor].
  - exists st'. split; [exact Hcreate | exact Hget].
Defined.

(** X15: the [id] is the clock reading, so two records created at the
    same reading carry the same [id]; both are stored, and
    [GET /services/:id] with that [id] answers with the one created
    first. *)
Theorem same_clock_same_id
  (user : option value) (now : Z) (body1 body2 : string) (o1 o2 : object)
  (l : list value) (st : fs) :
  truthy user = true ->
  getServices st = (Return (JArr l), st) ->
  Json.serializable (JArr l) = true ->
  Json.parse body1 = Return (JObj o1) -> Json.serializable (JObj o1) = true ->
  Json.parse body2 = Return (JObj o2) -> Json.serializable (JObj o2) = true ->
  st servicesFile <> Locked ->
  Z.abs now < 10 ^ 21 ->
  Forall (fun y => has_id (NFin now 0) y = Return false) l ->
  let first := JObj (obj_set "id" (JNum now) o1) in
  let second := JObj (obj_set "id" (JNum now) o2) in
  exists st1 st2,
    create_service user now body1 st = (Return (respond 201 first), st1)
    /\ create_service user now body2 st1 = (Return (respond 201 second), st2)
    /\ getServices st2 = (Return (JArr (l ++ [first; second])%list), st2)
    /\ get_prop first "id" = get_prop second "id"
    /\ get_service user ("/services/" ++ int_to_string now) st2
       = (Return (respond 200 first), st2).
Proof.
  intros Huser Hload Hl Hp1 Ho1 Hp2 Ho2 Hfile Hnow Hfresh first second.
  assert (H1 : Json.serializable first = true)
    by (apply serializable_set; try reflexivity; exact Ho1).
  assert (H2 : Json.serializable second = true)
    by (apply serializable_set; try reflexivity; exact Ho2).
  pose proof (serializable_snoc _ _ Hl H1) as Hl1.
  pose proof (serializable_snoc _ _ Hl1 H2) as Hl2.
  pose proof (services_reloaded (l ++ [first]) st Hl1) as Hload1.
  cbv zeta in Hload1.
  set (st1 := write servicesFile
                (Json.stringify_indented (JArr (l ++ [first])%list)) st) in *.
  pose proof (services_reloaded ((l ++ [first]) ++ [second]) st1 Hl2) as Hload2.
  cbv zeta in Hload2.
  set (st2 := write servicesFile
                (Json.stringify_indented (JArr ((l ++ [first]) ++ [second])%list))
                st1) in *.
  exists st1, st2.
  split; [apply create_service_appends; assumption|].
  split.
  { apply create_service_appends; try assumption.
    unfold st1. rewrite write_read. discriminate. }
  rewrite <- app_assoc in Hload2. cbn [app] in Hload2.
  split; [exact Hload2|].
  split.
  { unfold first, second. cbn [get_prop]. rewrite !obj_get_set. reflexivity. }
  unfold get_service. rewrite Huser. cbn [negb].
  unfold bind_io, lift. rewrite Hload2, (path_id_services now Hnow).
  cbn [array_find].
  rewrite (find_first_hit _ l [second] first Hfresh).
  - reflexivity.
  - unfold first. rewrite (has_id_number now) by apply obj_get_set.
    rewrite Z.eqb_refl. reflexivity.
Qed.

Lemma same_clock_same_id_witness :
  exists st1 st2,
    create_service (Some Samples.alice_claims) 1704070800000
      (Json.stringify (JObj Samples.create_fields)) Samples.disk_with_service
    = (Return (respond 201 (JObj [("service", JStr "Vacuum");
                                  ("id", JNum 1704070800000)])), st1)
    /\ create_service (Some Samples.alice_claims) 1704070800000
         (Json.stringify (JObj Samples.update_fields)) st1
       = (Return (respond 201 (JObj [("service", JStr "Brush");
                                     ("id", JNum 1704070800000)])), st2)
    /\ get_service (Some Samples.alice_claims) "/services/1704070800000" st2
       = (Return (respond 200 (JObj [("service", JStr "Vacuum");
                                     ("id", JNum 1704070800000)])), st2).
Proof.
  destruct (same_clock_same_id (Some Samples.alice_claims) 1704070800000
              (Json.stringify (JObj Samples.create_fields))
              (Json.stringify (JObj Samples.update_fields))
              Samples.create_fields Samples.update_fields
              [Samples.clean_record] Samples.disk_with_service)
    as (st1 & st2 & Hc1 & Hc2 & _ & _ & Hget).
  - reflexivity.
  - unfold getServices, try_io, bind_io, readFileSync, lift.
    change (Samples.disk_with_service servicesFile)
      with (Regular Samples.services_file).
    replace (Json.parse (Utf8.decode Samples.services_file))
      with (Return (JArr [Samples.clean_record])) by (vm_compute; reflexivity).
    reflexivity.
  - vm_compute. reflexivity.
  - vm_compute. reflexivity.
  - vm_compute. reflexivity.
  - vm_compute. reflexivity.
  - vm_compute. reflexivity.
  - discriminate.
  - vm_compute. reflexivity.
  - constructor; [vm_compute; reflexivity | constructor].
  - exists st1, st2. auto.
Defined.

(** X16: when the services file holds JSON that is no array,
    [GET /services] answers 200 with that value, [POST /services] and
    [PUT /services/:id] answer 400, "Invalid JSON", whatever the body,
    and [GET] and [DELETE /services/:id], which no [try] surrounds, throw
    a [TypeError] out of the listener.  Nothing is written. *)
Theorem store_without_array
  (user : option value) (v : value) (st : fs) :
  truthy user = true ->
  getServices st = (Return v, st) ->
  (forall l, v <> JArr l) ->
  list_services user st = (Return (respond 200 v), st)
  /\ (forall now body,
        create_service user now body st
        = (Return (respond 400 (error_body "Invalid JSON")), st))
  /\ (forall pathname body,
        update_service user pathname body st
        = (Return (respond 400 (error_body "Invalid JSON")), st))
  /\ (forall pathname,
        get_service user pathname st = (Throw TypeError, st)
        /\ delete_service user pathname st = (Throw TypeError, st)).
Proof.
  intros Huser Hload Harr.
  assert (Hfind : forall pred, array_find pred v = Throw TypeError)
    by (intros pred; destruct v; try reflexivity; exfalso; eapply Harr; reflexivity).
  assert (Hindex : forall pred, array_find_index pred v = Throw TypeError)
    by (intros pred; destruct v; try reflexivity; exfalso; eapply Harr; reflexivity).
  assert (Hpush : forall x, array_push v x = Throw TypeError)
    by (intros x; destruct v; try reflexivity; exfalso; eapply Harr; reflexivity).
  split; [apply list_services_loaded; assumption|].
  split; [|split].
  - intros now body. unfold create_service. rewrite Huser. cbn [negb].
    unfold try_io, bind_io, lift.
    destruct (Json.parse body) as [parsed|e]; [|reflexivity].
    destruct (set_prop parsed "id" (JNum now)) as [x|e]; [|reflexivity].
    rewrite Hload, Hpush. reflexivity.
  - intros pathname body. unfold update_service. rewrite Huser. cbn [negb].
    unfold try_io, bind_io, lift.
    destruct (Json.parse body) as [parsed|e]; [|reflexivity].
    rewrite Hload, Hindex. reflexivity.
  - intros pathname. split.
    + unfold get_service. rewrite Huser. cbn [negb].
      unfold bind_io, lift. rewrite Hload, Hfind. reflexivity.
    + unfold delete_service. rewrite Huser. cbn [negb].
      unfold bind_io, lift. rewrite Hload, Hindex. reflexivity.
Qed.

Lemma store_without_array_witness :
  let st := write servicesFile "{}" (fun _ => Missing) in
  get_service (Some Samples.alice_claims) "/services/1" st = (Throw TypeError, st)
  /\ create_service (Some Samples.alice_claims) 5 "{}" st
     = (Return (respond 400 (error_body "Invalid JSON")), st).
Proof.
  intros st.
  destruct (store_without_array (Some Samples.alice_claims) (JObj []) st)
    as (_ & Hcreate & _ & Hget).
  - reflexivity.
  - vm_compute. reflexivity.
  - intros l. discriminate.
  - split; [apply Hget | apply Hcreate].
Defined.

(** ** The request listener *)

Lemma same_except_refl (paths : list string) (st : fs) : same_except paths st st.
Proof. intros p _. reflexivity. Qed.

Lemma same_except_trans (paths : list string) (a b c : fs) :
  same_except paths a b -> same_except paths b c -> same_except paths a c.
Proof. intros H1 H2 p Hp. rewrite (H2 p Hp). apply H1, Hp. Qed.

Lemma same_except_more (paths paths' : list string) (a b : fs) :
  incl paths paths' -> same_except paths a b -> same_except paths' a b.
Proof. intros Hin H p Hp. apply H. intros Hp'. apply Hp, Hin, Hp'. Qed.

Lemma same_except_write (path data : string) (st : fs) :
  same_except [path] st (write path data st).
Proof.
  intros p Hp. unfold write. destruct (String.eqb_spec p path) as [->|]; [|reflexivity].
  exfalso. apply Hp. left. reflexivity.
Qed.

Lemma writes_only_ret {A : Type} (paths : list string) (a : A) :
  writes_only paths (ret a).
Proof. intros st. apply same_except_refl. Qed.

Lemma writes_only_lift {A : Type} (paths : list string) (c : completion A) :
  writes_only paths (lift c).
Proof. intros st. apply same_except_refl. Qed.

Lemma writes_only_bind {A B : Type} (paths : list string)
  (m : io A) (k : A -> io B) :
  writes_only paths m -> (forall a, writes_only paths (k a)) ->
  writes_only paths (bind_io m k).
Proof.
  intros Hm Hk st. unfold bind_io. specialize (Hm st).
  destruct (m st) as [[a|e] st1]; [|exact Hm].
  eapply same_except_trans; [exact Hm | apply Hk].
Qed.

Lemma writes_only_try {A : Type} (paths : list string)
  (m : io A) (h : error -> io A) :
  writes_only paths m -> (forall e, writes_only paths (h e)) ->
  writes_only paths (try_io m h).
Proof.
  intros Hm Hh st. unfold try_io. specialize (Hm st).
  destruct (m st) as [[a|e] st1]; [exact Hm|].
  eapply same_except_trans; [exact Hm | apply Hh].
Qed.

Lemma writes_only_if {A : Type} (paths : list string) (b : bool) (m n : io A) :
  writes_only paths m -> writes_only paths n ->
  writes_only paths (if b then m else n).
Proof. destruct b; auto. Qed.

Lemma writes_only_more {A : Type} (paths paths' : list string) (m : io A) :
  incl paths paths' -> writes_only paths m -> writes_only paths' m.
Proof. intros Hin H st. eapply same_except_more; [exact Hin | apply H]. Qed.

Lemma writes_only_read (paths : list string) (path : string) :
  writes_only paths (readFileSync path).
Proof.
  intros st. unfold readFileSync. destruct (st path); apply same_except_refl.
Qed.

Lemma writes_only_write (path data : string) :
  writes_only [path] (writeFileSync path data).
Proof.
  intros st. unfold writeFileSync.
  destruct (st path); try apply same_except_write. apply same_except_refl.
Qed.

Lemma writes_only_getUsers (paths : list string) : writes_only paths getUsers.
Proof.
  intros st. destruct (getUsers_total st) as (v & ->). apply same_except_refl.
Qed.

Lemma writes_only_getServices (paths : list string) : writes_only paths getServices.
Proof.
  intros st. destruct (getServices_total st) as (v & ->). apply same_except_refl.
Qed.

Ltac frame :=
  repeat first
    [ apply writes_only_ret
    | apply writes_only_lift
    | apply writes_only_getUsers
    | apply writes_only_getServices
    | apply writes_only_write
    | apply writes_only_try; [|intros ?]
    | apply writes_only_bind; [|intros ?]
    | apply writes_only_if
    | match goal with
      | |- writes_only _ (match ?x with _ => _ end) => destruct x
      end ].

Lemma register_frame (body : string) : writes_only [usersFile] (register body).
Proof. unfold register, saveUsers. frame. Qed.

Lemma login_frame (secret : string) (now : Z) (body : string) (paths : list string) :
  writes_only paths (login secret now body).
Proof. unfold login. frame. Qed.

Lemma create_service_frame (user : option value) (now : Z) (body : string) :
  writes_only [servicesFile] (create_service user now body).
Proof. unfold create_service, unauthorized, saveServices. frame. Qed.

Lemma update_service_frame (user : option value) (pathname body : string) :
  writes_only [servicesFile] (update_service user pathname body).
Proof. unfold update_service, unauthorized, saveServices. frame. Qed.

Lemma delete_service_frame (user : option value) (pathname : string) :
  writes_only [servicesFile] (delete_service user pathname).
Proof. unfold delete_service, unauthorized, saveServices. frame. Qed.

Lemma get_service_frame (user : option value) (pathname : string)
  (paths : list string) :
  writes_only paths (get_service user pathname).
Proof. unfold get_service, unauthorized. frame. Qed.

Lemma list_services_frame (user : option value) (paths : list string) :
  writes_only paths (list_services user).
Proof. unfold list_services, unauthorized. frame. Qed.

Lemma root_page_frame (paths : list string) : writes_only paths root_page.
Proof.
  intros st. unfold root_page. destruct (st indexPath); apply same_except_refl.
Qed.

Lemma route_frame (secret : string) (now : Z) (user : option value) (req : request) :
  writes_only [usersFile; servicesFile] (route secret now user req).
Proof.
  unfold route.
  repeat (apply writes_only_if;
          [first [ eapply writes_only_more; [|apply register_frame];
                   intros p [<-|[]]; cbn; auto
                 | apply login_frame
                 | apply root_page_frame
                 | apply writes_only_ret
                 | apply get_service_frame
                 | apply list_services_frame
                 | eapply writes_only_more;
                   [|first [apply create_service_frame
                           | apply update_service_frame
                           | apply delete_service_frame]];
                   intros p [<-|[]]; cbn; auto ] |]).
  apply writes_only_ret.
Qed.

Lemma req_user_returns (secret : string) (now : Z) (header : option string) :
  exists user, req_user secret now header = Return user.
Proof.
  unfold req_user. destruct header as [h|]; [|eauto].
  destruct (Json.strip_prefix "Bearer " h) as [token|]; [|eauto].
  destruct (verifyToken_total secret now token) as (v & ->). cbn [bind]. eauto.
Qed.

Lemma req_user_unauthenticated (secret : string) (now : Z) (req : request) :
  unauthenticated secret now req ->
  req_user secret now (authorization req) = Return None.
Proof.
  unfold req_user.
  intros [-> | [(h & -> & Hh) | (token & v & -> & Hv & Hfalsy)]].
  - reflexivity.
  - unfold starts_with in Hh.
    destruct (Json.strip_prefix "Bearer " h); [discriminate Hh | reflexivity].
  - cbn [append Json.strip_prefix Ascii.eqb Bool.eqb].
    rewrite Hv. cbn [bind]. rewrite Hfalsy. reflexivity.
Qed.

Lemma handle_routes
  (secret stamp : string) (now_auth now_end : Z) (req : request)
  (user : option value) (st : fs) :
  String.eqb (method req) "OPTIONS" = false ->
  req_user secret now_auth (authorization req) = Return user ->
  handle secret stamp now_auth now_end req st
  = route secret now_end user req (logRequest stamp req st).
Proof.
  intros Hm Hu. unfold handle. rewrite Hm. unfold bind_io, lift. rewrite Hu.
  reflexivity.
Qed.

Lemma logRequest_frame (stamp : string) (req : request) (st : fs) :
  same_except [logFile] st (logRequest stamp req st).
Proof.
  unfold logRequest, appendFile.
  destruct (st logFile); try apply same_except_write. apply same_except_refl.
Qed.

(** Without a user, no route writes the services. *)
Lemma route_frame_none (secret : string) (now : Z) (req : request) :
  writes_only [usersFile] (route secret now None req).
Proof.
  unfold route.
  repeat (apply writes_only_if;
          [first [ apply register_frame
                 | apply login_frame
                 | apply root_page_frame
                 | apply writes_only_ret ] |]).
  apply writes_only_ret.
Qed.

(** X17: a request without a bearer token that [verifyToken] accepts, be
    it that the [Authorization] header is missing, that it does not
    start with [Bearer ] or that the token is rejected, is answered 401,
    "Unauthorized", on every route of the services, [GET /services],
    [POST /services] and [GET], [PUT] and [DELETE /services/:id],
    whatever the id and the body; and whatever the route, the services
    file is not written. *)
Theorem unauthenticated_is_refused
  (secret stamp : string) (now_auth now_end : Z) (req : request) (st : fs) :
  unauthenticated secret now_auth req ->
  (services_route req = true ->
   fst (handle secret stamp now_auth now_end req st) = Return unauthorized)
  /\ same_except [logFile; usersFile] st
       (snd (handle secret stamp now_auth now_end req st)).
Proof.
  intros Hauth. pose proof (req_user_unauthenticated _ _ _ Hauth) as Huser.
  destruct (String.eqb (method req) "OPTIONS") eqn:Hopt.
  - apply String.eqb_eq in Hopt. split.
    + intros H. unfold services_route in H. rewrite Hopt in H.
      cbn [String.eqb Ascii.eqb Bool.eqb andb orb] in H. discriminate H.
    + unfold handle. rewrite Hopt. cbn [String.eqb Ascii.eqb Bool.eqb snd].
      eapply same_except_more; [|apply logRequest_frame].
      intros p [<-|[]]. left. reflexivity.
  - rewrite (handle_routes _ _ _ _ _ None st Hopt Huser). split.
    + intros Hroute. generalize (logRequest stamp req st). intros st1.
      unfold services_route in Hroute. unfold route.
      destruct req as [m u p a c]. cbn [method pathname content] in *.
      unfold get_service, list_services, create_service, update_service,
        delete_service. cbn [truthy negb].
      destruct (String.eqb_spec m "GET") as [->|Hget].
      * cbn [String.eqb Ascii.eqb Bool.eqb andb orb] in *.
        rewrite ?orb_false_r in Hroute.
        destruct (String.eqb_spec p "/") as [->|_]; [discriminate Hroute|].
        destruct (String.eqb_spec p "/status") as [->|_]; [discriminate Hroute|].
        destruct (starts_with "/services/" p); [reflexivity|].
        cbn [orb] in Hroute. rewrite Hroute. reflexivity.
      * destruct (String.eqb_spec m "POST") as [->|Hpost].
        -- cbn [String.eqb Ascii.eqb Bool.eqb andb orb] in *.
           rewrite ?orb_false_r in Hroute. apply String.eqb_eq in Hroute.
           subst p. reflexivity.
        -- cbn [andb orb] in *.
           destruct (String.eqb_spec m "PUT") as [->|Hput].
           ++ cbn [orb andb] in Hroute. rewrite Hroute. reflexivity.
           ++ destruct (String.eqb_spec m "DELETE") as [->|Hdel];
                [|discriminate Hroute].
              cbn [orb andb] in Hroute. rewrite Hroute. reflexivity.
    + eapply same_except_trans.
      * eapply same_except_more; [|apply logRequest_frame].
        intros p [<-|[]]. left. reflexivity.
      * eapply same_except_more; [|apply route_frame_none].
        intros p [<-|[]]. right. left. reflexivity.
Qed.

Lemma unauthenticated_is_refused_witness :
  fst (handle Samples.secret "2023-11-14T22:13:20.123Z" 1700000000123
         1700000000125
         (Request "DELETE" "/services/1704067200000" "/services/1704067200000"
            (Some ("Bearer " ++ Samples.damaged_token)) "")
         Samples.disk_with_service)
  = Return unauthorized.
Proof.
  refine (proj1 (unauthenticated_is_refused Samples.secret _ 1700000000123
                   1700000000125 _ Samples.disk_with_service _) _).
  - right. right. exists Samples.damaged_token, JNull.
    split; [reflexivity|]. split; [vm_compute; reflexivity | reflexivity].
  - reflexivity.
Defined.

(** X18: the methods that the listener routes are [GET], [POST], [PUT]
    and [DELETE].  A request with [OPTIONS] is answered 204 without a
    body whatever its path and headers, and one with any other method
    404, "Not Found"; neither writes a file other than the log. *)
Theorem other_methods
  (secret stamp : string) (now_auth now_end : Z) (req : request) (st : fs) :
  ~ In (method req) ["GET"; "POST"; "PUT"; "DELETE"] ->
  handle secret stamp now_auth now_end req st
  = (Return (if String.eqb (method req) "OPTIONS" then no_content
             else plain 404 "Not Found"),
     logRequest stamp req st)
  /\ same_except [logFile] st (logRequest stamp req st).
Proof.
  intros Hm. split; [|apply logRequest_frame].
  destruct (String.eqb (method req) "OPTIONS") eqn:Hopt.
  - unfold handle. rewrite Hopt. reflexivity.
  - destruct (req_user_returns secret now_auth (authorization req)) as (user & Hu).
    rewrite (handle_routes _ _ _ _ _ user st Hopt Hu).
    unfold route.
    assert (Hget : String.eqb (method req) "GET" = false)
      by (apply String.eqb_neq; intros E; apply Hm; rewrite E; cbn; auto).
    assert (Hpost : String.eqb (method req) "POST" = false)
      by (apply String.eqb_neq; intros E; apply Hm; rewrite E; cbn; auto).
    assert (Hput : String.eqb (method req) "PUT" = false)
      by (apply String.eqb_neq; intros E; apply Hm; rewrite E; cbn; auto).
    assert (Hdel : String.eqb (method req) "DELETE" = false)
      by (apply String.eqb_neq; intros E; apply Hm; rewrite E; cbn; auto).
    rewrite Hget, Hpost, Hput, Hdel. reflexivity.
Qed.

Lemma other_methods_witness :
  handle Samples.secret "2023-11-14T22:13:20.123Z" 1700000000123 1700000000125
    (Request "PATCH" "/services/1" "/services/1"
       (Some ("Bearer " ++ Samples.alice_token)) "{}")
    Samples.disk_with_service
  = (Return (plain 404 "Not Found"),
     logRequest "2023-11-14T22:13:20.123Z"
       (Request "PATCH" "/services/1" "/services/1"
          (Some ("Bearer " ++ Samples.alice_token)) "{}")
       Samples.disk_with_service).
Proof.
  refine (proj1 (other_methods Samples.secret _ 1700000000123 1700000000125
                   (Request "PATCH" "/services/1" "/services/1"
                      (Some ("Bearer " ++ Samples.alice_token)) "{}")
                   Samples.disk_with_service _)).
  cbn. intros [H|[H|[H|[H|[]]]]]; discriminate H.
Defined.

(** X19: every request that is answered is logged once: whatever the
    method, the route and the answer, the log file after the request is
    the log file before it followed by one line, the time stamp, the
    method and the URL, or that line alone when there was no log file.
    A log that cannot be written is left as it is. *)
Theorem every_request_logged
  (secret stamp : string) (now_auth now_end : Z) (req : request)
  (r : response) (st st' : fs) :
  handle secret stamp now_auth now_end req st = (Return r, st') ->
  st' logFile
  = match st logFile with
    | Regular old => Regular (old ++ log_line stamp req)
    | Missing => Regular (log_line stamp req)
    | Locked => Locked
    end.
Proof.
  intros Hhandle.
  assert (Hlog : logRequest stamp req st logFile
                 = match st logFile with
                   | Regular old => Regular (old ++ log_line stamp req)
                   | Missing => Regular (log_line stamp req)
                   | Locked => Locked
                   end).
  { unfold logRequest, appendFile. fold (log_line stamp req).
    destruct (st logFile) eqn:E; rewrite ?write_read; auto. }
  rewrite <- Hlog.
  replace st' with (snd (handle secret stamp now_auth now_end req st))
    by (rewrite Hhandle; reflexivity).
  destruct (String.eqb (method req) "OPTIONS") eqn:Hopt.
  - unfold handle. rewrite Hopt. reflexivity.
  - destruct (req_user_returns secret now_auth (authorization req)) as (user & Hu).
    rewrite (handle_routes _ _ _ _ _ user st Hopt Hu).
    apply (route_frame secret now_end user req (logRequest stamp req st)).
    cbn. intros [H|[H|[]]]; discriminate H.
Qed.

Lemma every_request_logged_witness :
  snd (handle Samples.secret "2023-11-14T22:13:20.123Z" 1700000000123
         1700000000125 (Request "GET" "/status?x=1" "/status" None "")
         (fun _ => Missing)) logFile
  = Regular ("2023-11-14T22:13:20.123Z GET /status?x=1" ++ Json.newline).
Proof.
  apply (every_request_logged Samples.secret "2023-11-14T22:13:20.123Z"
           1700000000123 1700000000125
           (Request "GET" "/status?x=1" "/status" None "")
           (respond 200 (JObj [("status", JStr "ok")])) (fun _ => Missing)).
  reflexivity.
Defined.

Lemma getServices_same (st st1 : fs) (v : value) :
  st1 servicesFile = st servicesFile ->
  getServices st = (Return v, st) -> getServices st1 = (Return v, st1).
Proof.
  unfold getServices, try_io, bind_io, readFileSync, lift, ret.
  intros ->. destruct (st servicesFile).
  - intros H. injection H as <-. reflexivity.
  - intros H. injection H as <-. reflexivity.
  - destruct (Json.parse (Utf8.decode data)); intros H; injection H as <-;
      reflexivity.
Qed.

Lemma getUsers_same (st st1 : fs) (v : value) :
  st1 usersFile = st usersFile ->
  getUsers st = (Return v, st) -> getUsers st1 = (Return v, st1).
Proof.
  unfold getUsers, try_io, bind_io, readFileSync, lift, ret.
  intros ->. destruct (st usersFile).
  - intros H. injection H as <-. reflexivity.
  - intros H. injection H as <-. reflexivity.
  - destruct (Json.parse (Utf8.decode data)); intros H; injection H as <-;
      reflexivity.
Qed.

Lemma req_user_bearer (secret : string) (now : Z) (token : string) (o : object) :
  Token.verifyToken secret now token = Return (JObj o) ->
  req_user secret now (Some ("Bearer " ++ token)) = Return (Some (JObj o)).
Proof.
  intros H. unfold req_user.
  cbn [append Json.strip_prefix Ascii.eqb Bool.eqb]. rewrite H. reflexivity.
Qed.

(** X20: the token of a login opens the services.  A [POST /login] with
    the name and password of a stored user is answered 200 with a token,
    and a [GET /services] that carries the token as [Bearer] in its
    [Authorization] header within 3600 seconds is answered 200 with the
    stored services.  The two requests write nothing but their two log
    lines. *)
Theorem login_token_grants_access
  (secret stamp1 stamp2 url1 url2 body body2 name pw : string)
  (auth1 : option string) (now_auth1 now_end1 now_auth2 now_end2 : Z)
  (before after : list value) (u : object) (services : value) (st : fs) :
  credentials body name pw ->
  getUsers st = (Return (JArr (before ++ JObj u :: after)), st) ->
  Forall (fun y => has_username (Some (JStr name)) y = Return false) before ->
  obj_get "username" u = Some (JStr name) ->
  obj_get "passwordHash" u = Some (JStr (sha256_hex pw)) ->
  Utf8.well_formed name = true ->
  getServices st = (Return services, st) ->
  Token.seconds now_end1 + 3600 <> 0 ->
  Token.seconds now_auth2 <= Token.seconds now_end1 + 3600 ->
  exists token st1 st2,
    handle secret stamp1 now_auth1 now_end1
      (Request "POST" url1 "/login" auth1 body) st
    = (Return (respond 200 (JObj [("message", JStr "Login successful");
                                  ("token", JStr token)])), st1)
    /\ handle secret stamp2 now_auth2 now_end2
         (Request "GET" url2 "/services" (Some ("Bearer " ++ token)) body2) st1
       = (Return (respond 200 services), st2)
    /\ same_except [logFile] st st2.
Proof.
  intros Hcred Husers Hbefore Hname Hhash Hwf Hservices Hnz Hle.
  destruct (generate_verify secret now_end1 now_auth2 [("username", JStr name)])
    as (token & Hgen & Hver).
  { cbn. rewrite Hwf. reflexivity. }
  cbv zeta in Hver.
  cbn [obj_get String.eqb Ascii.eqb Bool.eqb Token.expiry_of] in Hver.
  rewrite (expired_after _ _ Hnz) in Hver.
  apply Z.ltb_ge in Hle. rewrite Hle in Hver. cbn [bind try_catch] in Hver.
  set (req1 := Request "POST" url1 "/login" auth1 body).
  set (req2 := Request "GET" url2 "/services" (Some ("Bearer " ++ token)) body2).
  set (st1 := logRequest stamp1 req1 st).
  set (st2 := logRequest stamp2 req2 st1).
  assert (F1 : same_except [logFile] st st1) by apply logRequest_frame.
  assert (F2 : same_except [logFile] st1 st2) by apply logRequest_frame.
  assert (Hout : forall p, In p [usersFile; servicesFile] -> ~ In p [logFile]).
  { intros p [<-|[<-|[]]] [E|[]]; discriminate E. }
  exists token, st1, st2. split; [|split].
  - destruct (req_user_returns secret now_auth1 auth1) as (user & Hu).
    rewrite (handle_routes _ _ _ _ req1 user st eq_refl Hu).
    fold st1. unfold route. cbn [method pathname content req1 String.eqb
                                  Ascii.eqb Bool.eqb andb].
    assert (Husers1 : getUsers st1
                      = (Return (JArr (before ++ JObj u :: after)), st1)).
    { apply (getUsers_same st); [|exact Husers].
      apply F1, Hout. left. reflexivity. }
    rewrite (login_search secret now_end1 body name pw _ st1 Hcred Husers1).
    unfold try_io, bind_io, lift. cbn [array_find].
    rewrite (find_first_hit _ before after (JObj u) Hbefore
               (has_username_named name u Hname)).
    cbn [truthy negb or_null get_prop]. rewrite Hhash.
    rewrite (proj2 (strict_eq_text _ _) eq_refl), Hgen. reflexivity.
  - rewrite (handle_routes _ _ _ _ req2 _ st1 eq_refl
               (req_user_bearer _ _ _ _ Hver)).
    fold st2. unfold route. cbn [method pathname content req2 String.eqb
                                  Ascii.eqb Bool.eqb andb starts_with
                                  Json.strip_prefix].
    apply list_services_loaded; [reflexivity|].
    apply (getServices_same st); [|exact Hservices].
    rewrite (F2 servicesFile), (F1 servicesFile); [reflexivity | |];
      apply Hout; right; left; reflexivity.
  - eapply same_except_trans; eassumption.
Qed.

Lemma login_token_grants_access_witness :
  let st : fs :=
    fun p => if String.eqb p servicesFile then Regular Samples.services_file
             else Samples.disk_with_alice p in
  exists token st1 st2,
    handle Samples.secret "2023-11-14T22:13:20.123Z" 1700000000100 1700000000123
      (Request "POST" "/login" "/login" None
         (Json.stringify (JObj [("username", JStr "alice");
                                ("password", JStr "pw1")]))) st
    = (Return (respond 200 (JObj [("message", JStr "Login successful");
                                  ("token", JStr token)])), st1)
    /\ handle Samples.secret "2023-11-14T22:14:20.123Z" 1700000060123 1700000060125
         (Request "GET" "/services" "/services" (Some ("Bearer " ++ token)) "") st1
       = (Return (respond 200 (JArr [Samples.clean_record])), st2).
Proof.
  intros st.
  destruct (login_token_grants_access Samples.secret
              "2023-11-14T22:13:20.123Z" "2023-11-14T22:14:20.123Z"
              "/login" "/services"
              (Json.stringify (JObj [("username", JStr "alice");
                                     ("password", JStr "pw1")])) ""
              "alice" "pw1" None 1700000000100 1700000000123
              1700000060123 1700000060125 [] []
              [("username", JStr "alice");
               ("passwordHash", JStr (sha256_hex "pw1"))]
              (JArr [Samples.clean_record]) st)
    as (token & st1 & st2 & H1 & H2 & _).
  - exists (JObj [("username", JStr "alice"); ("password", JStr "pw1")]).
    split; [vm_compute; reflexivity|]. repeat split; discriminate.
  - apply (getUsers_regular _ Samples.users_file); [reflexivity|].
    vm_compute. reflexivity.
  - constructor.
  - reflexivity.
  - reflexivity.
  - reflexivity.
  - unfold getServices, try_io, bind_io, readFileSync, lift.
    change (st servicesFile) with (Regular Samples.services_file).
    replace (Json.parse (Utf8.decode Samples.services_file))
      with (Return (JArr [Samples.clean_record])) by (vm_compute; reflexivity).
    reflexivity.
  - vm_compute. discriminate.
  - vm_compute. discriminate.
  - exists token, st1, st2. auto.
Defined.

(** ** The [.env] file *)

Lemma load_line_entry (e : Env.env) (line : string) :
  Env.load_line e line
  = match Env.entry line with
    | Some (k, v) => if Env.defined k e then e else Env.set k v e
    | None => e
    end.
Proof.
  unfold Env.load_line, Env.entry.
  destruct (Text.split "=" (Env.trim line)) as [|key vals].
  - destruct (_ || _); reflexivity.
  - destruct (String.eqb (Env.trim line) "" || starts_with "#" (Env.trim line));
      [reflexivity|].
    cbn [orb]. destruct (String.eqb key ""); [reflexivity|].
    destruct (Env.defined key e); reflexivity.
Qed.

(** A variable that is defined stays as it is. *)
Lemma load_lines_defined (lines : list string) :
  forall (e : Env.env) (k : string),
    Env.defined k e = true ->
    fold_left Env.load_line lines e k = e k.
Proof.
  induction lines as [|line rest IH]; intros e k Hk; [reflexivity|].
  cbn [fold_left]. rewrite load_line_entry.
  destruct (Env.entry line) as [[k' v]|]; [|apply IH, Hk].
  destruct (Env.defined k' e) eqn:Hk'; [apply IH, Hk|].
  assert (Hne : String.eqb k k' = false).
  { apply String.eqb_neq. intros ->. congruence. }
  rewrite IH.
  - unfold Env.set. rewrite Hne. reflexivity.
  - unfold Env.defined, Env.set in *. rewrite Hne. exact Hk.
Qed.

(** A variable that is not defined gets the value of the file. *)
Lemma load_lines_undefined (lines : list string) :
  forall (e : Env.env) (k : string),
    Env.defined k e = false ->
    fold_left Env.load_line lines e k
    = match Env.value_of k (Env.entries lines) with
      | Some v => Some v
      | None => e k
      end.
Proof.
  induction lines as [|line rest IH]; intros e k Hk; [reflexivity|].
  cbn [fold_left Env.entries]. rewrite load_line_entry.
  destruct (Env.entry line) as [[k' v]|]; [|apply IH, Hk].
  cbn [Env.value_of].
  destruct (Env.defined k' e) eqn:Hk'.
  - assert (Hne : String.eqb k' k = false).
    { apply String.eqb_neq. intros ->. congruence. }
    rewrite Hne. apply IH, Hk.
  - destruct (String.eqb_spec k' k) as [->|Hne].
    + destruct (String.eqb_spec v "") as [->|Hv].
      * rewrite IH.
        -- unfold Env.set. rewrite String.eqb_refl.
           destruct (Env.value_of k (Env.entries rest)); reflexivity.
        -- unfold Env.defined, Env.set. rewrite String.eqb_refl. reflexivity.
      * rewrite load_lines_defined.
        -- unfold Env.set. rewrite String.eqb_refl. reflexivity.
        -- unfold Env.defined, Env.set. rewrite String.eqb_refl.
           apply negb_true_iff, String.eqb_neq, Hv.
    + assert (Hne' : String.eqb k k' = false).
      { apply String.eqb_neq. intros ->. apply Hne. reflexivity. }
      rewrite IH.
      * unfold Env.set. rewrite Hne'. reflexivity.
      * unfold Env.defined, Env.set in *. rewrite Hne'. exact Hk.
Qed.

Lemma load_env_lines (st : fs) (e : Env.env) (k : string) :
  Env.load_env st e k
  = if Env.defined k e then e k
    else match Env.value_of k (Env.file_entries st) with
         | Some v => Some v
         | None => e k
         end.
Proof.
  unfold Env.load_env, Env.file_entries.
  destruct (st Env.envPath) as [| |data].
  - destruct (Env.defined k e); reflexivity.
  - destruct (Env.defined k e); reflexivity.
  - destruct (Env.defined k e) eqn:Hk.
    + apply load_lines_defined, Hk.
    + apply load_lines_undefined, Hk.
Qed.

(** X21: the environment takes precedence over the [.env] file.  A
    variable that has a value in the environment, and not the empty one,
    keeps it whatever the file says.  Any other variable gets from the
    file the first value that is not empty among the lines [KEY=value]
    for its name, the empty text when all of them are empty, and stays
    as it is when the file has no line for it, does not exist or cannot
    be read. *)
Theorem env_before_file (st : fs) (e : Env.env) (k : string) :
  (Env.defined k e = true -> Env.load_env st e k = e k)
  /\ (Env.defined k e = false ->
      Env.load_env st e k
      = match Env.value_of k (Env.file_entries st) with
        | Some v => Some v
        | None => e k
        end)
  /\ (forall v, e k = Some v -> v <> "" -> Env.defined k e = true)
  /\ (st Env.envPath = Missing \/ st Env.envPath = Locked ->
      Env.load_env st e = e).
Proof.
  pose proof (load_env_lines st e k) as H.
  split; [|split; [|split]].
  - intros Hk. rewrite H, Hk. reflexivity.
  - intros Hk. rewrite H, Hk. reflexivity.
  - intros v Hv Hne. unfold Env.defined. rewrite Hv.
    apply negb_true_iff, String.eqb_neq, Hne.
  - unfold Env.load_env. intros [-> | ->]; reflexivity.
Qed.

(** X22: the secret that signs the tokens is the [JWT_SECRET] of the
    environment when that is not empty, else the value that the [.env]
    file gives [JWT_SECRET] when that is not empty, else
    ["change_this_secret"]. *)
Theorem secret_resolution (st : fs) (e : Env.env) :
  let chosen (v : option string) (otherwise : string) :=
    match v with
    | Some s => if String.eqb s "" then otherwise else s
    | None => otherwise
    end in
  Env.JWT_SECRET (Env.load_env st e)
  = chosen (e "JWT_SECRET")
      (chosen (Env.value_of "JWT_SECRET" (Env.file_entries st))
         "change_this_secret").
Proof.
  intros chosen. unfold Env.JWT_SECRET.
  rewrite (load_env_lines st e "JWT_SECRET"). unfold Env.defined.
  destruct (e "JWT_SECRET") as [v|]; cbn [chosen].
  - destruct (String.eqb v "") eqn:E; cbn [negb].
    + destruct (Env.value_of "JWT_SECRET" (Env.file_entries st)) as [w|];
        [reflexivity|]. rewrite E. reflexivity.
    + rewrite E. reflexivity.
  - cbn [existsb Env.inherited String.eqb Ascii.eqb Bool.eqb orb].
    destruct (Env.value_of "JWT_SECRET" (Env.file_entries st)) as [w|];
      reflexivity.
Qed.

(** *** The format of a line *)

Lemma strip_any_visible (c : ascii) (r : string) :
  Env.visible c = true ->
  Env.strip_any (map Utf8.encode Env.white_space) (String c r) = None
  /\ Env.strip_any (map (fun cp => Env.reverse (Utf8.encode cp)) Env.white_space)
       (String c r) = None.
Proof.
  destruct c as [[|] [|] [|] [|] [|] [|] [|] [|]]; intros H;
    try discriminate H; split; reflexivity.
Qed.

Lemma reverse_involutive (s : string) : Env.reverse (Env.reverse s) = s.
Proof.
  unfold Env.reverse. rewrite rev_string_rev. cbn [rev_string].
  apply append_nil_r.
Qed.

Lemma reverse_app (a b : string) :
  Env.reverse (a ++ b) = Env.reverse b ++ Env.reverse a.
Proof.
  unfold Env.reverse. rewrite rev_string_app.
  rewrite (rev_string_acc b (rev_string a "")). reflexivity.
Qed.

(** Text that starts and ends with a visible character is trimmed to
    itself. *)
Lemma trim_visible (s r r' : string) (c d : ascii) :
  s = String c r -> Env.visible c = true ->
  Env.reverse s = String d r' -> Env.visible d = true ->
  Env.trim s = s.
Proof.
  intros Hs Hc Hrev Hd. unfold Env.trim.
  assert (Hstart : Env.trim_start s = s).
  { unfold Env.trim_start. rewrite Hs. cbn [String.length Env.strip_all].
    rewrite (proj1 (strip_any_visible c r Hc)). reflexivity. }
  rewrite Hstart. unfold Env.trim_end. rewrite Hrev.
  rewrite Hs. cbn [String.length Env.strip_all].
  rewrite (proj2 (strip_any_visible d r' Hd)).
  rewrite <- Hrev, <- Hs. apply reverse_involutive.
Qed.

Lemma join_cons_char (sep : string) (c : ascii) (hd : string) (tl : list string) :
  Json.join sep (String c hd :: tl) = String c (Json.join sep (hd :: tl)).
Proof. destruct tl; reflexivity. Qed.

(** Splitting at a character and joining with it gives the text back. *)
Lemma join_split (sep : ascii) (v : string) :
  Json.join (String sep "") (Text.split sep v) = v.
Proof.
  induction v as [|c v IH]; [reflexivity|].
  cbn [Text.split]. destruct (Ascii.eqb_spec c sep) as [->|Hne].
  - pose proof (split_not_nil sep v) as Hnil.
    destruct (Text.split sep v) as [|hd tl]; [contradiction|].
    change (Json.join (String sep "") ("" :: hd :: tl))
      with (String sep (Json.join (String sep "") (hd :: tl))).
    rewrite IH. reflexivity.
  - pose proof (split_not_nil sep v) as Hnil.
    destruct (Text.split sep v) as [|hd tl]; [contradiction|].
    rewrite join_cons_char, IH. reflexivity.
Qed.

(** X23: a line [KEY=value] of the [.env] file is taken as it stands
    between its first and its last visible character: the name is the
    text before the first [=] and the value all the text after it, with
    every further [=] and every space in it; nothing is trimmed around
    the [=] and no quotes are taken off.  The line defines the variable
    unless it is defined already. *)
Theorem line_defines
  (e : Env.env) (key value r : string) (c : ascii) :
  key = String c r ->
  Env.visible c = true -> c <> "#"%char ->
  Text.mem "=" key = false ->
  (value = ""
   \/ exists d r', Env.reverse value = String d r' /\ Env.visible d = true) ->
  Env.entry (key ++ "=" ++ value) = Some (key, value)
  /\ Env.load_line e (key ++ "=" ++ value)
     = if Env.defined key e then e else Env.set key value e.
Proof.
  intros Hkey Hc Hhash Heq Hend. subst key.
  assert (Hentry : Env.entry (String c r ++ "=" ++ value)
                   = Some (String c r, value)).
  { unfold Env.entry.
    assert (Htrim : Env.trim (String c r ++ "=" ++ value)
                    = String c r ++ "=" ++ value).
    { destruct Hend as [-> | (d & r' & Hrev & Hd)].
      - apply (trim_visible _ (r ++ "=") (Env.reverse (String c r)) c "="%char);
          [reflexivity | exact Hc | | reflexivity].
        rewrite reverse_app. reflexivity.
      - apply (trim_visible _ (r ++ "=" ++ value)
                 (r' ++ Env.reverse (String c r ++ "=")) c d);
          [reflexivity | exact Hc | | exact Hd].
        rewrite <- append_assoc, reverse_app, Hrev.
        reflexivity. }
    rewrite Htrim.
    change (String c r ++ "=" ++ value)
      with (String c r ++ String "="%char value).
    rewrite (split_app "=" (String c r) value Heq), join_split.
    cbn [append String.eqb orb].
    unfold starts_with. cbn [Json.strip_prefix].
    assert (E : Ascii.eqb "#" c = false).
    { apply Ascii.eqb_neq. intros E. apply Hhash. symmetry. exact E. }
    rewrite E. reflexivity. }
  split; [exact Hentry|].
  rewrite load_line_entry, Hentry. reflexivity.
Qed.

Lemma line_defines_witness :
  Env.entry "PORT = 8080" = Some ("PORT ", " 8080")
  /\ Env.entry "JWT_SECRET=s3=cr et" = Some ("JWT_SECRET", "s3=cr et").
Proof.
  split.
  - refine (proj1 (line_defines (fun _ => None) "PORT " " 8080" "ORT " "P"
                     eq_refl eq_refl _ eq_refl _)).
    + discriminate.
    + right. exists "0"%char, "808 ". split; reflexivity.
  - refine (proj1 (line_defines (fun _ => None) "JWT_SECRET" "s3=cr et"
                     "WT_SECRET" "J" eq_refl eq_refl _ eq_refl _)).
    + discriminate.
    + right. exists "t"%char, "e rc=3s". split; reflexivity.
Defined.

Lemma env_before_file_witness :
  Env.load_env Samples.disk_with_env Samples.environment "HOME" = Some "/root"
  /\ Env.load_env Samples.disk_with_env Samples.environment "JWT_SECRET"
     = Some "s3=cr=et".
Proof.
  split.
  - apply (proj1 (env_before_file Samples.disk_with_env Samples.environment
                    "HOME")).
    reflexivity.
  - refine (eq_trans
              (proj1 (proj2 (env_before_file Samples.disk_with_env
                               Samples.environment "JWT_SECRET")) _) _).
    + reflexivity.
    + vm_compute. reflexivity.
Defined.

Example secret_of_sample :
  Env.JWT_SECRET (Env.load_env Samples.disk_with_env Samples.environment)
  = "s3=cr=et"
  /\ Env.JWT_SECRET (Env.load_env (fun _ => Missing) Samples.environment)
     = "change_this_secret".
Proof. split; vm_compute; reflexivity. Qed.

(** ** Altered signatures *)

(** X24: a change of the signature is always noticed.  The signature is
    compared as text, character for character, so a token that
    [verifyToken] accepts has one signature text only: replacing any one
    character of its signature segment by another one, a dot included,
    gives a token that [verifyToken] rejects at every time. *)
Theorem signature_change_rejected
  (secret : string) (now now' : Z) (t h p s : string) (v : value)
  (i : nat) (c : ascii) :
  Text.split "." t = [h; p; s] ->
  Token.verifyToken secret now t = Return v ->
  v <> JNull ->
  (i < String.length s)%nat ->
  String.get i s <> Some c ->
  Token.verifyToken secret now' (h ++ "." ++ p ++ "." ++ Text.set_char i c s)
  = Return JNull.
Proof.
  intros Hsplit Hver Hv Hi Hget.
  destruct (proj1 (verifyToken_accepts secret now t v) (conj Hver Hv))
    as (h0 & p0 & s0 & e & Hsplit0 & Hsig & _).
  rewrite Hsplit in Hsplit0. injection Hsplit0 as <- <- <-.
  apply verifyToken_bad_signature.
  rewrite Hsig. intros E. symmetry in E. revert E.
  apply set_char_changes; assumption.
Qed.

Lemma signature_change_rejected_witness :
  Token.verifyToken Samples.secret 1700000001000
    (Samples.header64 ++ "." ++ Samples.alice_payload64 ++ "."
       ++ Text.set_char 42 "A" Samples.alice_signature)
  = Return JNull.
Proof.
  apply (signature_change_rejected Samples.secret 1700000000500
           1700000001000 Samples.alice_token Samples.header64
           Samples.alice_payload64 Samples.alice_signature
           Samples.alice_claims 42%nat "A"%char).
  - by_computation.
  - by_computation.
  - discriminate.
  - vm_compute. lia.
  - vm_compute. discriminate.
Defined.
